(** * Block-trade ledger tool: a shallow embedding of [block_trades_parser.py]

    The development follows the layout of the Python module:
    text helpers, the name normaliser, the report-date extractor, the
    page-table parser, the spreadsheet helpers and the driver.

    Python strings are sequences of Unicode code points; they are modelled
    as [list N].  Literals are written in UTF-8 and decoded by [utf8]. *)

From Stdlib Require Import ZArith NArith Lia Floats Ascii.
From Stdlib Require Import DecimalFacts DecimalPos DecimalN.
From stdpp Require Import gmap list strings sorting.

#[global] Set Warnings "-inexact-float".

Local Open Scope N_scope.

(** ** Code points and string literals *)

Abbreviation str := (list N).

Fixpoint utf8_bytes (s : string) : list N :=
  match s with
  | EmptyString => []
  | String a r => N_of_ascii a :: utf8_bytes r
  end.

(** UTF-8 decoding of well-formed input (one to four bytes per code point). *)
Fixpoint utf8_decode (bs : list N) : str :=
  match bs with
  | [] => []
  | b0 :: r0 =>
    if b0 <? 0x80 then b0 :: utf8_decode r0
    else match r0 with
    | [] => [b0]
    | b1 :: r1 =>
      if b0 <? 0xE0 then ((b0 - 0xC0) * 64 + (b1 - 0x80)) :: utf8_decode r1
      else match r1 with
      | [] => [b0; b1]
      | b2 :: r2 =>
        if b0 <? 0xF0
        then ((b0 - 0xE0) * 4096 + (b1 - 0x80) * 64 + (b2 - 0x80)) :: utf8_decode r2
        else match r2 with
        | [] => [b0; b1; b2]
        | b3 :: r3 =>
          ((b0 - 0xF0) * 262144 + (b1 - 0x80) * 4096 + (b2 - 0x80) * 64 + (b3 - 0x80))
            :: utf8_decode r3
        end
      end
    end
  end.

Definition utf8 (s : string) : str := utf8_decode (utf8_bytes s).

Definition ch_space : N := 0x20.
Definition ch_lparen : N := 0x28.
Definition ch_rparen : N := 0x29.
Definition ch_comma : N := 0x2C.
Definition ch_dash : N := 0x2D.
Definition ch_dot : N := 0x2E.
Definition ch_plus : N := 0x2B.
Definition ch_colon : N := 0x3A.
Definition ch_equals : N := 0x3D.
Definition ch_underscore : N := 0x5F.

Definition str_eqb (a b : str) : bool := bool_decide (a = b).

(** ** The Python string library, as far as the module uses it *)

Module Py.

(** [str.isspace] on one character, which is also the class [\s] of [re]
    on [str] patterns. *)
Definition isspace (c : N) : bool :=
  ((0x09 <=? c) && (c <=? 0x0D)) || ((0x1C <=? c) && (c <=? 0x20))
  || (c =? 0x85) || (c =? 0xA0) || (c =? 0x1680)
  || ((0x2000 <=? c) && (c <=? 0x200A))
  || (c =? 0x2028) || (c =? 0x2029) || (c =? 0x202F) || (c =? 0x205F)
  || (c =? 0x3000).

(** Line boundaries of [str.splitlines]. *)
Definition islinebreak (c : N) : bool :=
  ((0x0A <=? c) && (c <=? 0x0D)) || ((0x1C <=? c) && (c <=? 0x1E))
  || (c =? 0x85) || (c =? 0x2028) || (c =? 0x2029).

(** The zero digit of every block of decimal digits (general category Nd);
    the class [\d] of [re], and the digits [int] and [float] accept. *)
Definition digit_zeros : list N :=
  [
    0x30; 0x660; 0x6f0; 0x7c0; 0x966; 0x9e6; 0xa66; 0xae6; 0xb66; 0xbe6;
    0xc66; 0xce6; 0xd66; 0xde6; 0xe50; 0xed0; 0xf20; 0x1040; 0x1090; 0x17e0;
    0x1810; 0x1946; 0x19d0; 0x1a80; 0x1a90; 0x1b50; 0x1bb0; 0x1c40; 0x1c50; 0xa620;
    0xa8d0; 0xa900; 0xa9d0; 0xa9f0; 0xaa50; 0xabf0; 0xff10; 0x104a0; 0x10d30; 0x11066;
    0x110f0; 0x11136; 0x111d0; 0x112f0; 0x11450; 0x114d0; 0x11650; 0x116c0; 0x11730; 0x118e0;
    0x11950; 0x11c50; 0x11d50; 0x11da0; 0x16a60; 0x16ac0; 0x16b50; 0x1d7ce; 0x1d7d8; 0x1d7e2;
    0x1d7ec; 0x1d7f6; 0x1e140; 0x1e2f0; 0x1e950; 0x1fbf0  ].

Definition digit_value (c : N) : option N :=
  match List.find (fun z => (z <=? c) && (c <=? z + 9)) digit_zeros with
  | Some z => Some (c - z)
  | None => None
  end.

Definition isdigit (c : N) : bool :=
  match digit_value c with Some _ => true | None => false end.

Fixpoint lstrip (s : str) : str :=
  match s with
  | [] => []
  | c :: r => if isspace c then lstrip r else s
  end.
Definition rstrip (s : str) : str := reverse (lstrip (reverse s)).
Definition strip (s : str) : str := rstrip (lstrip s).

(** [str.split()] without arguments: the maximal runs of non-space. *)
Fixpoint split_acc (cur : str) (s : str) : list str :=
  match s with
  | [] => if cur is [] then [] else [cur]
  | c :: r =>
    if isspace c
    then (if cur is [] then split_acc [] r else cur :: split_acc [] r)
    else split_acc (cur ++ [c]) r
  end.
Definition split (s : str) : list str := split_acc [] s.

(** [sep.join(parts)]. *)
Fixpoint join (sep : str) (parts : list str) : str :=
  match parts with
  | [] => []
  | [p] => p
  | p :: ps => p ++ sep ++ join sep ps
  end.

(** [needle in hay]. *)
Fixpoint starts_with (needle hay : str) : bool :=
  match needle, hay with
  | [], _ => true
  | _ :: _, [] => false
  | a :: n', b :: h' => (a =? b) && starts_with n' h'
  end.
Fixpoint contains (needle hay : str) : bool :=
  starts_with needle hay ||
  match hay with
  | [] => false
  | _ :: h' => contains needle h'
  end.

(** [str.splitlines()]: a carriage return followed by a line feed is one
    boundary, and a final boundary opens no empty last line. *)
Fixpoint splitlines_acc (cur : str) (s : str) : list str :=
  match s with
  | [] => if cur is [] then [] else [cur]
  | c :: r =>
    if islinebreak c then
      match r with
      | d :: r' =>
        if (c =? 0x0D) && (d =? 0x0A)
        then cur :: splitlines_acc [] r'
        else cur :: splitlines_acc [] r
      | [] => [cur]
      end
    else splitlines_acc (cur ++ [c]) r
  end.
Definition splitlines (s : str) : list str := splitlines_acc [] s.

(** [str.replace(old, new)] for a one-character [old]. *)
Definition replace_char (old : N) (new : str) (s : str) : str :=
  flat_map (fun c => if c =? old then new else [c]) s.

(** [str.translate] with a table built by [str.maketrans(from, to)]. *)
Definition maketrans (from to : str) : list (N * N) := zip from to.
Definition translate_char (tbl : list (N * N)) (c : N) : N :=
  match List.find (fun p => fst p =? c) tbl with
  | Some p => snd p
  | None => c
  end.
Definition translate (tbl : list (N * N)) (s : str) : str :=
  map (translate_char tbl) s.

(** [str.upper]: the full upper-case mapping of Unicode 14 on ASCII, on the
    Greek and Coptic block and on the Greek Extended block.  Code points of
    other blocks are left as they are; the statements below that depend on
    [upper] are restricted to the tabulated blocks. *)
Definition upper_simple : list (N * N) :=
  [
    (0x371, 0x370); (0x373, 0x372); (0x377, 0x376); (0x37b, 0x3fd); (0x37c, 0x3fe); (0x37d, 0x3ff);
    (0x3ac, 0x386); (0x3ad, 0x388); (0x3ae, 0x389); (0x3af, 0x38a); (0x3b1, 0x391); (0x3b2, 0x392);
    (0x3b3, 0x393); (0x3b4, 0x394); (0x3b5, 0x395); (0x3b6, 0x396); (0x3b7, 0x397); (0x3b8, 0x398);
    (0x3b9, 0x399); (0x3ba, 0x39a); (0x3bb, 0x39b); (0x3bc, 0x39c); (0x3bd, 0x39d); (0x3be, 0x39e);
    (0x3bf, 0x39f); (0x3c0, 0x3a0); (0x3c1, 0x3a1); (0x3c2, 0x3a3); (0x3c3, 0x3a3); (0x3c4, 0x3a4);
    (0x3c5, 0x3a5); (0x3c6, 0x3a6); (0x3c7, 0x3a7); (0x3c8, 0x3a8); (0x3c9, 0x3a9); (0x3ca, 0x3aa);
    (0x3cb, 0x3ab); (0x3cc, 0x38c); (0x3cd, 0x38e); (0x3ce, 0x38f); (0x3d0, 0x392); (0x3d1, 0x398);
    (0x3d5, 0x3a6); (0x3d6, 0x3a0); (0x3d7, 0x3cf); (0x3d9, 0x3d8); (0x3db, 0x3da); (0x3dd, 0x3dc);
    (0x3df, 0x3de); (0x3e1, 0x3e0); (0x3e3, 0x3e2); (0x3e5, 0x3e4); (0x3e7, 0x3e6); (0x3e9, 0x3e8);
    (0x3eb, 0x3ea); (0x3ed, 0x3ec); (0x3ef, 0x3ee); (0x3f0, 0x39a); (0x3f1, 0x3a1); (0x3f2, 0x3f9);
    (0x3f3, 0x37f); (0x3f5, 0x395); (0x3f8, 0x3f7); (0x3fb, 0x3fa); (0x1f00, 0x1f08); (0x1f01, 0x1f09);
    (0x1f02, 0x1f0a); (0x1f03, 0x1f0b); (0x1f04, 0x1f0c); (0x1f05, 0x1f0d); (0x1f06, 0x1f0e); (0x1f07, 0x1f0f);
    (0x1f10, 0x1f18); (0x1f11, 0x1f19); (0x1f12, 0x1f1a); (0x1f13, 0x1f1b); (0x1f14, 0x1f1c); (0x1f15, 0x1f1d);
    (0x1f20, 0x1f28); (0x1f21, 0x1f29); (0x1f22, 0x1f2a); (0x1f23, 0x1f2b); (0x1f24, 0x1f2c); (0x1f25, 0x1f2d);
    (0x1f26, 0x1f2e); (0x1f27, 0x1f2f); (0x1f30, 0x1f38); (0x1f31, 0x1f39); (0x1f32, 0x1f3a); (0x1f33, 0x1f3b);
    (0x1f34, 0x1f3c); (0x1f35, 0x1f3d); (0x1f36, 0x1f3e); (0x1f37, 0x1f3f); (0x1f40, 0x1f48); (0x1f41, 0x1f49);
    (0x1f42, 0x1f4a); (0x1f43, 0x1f4b); (0x1f44, 0x1f4c); (0x1f45, 0x1f4d); (0x1f51, 0x1f59); (0x1f53, 0x1f5b);
    (0x1f55, 0x1f5d); (0x1f57, 0x1f5f); (0x1f60, 0x1f68); (0x1f61, 0x1f69); (0x1f62, 0x1f6a); (0x1f63, 0x1f6b);
    (0x1f64, 0x1f6c); (0x1f65, 0x1f6d); (0x1f66, 0x1f6e); (0x1f67, 0x1f6f); (0x1f70, 0x1fba); (0x1f71, 0x1fbb);
    (0x1f72, 0x1fc8); (0x1f73, 0x1fc9); (0x1f74, 0x1fca); (0x1f75, 0x1fcb); (0x1f76, 0x1fda); (0x1f77, 0x1fdb);
    (0x1f78, 0x1ff8); (0x1f79, 0x1ff9); (0x1f7a, 0x1fea); (0x1f7b, 0x1feb); (0x1f7c, 0x1ffa); (0x1f7d, 0x1ffb);
    (0x1fb0, 0x1fb8); (0x1fb1, 0x1fb9); (0x1fbe, 0x399); (0x1fd0, 0x1fd8); (0x1fd1, 0x1fd9); (0x1fe0, 0x1fe8);
    (0x1fe1, 0x1fe9); (0x1fe5, 0x1fec)
  ].

Definition upper_special : list (N * list N) :=
  [
    (0x390, [0x399; 0x308; 0x301]); (0x3b0, [0x3a5; 0x308; 0x301]); (0x1f50, [0x3a5; 0x313]);
    (0x1f52, [0x3a5; 0x313; 0x300]); (0x1f54, [0x3a5; 0x313; 0x301]); (0x1f56, [0x3a5; 0x313; 0x342]);
    (0x1f80, [0x1f08; 0x399]); (0x1f81, [0x1f09; 0x399]); (0x1f82, [0x1f0a; 0x399]);
    (0x1f83, [0x1f0b; 0x399]); (0x1f84, [0x1f0c; 0x399]); (0x1f85, [0x1f0d; 0x399]);
    (0x1f86, [0x1f0e; 0x399]); (0x1f87, [0x1f0f; 0x399]); (0x1f88, [0x1f08; 0x399]);
    (0x1f89, [0x1f09; 0x399]); (0x1f8a, [0x1f0a; 0x399]); (0x1f8b, [0x1f0b; 0x399]);
    (0x1f8c, [0x1f0c; 0x399]); (0x1f8d, [0x1f0d; 0x399]); (0x1f8e, [0x1f0e; 0x399]);
    (0x1f8f, [0x1f0f; 0x399]); (0x1f90, [0x1f28; 0x399]); (0x1f91, [0x1f29; 0x399]);
    (0x1f92, [0x1f2a; 0x399]); (0x1f93, [0x1f2b; 0x399]); (0x1f94, [0x1f2c; 0x399]);
    (0x1f95, [0x1f2d; 0x399]); (0x1f96, [0x1f2e; 0x399]); (0x1f97, [0x1f2f; 0x399]);
    (0x1f98, [0x1f28; 0x399]); (0x1f99, [0x1f29; 0x399]); (0x1f9a, [0x1f2a; 0x399]);
    (0x1f9b, [0x1f2b; 0x399]); (0x1f9c, [0x1f2c; 0x399]); (0x1f9d, [0x1f2d; 0x399]);
    (0x1f9e, [0x1f2e; 0x399]); (0x1f9f, [0x1f2f; 0x399]); (0x1fa0, [0x1f68; 0x399]);
    (0x1fa1, [0x1f69; 0x399]); (0x1fa2, [0x1f6a; 0x399]); (0x1fa3, [0x1f6b; 0x399]);
    (0x1fa4, [0x1f6c; 0x399]); (0x1fa5, [0x1f6d; 0x399]); (0x1fa6, [0x1f6e; 0x399]);
    (0x1fa7, [0x1f6f; 0x399]); (0x1fa8, [0x1f68; 0x399]); (0x1fa9, [0x1f69; 0x399]);
    (0x1faa, [0x1f6a; 0x399]); (0x1fab, [0x1f6b; 0x399]); (0x1fac, [0x1f6c; 0x399]);
    (0x1fad, [0x1f6d; 0x399]); (0x1fae, [0x1f6e; 0x399]); (0x1faf, [0x1f6f; 0x399]);
    (0x1fb2, [0x1fba; 0x399]); (0x1fb3, [0x391; 0x399]); (0x1fb4, [0x386; 0x399]);
    (0x1fb6, [0x391; 0x342]); (0x1fb7, [0x391; 0x342; 0x399]); (0x1fbc, [0x391; 0x399]);
    (0x1fc2, [0x1fca; 0x399]); (0x1fc3, [0x397; 0x399]); (0x1fc4, [0x389; 0x399]);
    (0x1fc6, [0x397; 0x342]); (0x1fc7, [0x397; 0x342; 0x399]); (0x1fcc, [0x397; 0x399]);
    (0x1fd2, [0x399; 0x308; 0x300]); (0x1fd3, [0x399; 0x308; 0x301]); (0x1fd6, [0x399; 0x342]);
    (0x1fd7, [0x399; 0x308; 0x342]); (0x1fe2, [0x3a5; 0x308; 0x300]); (0x1fe3, [0x3a5; 0x308; 0x301]);
    (0x1fe4, [0x3a1; 0x313]); (0x1fe6, [0x3a5; 0x342]); (0x1fe7, [0x3a5; 0x308; 0x342]);
    (0x1ff2, [0x1ffa; 0x399]); (0x1ff3, [0x3a9; 0x399]); (0x1ff4, [0x38f; 0x399]);
    (0x1ff6, [0x3a9; 0x342]); (0x1ff7, [0x3a9; 0x342; 0x399]); (0x1ffc, [0x3a9; 0x399])
  ].

Definition upper_char (c : N) : str :=
  if (0x61 <=? c) && (c <=? 0x7A) then [c - 0x20]
  else match List.find (fun p => fst p =? c) upper_special with
  | Some p => snd p
  | None => [translate_char upper_simple c]
  end.

Definition upper (s : str) : str := flat_map upper_char s.

End Py.

(** ** The regular-expression substitutions of [norm_name]

    [re.sub] replaces the leftmost non-overlapping matches, scanning from
    left to right. *)

Module Re.

(** [re.sub(r"\s+", " ", s)]: every maximal run of white space becomes one
    space.  [in_run] tells that the previous character belonged to a run. *)
Fixpoint sub_spaces (in_run : bool) (s : str) : str :=
  match s with
  | [] => []
  | c :: r =>
    if Py.isspace c
    then (if in_run then sub_spaces true r else ch_space :: sub_spaces true r)
    else c :: sub_spaces false r
  end.

(** [re.sub(r"\s*\(", " (", s)]: a match is a run of white space (possibly
    empty) that ends at an opening parenthesis.  [pending] is the run read
    so far; it is copied unchanged when no parenthesis follows it. *)
Fixpoint sub_paren (pending : str) (s : str) : str :=
  match s with
  | [] => pending
  | c :: r =>
    if Py.isspace c then sub_paren (pending ++ [c]) r
    else if c =? ch_lparen then ch_space :: ch_lparen :: sub_paren [] r
    else pending ++ c :: sub_paren [] r
  end.

(** Characters matched by a literal under [re.I]: the engine compares the
    lower-case forms, and knows the Kelvin sign and the kappa symbol. *)
Definition ci_latin_K (c : N) : bool := (c =? 0x4B) || (c =? 0x6B) || (c =? 0x212A).
Definition ci_latin_O (c : N) : bool := (c =? 0x4F) || (c =? 0x6F).
Definition ci_latin_A (c : N) : bool := (c =? 0x41) || (c =? 0x61).
Definition ci_greek_K (c : N) : bool := (c =? 0x39A) || (c =? 0x3BA) || (c =? 0x3F0).
Definition ci_greek_O (c : N) : bool := (c =? 0x39F) || (c =? 0x3BF).
Definition ci_greek_A (c : N) : bool := (c =? 0x391) || (c =? 0x3B1).

(** The alternations [(ΚΟ|KO)] and [(ΚΑ|KA)]: both letters Greek or both
    Latin. *)
Definition pair_KO (b c : N) : bool :=
  (ci_greek_K b && ci_greek_O c) || (ci_latin_K b && ci_latin_O c).
Definition pair_KA (b c : N) : bool :=
  (ci_greek_K b && ci_greek_A c) || (ci_latin_K b && ci_latin_A c).

(** [re.sub(r"\((..)\)", repl, s, flags=re.I)] for a two-letter group
    recognised by [pair]. *)
Fixpoint sub_group (pair : N -> N -> bool) (repl : str) (s : str) : str :=
  match s with
  | [] => []
  | a :: r =>
    match r with
    | b :: c :: d :: r' =>
      if (a =? ch_lparen) && pair b c && (d =? ch_rparen)
      then repl ++ sub_group pair repl r'
      else a :: sub_group pair repl r
    | _ => a :: sub_group pair repl r
    end
  end.

End Re.

(** ** NameNormalizer *)

Definition _DEACCENT_TABLE : list (N * N) :=
  Py.maketrans (utf8 "ΪΫάέίόύήώϊϋΐΰΆΈΊΎΌΉΏ") (utf8 "ΙΥαειουηωιυιυΑΕΙΥΟΗΩ").

Definition lit_KO : str := [ch_lparen; 0x4B; 0x4F; ch_rparen].
Definition lit_KA : str := [ch_lparen; 0x4B; 0x41; ch_rparen].

(** [norm_name] on a [str].  The guard that returns a value that is not a
    string as it is lies outside this type. *)
Definition norm_name (s : str) : str :=
  let s := Py.translate _DEACCENT_TABLE s in
  let s := Re.sub_spaces false (Py.strip s) in
  let s := Re.sub_paren [] s in
  let s := Re.sub_group Re.pair_KO lit_KO s in
  let s := Re.sub_group Re.pair_KA lit_KA s in
  Py.upper s.

(** ** Exceptions *)

Inductive exn := ValueError | OverflowError | AttributeError.

Inductive result (A : Type) : Type :=
  | Ok (a : A)
  | Raise (e : exn).
Arguments Ok {A} a.
Arguments Raise {A} e.

Global Instance result_bind : MBind result := fun A B k r =>
  match r with
  | Ok a => k a
  | Raise e => Raise e
  end.
Global Instance result_ret : MRet result := fun A a => Ok a.

(** The first exception of a column conversion aborts it. *)
Fixpoint map_result {A B : Type} (f : A -> result B) (l : list A) : result (list B) :=
  match l with
  | [] => Ok []
  | a :: r => b ← f a; bs ← map_result f r; Ok (b :: bs)
  end.

(** ** Numbers: [int], [float], [str] and [format] *)

Module Num.

Local Open Scope N_scope.

(** A digit part: decimal digits, single underscores between them. *)
Fixpoint digit_tail (after_underscore : bool) (s : str) : option (list N) :=
  match s with
  | [] => if after_underscore then None else Some []
  | c :: r =>
    if c =? ch_underscore
    then (if after_underscore then None else digit_tail true r)
    else match Py.digit_value c with
         | Some d => cons d <$> digit_tail false r
         | None => None
         end
  end.

Definition digit_part (s : str) : option (list N) :=
  match s with
  | [] => None
  | c :: r =>
    match Py.digit_value c with
    | Some d => cons d <$> digit_tail false r
    | None => None
    end
  end.

Definition digits_value (ds : list N) : N :=
  fold_left (fun acc d => acc * 10 + d) ds 0.

Definition split_sign (s : str) : bool * str :=
  match s with
  | c :: r =>
    if c =? ch_dash then (true, r)
    else if c =? ch_plus then (false, r)
    else (false, s)
  | [] => (false, [])
  end.

(** [int(s)] for a string, base ten. *)
Definition int (s : str) : result Z :=
  let '(neg, body) := split_sign (Py.strip s) in
  match digit_part body with
  | Some ds =>
    let n := Z.of_N (digits_value ds) in
    Ok (if neg then (- n)%Z else n)
  | None => Raise ValueError
  end.

(** The store of a Python integer into a 64-bit signed array element. *)
Definition to_int64 (z : Z) : result Z :=
  if ((- 2 ^ 63 <=? z) && (z <? 2 ^ 63))%Z then Ok z else Raise OverflowError.

(** Underscores of a float literal: each one stands between two digits. *)
Fixpoint drop_underscores (prev : option N) (s : str) : option str :=
  match s with
  | [] =>
    match prev with
    | Some p => if p =? ch_underscore then None else Some []
    | None => Some []
    end
  | c :: r =>
    if c =? ch_underscore then
      match prev with
      | Some p => if Py.isdigit p then drop_underscores (Some c) r else None
      | None => None
      end
    else
      match prev with
      | Some p =>
        if (p =? ch_underscore) && negb (Py.isdigit c) then None
        else cons c <$> drop_underscores (Some c) r
      | None => cons c <$> drop_underscores (Some c) r
      end
  end.

(** The longest prefix of decimal digits, as digit values, and the rest. *)
Fixpoint span_digits (s : str) : list N * str :=
  match s with
  | [] => ([], [])
  | c :: r =>
    match Py.digit_value c with
    | Some d => let '(ds, rest) := span_digits r in (d :: ds, rest)
    | None => ([], s)
    end
  end.

Definition ascii_lower (c : N) : N :=
  if (0x41 <=? c) && (c <=? 0x5A) then c + 0x20 else c.

Inductive float_literal :=
  | LitInf (neg : bool)
  | LitNan
  | LitDec (neg : bool) (mantissa : N) (exp10 : Z).

(** The exponent part: [e] or [E], a sign, digits; it ends the literal. *)
Definition exponent (s : str) : option Z :=
  match s with
  | [] => Some 0%Z
  | c :: r =>
    if ascii_lower c =? 0x65 then
      let '(neg, body) := split_sign r in
      match span_digits body with
      | (d :: ds, []) =>
        let n := Z.of_N (digits_value (d :: ds)) in
        Some (if neg then (- n)%Z else n)
      | _ => None
      end
    else None
  end.

Definition float_syntax (s : str) : option float_literal :=
  match drop_underscores None (Py.strip s) with
  | None => None
  | Some s =>
    let '(neg, body) := split_sign s in
    let low := map ascii_lower body in
    if str_eqb low (utf8 "inf") || str_eqb low (utf8 "infinity") then Some (LitInf neg)
    else if str_eqb low (utf8 "nan") then Some LitNan
    else
      let '(ip, rest) := span_digits body in
      let '(fp, rest) :=
        match rest with
        | c :: r => if c =? ch_dot then span_digits r else ([], rest)
        | [] => ([], [])
        end in
      match ip ++ fp with
      | [] => None
      | ds =>
        match exponent rest with
        | Some e => Some (LitDec neg (digits_value ds) (e - Z.of_nat (length fp)))
        | None => None
        end
      end
  end.

(** The binary64 number nearest to [m * 10 ^ e] (ties to even, overflow to
    infinity), which is what the correctly rounded [float] returns. *)
Definition nearest_binary64 (neg : bool) (m : N) (e : Z) : spec_float :=
  match m with
  | N0 => S754_zero neg
  | Npos p =>
    match e with
    | Zneg k =>
      SFdiv prec emax (S754_finite neg p 0) (S754_finite false (Pos.pow 10 k) 0)
    | _ => binary_round prec emax neg (p * Z.to_pos (10 ^ e)) 0
    end
  end.

(** [float(s)] for a string. *)
Definition float (s : str) : result PrimFloat.float :=
  match float_syntax s with
  | Some (LitInf neg) => Ok (SF2Prim (S754_infinity neg))
  | Some LitNan => Ok (SF2Prim S754_nan)
  | Some (LitDec neg m e) => Ok (SF2Prim (nearest_binary64 neg m e))
  | None => Raise ValueError
  end.

(** Decimal digits of a natural number. *)
Fixpoint str_of_uint (u : Decimal.uint) : str :=
  match u with
  | Decimal.Nil => []
  | Decimal.D0 u => 0x30 :: str_of_uint u
  | Decimal.D1 u => 0x31 :: str_of_uint u
  | Decimal.D2 u => 0x32 :: str_of_uint u
  | Decimal.D3 u => 0x33 :: str_of_uint u
  | Decimal.D4 u => 0x34 :: str_of_uint u
  | Decimal.D5 u => 0x35 :: str_of_uint u
  | Decimal.D6 u => 0x36 :: str_of_uint u
  | Decimal.D7 u => 0x37 :: str_of_uint u
  | Decimal.D8 u => 0x38 :: str_of_uint u
  | Decimal.D9 u => 0x39 :: str_of_uint u
  end.

Definition str_of_N (n : N) : str := str_of_uint (N.to_uint n).

(** [str(v)] for an integer. *)
Definition str_of_int (z : Z) : str :=
  match z with
  | Zneg p => ch_dash :: str_of_N (Npos p)
  | _ => str_of_N (Z.to_N z)
  end.

(** The exact value [m * 2 ^ e] times one hundred, rounded to the nearest
    integer, ties to even. *)
Definition hundredths (m : positive) (e : Z) : N :=
  match e with
  | Zneg k =>
    let num := Npos m * 100 in
    let den := Npos (Pos.pow 2 k) in
    let q := num / den in
    let r := num mod den in
    match 2 * r ?= den with
    | Lt => q
    | Gt => q + 1
    | Eq => if N.even q then q else q + 1
    end
  | _ => Npos m * Z.to_N (2 ^ e) * 100
  end.

Definition two_digits (n : N) : str := [0x30 + n / 10; 0x30 + n mod 10].

Definition fixed2 (neg : bool) (q : N) : str :=
  (if neg then [ch_dash] else []) ++ str_of_N (q / 100) ++ ch_dot :: two_digits (q mod 100).

(** [f"{p:.2f}"]. *)
Definition format_2f (p : PrimFloat.float) : str :=
  match Prim2SF p with
  | S754_nan => utf8 "nan"
  | S754_infinity neg => (if neg then [ch_dash] else []) ++ utf8 "inf"
  | S754_zero neg => fixed2 neg 0
  | S754_finite neg m e => fixed2 neg (hundredths m e)
  end.

End Num.

(** ** TableParser *)

(** [TIME_RE = re.compile(r'(\d{2}:\d{2}:\d{2})\s+(\d+)$')]. *)
Module TIME_RE.

Fixpoint span (p : N -> bool) (s : str) : str * str :=
  match s with
  | [] => ([], [])
  | c :: r => if p c then let '(a, b) := span p r in (c :: a, b) else ([], s)
  end.

(** A match that starts at the head of [s]: the clock, a run of white
    space, a run of digits, and the end of the string ([$] also accepts one
    final line feed).  The two runs are maximal: white space and digits are
    disjoint classes, so no shorter choice can succeed. *)
Definition match_here (s : str) : option (str * str) :=
  match s with
  | h1 :: h2 :: c1 :: m1 :: m2 :: c2 :: s1 :: s2 :: rest =>
    if forallb Py.isdigit [h1; h2; m1; m2; s1; s2] && (c1 =? ch_colon) && (c2 =? ch_colon)
    then
      let '(ws, rest) := span Py.isspace rest in
      let '(ds, rest) := span Py.isdigit rest in
      match ws, ds with
      | _ :: _, _ :: _ =>
        if str_eqb rest [] || str_eqb rest [0x0A]
        then Some ([h1; h2; c1; m1; m2; c2; s1; s2], ds)
        else None
      | _, _ => None
      end
    else None
  | _ => None
  end.

(** [TIME_RE.search(s)]: the leftmost match, with [m.start()], [m.group(1)]
    and [m.group(2)]; [i] counts the characters already passed. *)
Fixpoint search_from (i : nat) (s : str) : option (nat * str * str) :=
  match match_here s with
  | Some (t, n) => Some (i, t, n)
  | None =>
    match s with
    | [] => None
    | _ :: r => search_from (S i) r
    end
  end.

Definition search (s : str) : option (nat * str * str) := search_from 0 s.

End TIME_RE.

(** A row of the table before and after the conversion of its columns. *)
Record raw_row := {
  raw_company : str;
  raw_volume : str;
  raw_price : str;
  raw_value : str;
  raw_time : str;
  raw_note : str
}.

Record trade_row := {
  Company : str;
  Volume : Z;
  Price : PrimFloat.float;
  Value : PrimFloat.float;
  ApprovalTime : str;
  Note : str
}.

Definition kw_securities : str := utf8 "Χρεόγραφα".
Definition kw_volume : str := utf8 "Όγκος".
Definition kw_approval : str := utf8 "Ώρα έγκρισης".
Definition kw_notes : str := utf8 "Σημειώσεις".

Definition is_header_line (ln : str) : bool :=
  Py.contains kw_securities ln && Py.contains kw_volume ln && Py.contains kw_approval ln.

(** The first loop: [start] is one past the first header line. *)
Fixpoint find_start (i : nat) (lines : list str) : option nat :=
  match lines with
  | [] => None
  | ln :: rest => if is_header_line ln then Some (S i) else find_start (S i) rest
  end.

(** The [break] test of the second loop, on the stripped line. *)
Definition ends_table (ln : str) : bool :=
  str_eqb ln [] || Py.contains kw_notes ln.

(** One stripped line of the table body: its row, if it has one. *)
Definition row_of_line (ln : str) : option raw_row :=
  match TIME_RE.search ln with
  | None => None
  | Some (i, time, note) =>
    let left := Py.strip (take i ln) in
    let parts := Py.split left in
    match reverse parts with
    | value_str :: price_str :: volume_str :: company_rev =>
      match company_rev with
      | [] => None
      | _ :: _ =>
        Some {| raw_company := Py.join [ch_space] (reverse company_rev);
                raw_volume := volume_str; raw_price := price_str;
                raw_value := value_str; raw_time := time; raw_note := note |}
      end
    | _ => None
    end
  end.

(** The second loop, over [lines[start:]]. *)
Fixpoint scan_rows (lines : list str) : list raw_row :=
  match lines with
  | [] => []
  | ln :: rest =>
    let ln := Py.strip ln in
    if ends_table ln then []
    else match row_of_line ln with
         | Some r => r :: scan_rows rest
         | None => scan_rows rest
         end
  end.

Definition strip_commas (s : str) : str := Py.replace_char ch_comma [] s.

(** The three column conversions, in the order of the source: the whole
    Volume column, then Price, then Value; the first failing cell raises. *)
Definition convert_columns (rows : list raw_row) : result (list trade_row) :=
  vols ← map_result (fun r => z ← Num.int (strip_commas (raw_volume r)); Num.to_int64 z) rows;
  prices ← map_result (fun r => Num.float (strip_commas (raw_price r))) rows;
  values ← map_result (fun r => Num.float (strip_commas (raw_value r))) rows;
  Ok (zip_with (fun r '(v, p, x) =>
        {| Company := raw_company r; Volume := v; Price := p; Value := x;
           ApprovalTime := raw_time r; Note := raw_note r |})
      rows (zip (zip vols prices) values)).

Definition table_rows (text : str) : list raw_row :=
  let lines := Py.splitlines text in
  match find_start 0 lines with
  | None => []
  | Some start => scan_rows (drop start lines)
  end.

Definition parse_block_table_from_page (text : str) : result (list trade_row) :=
  match table_rows text with
  | [] => Ok []
  | rows => convert_columns rows
  end.

(** ** Calendar dates *)

Record date := { year : Z; month : Z; day : Z }.

Global Instance date_eq_dec : EqDecision date.
Proof. solve_decision. Defined.

Definition is_leap (y : Z) : bool :=
  ((y mod 4 =? 0) && (negb (y mod 100 =? 0) || (y mod 400 =? 0)))%Z.

Definition days_in_month (y m : Z) : Z :=
  (if m =? 2 then (if is_leap y then 29 else 28)
   else if (m =? 4) || (m =? 6) || (m =? 9) || (m =? 11) then 30
   else 31)%Z.

(** [dt.date(year, month, day)]. *)
Definition make_date (y m d : Z) : result date :=
  if ((1 <=? y) && (y <=? 9999) && (1 <=? m) && (m <=? 12)
      && (1 <=? d) && (d <=? days_in_month y m))%Z
  then Ok {| year := y; month := m; day := d |}
  else Raise ValueError.

(** ** DateExtractor *)

(** Insertion-ordered dictionaries with string keys. *)
Section Dict.
Context {V : Type}.

Fixpoint dict_get (d : list (str * V)) (k : str) : option V :=
  match d with
  | [] => None
  | (k', v) :: r => if str_eqb k' k then Some v else dict_get r k
  end.

(** [d[k] = v]: a known key keeps its place and takes the new value, a
    new key goes to the end. *)
Fixpoint dict_set (d : list (str * V)) (k : str) (v : V) : list (str * V) :=
  match d with
  | [] => [(k, v)]
  | (k', v') :: r =>
    if str_eqb k' k then (k', v) :: r else (k', v') :: dict_set r k v
  end.
End Dict.

Definition GREEK_MONTHS : list (str * Z) :=
  [(utf8 "Ιανουαρίου", 1); (utf8 "Φεβρουαρίου", 2); (utf8 "Μαρτίου", 3);
   (utf8 "Απριλίου", 4); (utf8 "Μαΐου", 5); (utf8 "Μαίου", 5);
   (utf8 "Ιουνίου", 6); (utf8 "Ιουλίου", 7); (utf8 "Αυγούστου", 8);
   (utf8 "Σεπτεμβρίου", 9); (utf8 "Οκτωβρίου", 10); (utf8 "Νοεμβρίου", 11);
   (utf8 "Δεκεμβρίου", 12)]%Z.

Definition fallback_months : list (str * Z) :=
  [(utf8 "Ιανουαριου", 1); (utf8 "Φεβρουαριου", 2); (utf8 "Μαρτιου", 3);
   (utf8 "Απριλιου", 4); (utf8 "Μαιου", 5); (utf8 "Ιουνιου", 6);
   (utf8 "Ιουλιου", 7); (utf8 "Αυγουστου", 8); (utf8 "Σεπτεμβριου", 9);
   (utf8 "Οκτωβριου", 10); (utf8 "Νοεμβριου", 11); (utf8 "Δεκεμβριου", 12)]%Z.

(** [DATE_RE]: a day of the week, an optional comma, white space, one or
    two digits, white space, a month name, a comma, white space and four
    digits. *)
Module DATE_RE.

Definition DOW : list str :=
  map utf8 ["Δευτέρα"; "Τρίτη"; "Τετάρτη"; "Πέμπτη"; "Παρασκευή"; "Σάββατο"; "Κυριακή"].

(** The character class of the month name, member by member. *)
Definition month_char (c : N) : bool :=
  ((0x41 <=? c) && (c <=? 0x3A9))
  || ((0x41 <=? c) && (c <=? 0x5A)) || ((0x61 <=? c) && (c <=? 0x7A))
  || (c =? 0x3AA) || (c =? 0x3AB)
  || ((0x3AC <=? c) && (c <=? 0x3CE))
  || existsb (N.eqb c) (utf8 "ϊϋΐΰΏΉΈΆΌΊΎΪΫ").

(** No name of [DOW] is a prefix of another one, so at most one
    alternative matches at a position. *)
Definition after_dow (s : str) : option str :=
  match List.find (fun d => Py.starts_with d s) DOW with
  | Some d => Some (drop (length d) s)
  | None => None
  end.

(** [\s+] followed by the month group.  The class of the group contains
    two white-space characters (U+0085, U+00A0): when no name follows the
    run of white space, the engine gives the last character of the run back
    to the group. *)
Definition month_group (s : str) : option (str * str) :=
  match TIME_RE.span Py.isspace s with
  | ([], _) => None
  | (ws, r1) =>
    match TIME_RE.span month_char r1 with
    | (c :: name, r2) => Some (c :: name, r2)
    | ([], _) =>
      match reverse ws with
      | c :: _ :: _ => if month_char c then Some ([c], r1) else None
      | _ => None
      end
    end
  end.

Definition match_here (s : str) : option (str * str * str) :=
  r0 ← after_dow s;
  let r1 := match r0 with
            | c :: r => if c =? ch_comma then r else r0
            | [] => []
            end in
  match TIME_RE.span Py.isspace r1 with
  | (_ :: _, g1 :: r2) =>
    if Py.isdigit g1 then
      let '(day_s, r3) :=
        match r2 with
        | g2 :: r => if Py.isdigit g2 then ([g1; g2], r) else ([g1], r2)
        | [] => ([g1], [])
        end in
      '(name, r4) ← month_group r3;
      match r4 with
      | c :: r5 =>
        if c =? ch_comma then
          match TIME_RE.span Py.isspace r5 with
          | (_ :: _, y1 :: y2 :: y3 :: y4 :: _) =>
            if forallb Py.isdigit [y1; y2; y3; y4]
            then Some (day_s, name, [y1; y2; y3; y4])
            else None
          | _ => None
          end
        else None
      | [] => None
      end
    else None
  | _ => None
  end.

(** [DATE_RE.search(text)]: groups 2, 3 and 4 of the leftmost match. *)
Fixpoint search (s : str) : option (str * str * str) :=
  match match_here s with
  | Some m => Some m
  | None =>
    match s with
    | [] => None
    | _ :: r => search r
    end
  end.

End DATE_RE.

(** A document is the list of the texts of its pages
    ([p.extract_text() or ""]). *)
Fixpoint extract_report_date (pages : list str) : result (option date) :=
  match pages with
  | [] => Ok None
  | text :: rest =>
    match DATE_RE.search text with
    | Some (day_s, month_name, year_s) =>
      d ← Num.int day_s;
      y ← Num.int year_s;
      let month :=
        match dict_get GREEK_MONTHS month_name with
        | Some m => Some m
        | None => dict_get fallback_months (Py.translate _DEACCENT_TABLE month_name)
        end in
      match month with
      | Some m => dt ← make_date y m d; Ok (Some dt)
      | None => extract_report_date rest
      end
    | None => extract_report_date rest
    end
  end.

Definition BLOCK_KEYWORDS : list str :=
  map utf8 ["Στοιχεία Συναλλαγών Πακέτων";
            "Πίνακας Προσυμφωνημένων Συναλλαγών";
            "Χρεόγραφα Όγκος πακέτου Τιμή πακέτου Αξία πακέτου Ώρα έγκρισης"].

Definition is_block_page (text : str) : bool :=
  existsb (fun k => Py.contains k text) BLOCK_KEYWORDS.

(** A row of the unioned table: the report date and the parsed row. *)
Definition dated_row : Type := option date * trade_row.

(** The frames of the pages that have rows, concatenated. *)
Fixpoint parse_pages (report_date : option date) (pages : list str)
  : result (list dated_row) :=
  match pages with
  | [] => Ok []
  | text :: rest =>
    df ← parse_block_table_from_page text;
    more ← parse_pages report_date rest;
    Ok (map (fun r => (report_date, r)) df ++ more)
  end.

Definition extract_block_trades (pages : list str) : result (list dated_row) :=
  report_date ← extract_report_date pages;
  parse_pages report_date (filter (fun t => is_block_page t = true) pages).

(** ** The spreadsheet *)

Inductive cell_value :=
  | VNone
  | VBool (b : bool)
  | VInt (z : Z)
  | VFloat (f : PrimFloat.float)
  | VStr (s : str)
  | VDateTime (d : date) (seconds : N).

(** A worksheet is the table of its cells, keyed by (row, column); both
    count from one.  A cell that exists may hold [VNone]. *)
Abbreviation worksheet := (gmap (positive * positive) cell_value).

(** [ws.max_row] and [ws.max_column]: the largest index among the cells
    that exist, and 1 for a sheet without cells. *)
Definition max_row (ws : worksheet) : positive :=
  map_fold (fun k _ acc => Pos.max (fst k) acc) 1%positive ws.
Definition max_column (ws : worksheet) : positive :=
  map_fold (fun k _ acc => Pos.max (snd k) acc) 1%positive ws.

(** [ws.cell(row, column).value]: the access creates the cell when the
    sheet does not have it yet. *)
Definition get_cell (ws : worksheet) (r c : positive) : worksheet * cell_value :=
  match ws !! (r, c) with
  | Some v => (ws, v)
  | None => (<[(r, c) := VNone]> ws, VNone)
  end.

(** [ws.cell(row, column, value=v)]: the value is stored unless it is
    [None]; the cell is created in both cases. *)
Definition set_cell (ws : worksheet) (r c : positive) (v : cell_value) : worksheet :=
  match v with
  | VNone => fst (get_cell ws r c)
  | _ => <[(r, c) := v]> ws
  end.

(** What a reader of the sheet sees at a position. *)
Definition value_at (ws : worksheet) (r c : positive) : cell_value :=
  default VNone (ws !! (r, c)).

Definition midnight (d : date) : cell_value := VDateTime d 0.

Definition truthy (v : cell_value) : bool :=
  match v with
  | VNone => false
  | VBool b => b
  | VInt z => negb (z =? 0)%Z
  | VFloat f => negb (PrimFloat.is_zero f)
  | VStr s => negb (str_eqb s [])
  | VDateTime _ _ => true
  end.

Definition pad2 (z : Z) : str := Num.two_digits (Z.to_N z).
Definition pad4 (z : Z) : str :=
  let n := Z.to_N z in
  [0x30 + n / 1000; 0x30 + (n / 100) mod 10; 0x30 + (n / 10) mod 10; 0x30 + n mod 10].

(** ** LedgerWriter *)

(** The aggregated trades of one company. *)
Record group := { volumes : list Z; prices : list PrimFloat.float }.

Definition price_list_greek (prices : list PrimFloat.float) : str :=
  Py.join [ch_dash]
    (map (fun p => Py.replace_char ch_dot [ch_comma] (Num.format_2f p)) prices).

Definition volume_formula (volumes : list Z) : cell_value :=
  match volumes with
  | [] => VNone
  | [v] => VInt v
  | _ => VStr (ch_equals :: Py.join [ch_plus] (map Num.str_of_int volumes))
  end.

(** One turn of the loop of [fill_row]. *)
Definition fill_company (row_idx : positive) (trades : gmap str group) (date_obj : date)
    (ws : worksheet) (entry : str * (positive * str)) : worksheet :=
  let '(comp_norm, (start_col, _)) := entry in
  let ws := set_cell ws row_idx start_col (midnight date_obj) in
  match trades !! comp_norm with
  | None => ws
  | Some data =>
    let vols := volumes data in
    let ws := set_cell ws row_idx (start_col + 1) (volume_formula vols) in
    let ws := set_cell ws row_idx (start_col + 2) (VInt (Z.of_nat (length vols))) in
    set_cell ws row_idx (start_col + 3) (VStr (price_list_greek (prices data)))
  end.

Definition fill_row (ws : worksheet) (row_idx : positive)
    (header_pos : list (str * (positive * str))) (trades : gmap str group)
    (date_obj : date) : worksheet :=
  fold_left (fill_company row_idx trades date_obj) header_pos ws.

(** [group_trades_for_formulas]: one turn appends the volume and the price
    of a row to the lists of its company. *)
Definition add_trade (out : gmap str group) (row : trade_row) : gmap str group :=
  let comp := norm_name (Company row) in
  let g := default {| volumes := []; prices := [] |} (out !! comp) in
  <[comp := {| volumes := volumes g ++ [Volume row]; prices := prices g ++ [Price row] |}]> out.

Definition group_trades_for_formulas (df : list trade_row) : gmap str group :=
  fold_left add_trade df ∅.

Section Ledger.

(** [pd.to_datetime(val, dayfirst=True).date()] on a cell value; [None]
    when the call raises.  The lenient parser belongs to pandas. *)
Variable to_date : cell_value -> option date.

(** [str(header)] for a header cell that is not a string. *)
Variable str_other : cell_value -> str.

Definition py_str (v : cell_value) : str :=
  match v with
  | VStr s => s
  | _ => str_other v
  end.

(** The loop of [find_or_create_date_row] over [range(3, max_row + 1)]. *)
Fixpoint scan_date_rows (ws : worksheet) (rows : list positive) (target_date : date)
  : worksheet * option positive :=
  match rows with
  | [] => (ws, None)
  | r :: rest =>
    let '(ws, val) := get_cell ws r 1 in
    match val with
    | VNone => scan_date_rows ws rest target_date
    | _ =>
      match to_date val with
      | None => scan_date_rows ws rest target_date
      | Some d =>
        if bool_decide (d = target_date) then (ws, Some r)
        else scan_date_rows ws rest target_date
      end
    end
  end.

(** [range(lo, hi + 1)] over row numbers. *)
Definition row_range (lo hi : positive) : list positive :=
  map Pos.of_nat (seq (Pos.to_nat lo) (Pos.to_nat hi + 1 - Pos.to_nat lo)).

Definition find_or_create_date_row (ws : worksheet) (target_date : date)
  : worksheet * positive :=
  let max_row := max_row ws in
  match scan_date_rows ws (row_range 3 max_row) target_date with
  | (ws, Some r) => (ws, r)
  | (ws, None) =>
    let r := (max_row + 1)%positive in
    (set_cell ws r 1 (midnight target_date), r)
  end.

(** The [while c <= max_col] loop of [read_company_header_positions];
    [fuel] bounds the number of turns. *)
Fixpoint header_loop (fuel : nat) (max_col c : positive) (ws : worksheet)
    (positions : list (str * (positive * str)))
  : worksheet * list (str * (positive * str)) :=
  match fuel with
  | O => (ws, positions)
  | S fuel =>
    if (c <=? max_col)%positive then
      let '(ws, header) := get_cell ws 2 c in
      let txt := Py.strip (py_str header) in
      let positions :=
        if truthy header && negb (str_eqb txt [])
        then dict_set positions (norm_name txt) (c, txt)
        else positions in
      header_loop fuel max_col (c + 4) ws positions
    else (ws, positions)
  end.

Definition read_company_header_positions (ws : worksheet)
  : worksheet * list (str * (positive * str)) :=
  let max_col := max_column ws in
  header_loop (Pos.to_nat max_col) max_col 2 ws [].

(** ** AuditSheetWriter and the driver *)

(** A workbook: its sheets by title, in order. *)
Definition workbook : Type := list (str * worksheet).

Definition audit_labels : list str :=
  map utf8 ["Company"; "Volume"; "Price"; "Value"; "ApprovalTime"; "Note"; "Matched"].

(** [ws.cell(row=r, column=j, value=v)] for [j] from 1. *)
Fixpoint write_cells (ws : worksheet) (r j : positive) (vals : list cell_value)
  : worksheet :=
  match vals with
  | [] => ws
  | v :: rest => write_cells (set_cell ws r j v) r (j + 1) rest
  end.

Definition audit_values (header_pos : list (str * (positive * str)))
    (row : trade_row) : list cell_value :=
  let matched :=
    match dict_get header_pos (norm_name (Company row)) with
    | Some _ => utf8 "Yes"
    | None => utf8 "No"
    end in
  [VStr (Company row); VInt (Volume row); VFloat (Price row); VFloat (Value row);
   VStr (ApprovalTime row); VStr (Note row); VStr matched].

Fixpoint write_audit_rows (ws : worksheet) (r : positive)
    (header_pos : list (str * (positive * str))) (df : list trade_row) : worksheet :=
  match df with
  | [] => ws
  | row :: rest =>
    write_audit_rows (write_cells ws r 1 (audit_values header_pos row))
      (r + 1) header_pos rest
  end.

(** [write_pdf_sheet]; the fill colours and the column widths are left
    out of the model of a sheet. *)
Definition write_pdf_sheet (wb : workbook) (sheet_name : str) (df_pdf : list trade_row)
    (header_pos : list (str * (positive * str))) : workbook :=
  let wb := filter (fun p => fst p ≠ sheet_name) wb in
  let ws := write_cells ∅ 1 1 (map VStr audit_labels) in
  wb ++ [(sheet_name, write_audit_rows ws 2 header_pos df_pdf)].

(** What a run does to the ledger file, in order. *)
Inductive event :=
  | EvLoadWorkbook
  | EvDateRow (r : positive)
  | EvFillRow (r : positive)
  | EvAuditSheet (title : str)
  | EvSave (name : str) (wb : workbook).

Inductive outcome :=
  | Printed (msg : str)
  | Uncaught (e : exn).

(** [report_date.strftime("%d.%m.%Y")], with zero-padded fields. *)
Definition date_label (d : date) : str :=
  pad2 (day d) ++ [ch_dot] ++ pad2 (month d) ++ [ch_dot] ++ pad4 (year d).

Definition master : str := utf8 "Master".

(** [main], after the two file dialogs: [pdf] and [xlsx] are the chosen
    files ([None] when the dialog was cancelled), a PDF being the texts
    of its pages and a ledger file its workbook. *)
Definition main (pdf : option (list str)) (xlsx : option workbook)
  : list event * outcome :=
  match pdf with
  | None => ([], Printed (utf8 "No PDF selected."))
  | Some pages =>
    match xlsx with
    | None => ([], Printed (utf8 "No Excel selected."))
    | Some wb =>
      match extract_block_trades pages with
      | Raise e => ([], Uncaught e)
      | Ok [] => ([], Printed (utf8 "No block trades found in PDF."))
      | Ok (((report_date, _) :: _) as df) =>
        match report_date with
        | None => ([], Uncaught AttributeError)
        | Some report_date =>
          let label := date_label report_date in
          match dict_get wb master with
          | None => ([EvLoadWorkbook], Uncaught ValueError)
          | Some ws =>
            let '(ws, row_idx) := find_or_create_date_row ws report_date in
            let '(ws, headers_map) := read_company_header_positions ws in
            let trades_map := group_trades_for_formulas (map snd df) in
            let ws := fill_row ws row_idx headers_map trades_map report_date in
            let wb := dict_set wb master ws in
            let wb := write_pdf_sheet wb label (map snd df) headers_map in
            let new_name :=
              utf8 "Block Trades_updated as of " ++ label ++ utf8 ".xlsx" in
            ([EvLoadWorkbook; EvDateRow row_idx; EvFillRow row_idx;
              EvAuditSheet label; EvSave new_name wb],
             Printed (utf8 "Saved: " ++ new_name))
          end
        end
      end
    end
  end.

End Ledger.

(** ** Readers of written cells

    The properties of the ledger writer are stated by reading back what it
    writes: plain decimal numerals, and the operands of a sum formula. *)










(** * Notions used to state the properties *)

Definition scenario_line_greek : str :=
  utf8 "ΕΛΛΑΚΤΩΡ ΑΕ 1.000 2,50 2.500,00 12:30:15 1".
Definition scenario_line_grouped : str :=
  utf8 "ΕΛΛΑΚΤΩΡ ΑΕ 1,000 2.50 2,500.00 12:30:15 1".
Definition scenario_header : str :=
  utf8 "Χρεόγραφα Όγκος πακέτου Τιμή πακέτου Αξία πακέτου Ώρα έγκρισης".

Definition scenario_record : trade_row :=
  {| Company := utf8 "ΕΛΛΑΚΤΩΡ ΑΕ"; Volume := 1000; Price := 2.5; Value := 2500;
     ApprovalTime := utf8 "12:30:15"; Note := utf8 "1" |}.

(** The four columns of a company that starts at [a]. *)
Definition in_block (a c : positive) : Prop := (a <= c <= a + 3)%positive.

(** The invariant of a header map: one entry per name, and the anchor
    columns are 2, 6, 10, ... without repetition. *)
Definition ledger_header_map (hp : list (str * (positive * str))) : Prop :=
  NoDup (map fst hp)
  /\ NoDup (map (fun e => fst (snd e)) hp)
  /\ Forall (fun e => (Z.pos (fst (snd e)) mod 4 = 2)%Z) hp.

Definition sample_header_map : list (str * (positive * str)) :=
  [(utf8 "ΑΛΦΑ (KO)", (2%positive, utf8 "Άλφα (ΚΟ)")); (utf8 "ΟΤΕ", (6%positive, utf8 "ΟΤΕ"))].

Definition sample_group : group :=
  {| volumes := [100; 250; 75]%Z; prices := [12.5; 7.03; 7.03]%float |}.

Definition sample_trades : gmap str group :=
  {[ utf8 "ΟΤΕ" := sample_group ]}.

Definition sample_date : date := {| year := 2024; month := 3; day := 5 |}.

(** ** The header row, as the loop reads it *)

(** What column [c] of row 2 contributes to the map, read from [ws]. *)
Definition header_entry (str_other : cell_value -> str) (ws : worksheet) (c : positive)
  : option (str * (positive * str)) :=
  let header := value_at ws 2 c in
  let txt := Py.strip (py_str str_other header) in
  if truthy header && negb (str_eqb txt []) then Some (norm_name txt, (c, txt)) else None.

Definition add_entry (hp : list (str * (positive * str)))
    (o : option (str * (positive * str))) : list (str * (positive * str)) :=
  match o with
  | Some (k, v) => dict_set hp k v
  | None => hp
  end.

(** The columns the loop visits. *)
Fixpoint cols_from (fuel : nat) (max_col c : positive) : list positive :=
  match fuel with
  | O => []
  | S fuel => if (c <=? max_col)%positive then c :: cols_from fuel max_col (c + 4) else []
  end.

(** The invariant of the loop: [hp] after the columns [seen]. *)
Definition header_inv (str_other : cell_value -> str) (ws : worksheet)
    (seen : list positive) (hp : list (str * (positive * str))) : Prop :=
  NoDup (map fst hp)
  /\ (forall k c txt, dict_get hp k = Some (c, txt) ->
        c ∈ seen /\ header_entry str_other ws c = Some (k, (c, txt))
        /\ forall c' e', c' ∈ seen -> header_entry str_other ws c' = Some (k, e') ->
                         (c' <= c)%positive)
  /\ (forall c' k e', c' ∈ seen -> header_entry str_other ws c' = Some (k, e') ->
        is_Some (dict_get hp k)).

(** The stride-4 columns up to the last column of the sheet. *)
Definition stride_column (ws : worksheet) (c : positive) : Prop :=
  (Z.pos c mod 4 = 2)%Z /\ (c <= max_column ws)%positive.

(** ** The scan for the row of a date *)

(** The test of one turn of the scan, on the value of the cell. *)
Definition date_matches (to_date : cell_value -> option date) (v : cell_value)
    (target_date : date) : bool :=
  match v with
  | VNone => false
  | _ =>
    match to_date v with
    | Some d => bool_decide (d = target_date)
    | None => false
    end
  end.

Definition first_match (to_date : cell_value -> option date) (ws : worksheet)
    (rows : list positive) (target_date : date) : option positive :=
  List.find (fun r => date_matches to_date (value_at ws r 1) target_date) rows.

(** The test of a group substitution on a window of four characters. *)
Definition hit (pair : N -> N -> bool) (a b c d : N) : bool :=
  (a =? ch_lparen) && pair b c && (d =? ch_rparen).

Definition undated_page : str := scenario_header ++ [0x0A] ++ scenario_line_grouped.

Definition noise_line : str := utf8 "Σύνολο πακέτων".
Definition notes_line : str := utf8 "Σημειώσεις: 1 - Απλό πακέτο".

Definition page_with_noise : str :=
  scenario_header ++ [0x0A] ++ noise_line ++ [0x0A] ++ scenario_line_grouped
  ++ [0x0A] ++ notes_line ++ [0x0A] ++ scenario_line_grouped.

(** What a converted row owes to the row of text it comes from: the three
    texts are kept, and each number is the reading, by [int] or [float],
    of its token with the commas deleted. *)
Definition converted (raw : raw_row) (row : trade_row) : Prop :=
  Company row = raw_company raw
  /\ ApprovalTime row = raw_time raw
  /\ Note row = raw_note raw
  /\ (z ← Num.int (strip_commas (raw_volume raw)); Num.to_int64 z) = Ok (Volume row)
  /\ Num.float (strip_commas (raw_price raw)) = Ok (Price row)
  /\ Num.float (strip_commas (raw_value raw)) = Ok (Value row).

Definition conversion_fails (raw : raw_row) : Prop :=
  (exists e, (z ← Num.int (strip_commas (raw_volume raw)); Num.to_int64 z) = Raise e)
  \/ (exists e, Num.float (strip_commas (raw_price raw)) = Raise e)
  \/ (exists e, Num.float (strip_commas (raw_value raw)) = Raise e).

(** The reading of a number token in the notation of the scenario of the
    specification: points group the thousands, the comma is the decimal
    mark. *)
Definition scenario_reading (tok : str) : result PrimFloat.float :=
  Num.float (Py.replace_char ch_comma [ch_dot] (Py.replace_char ch_dot [] tok)).

Definition decimal_comma_line : str := utf8 "ΕΛΛΑΚΤΩΡ ΑΕ 1000 2,50 2500 12:30:15 1".

(** The characters [norm_name] tells apart when it puts the spaces. *)
Inductive cclass := Sp | Ws | Lp | Ot.

Definition cls (c : N) : cclass :=
  if c =? ch_space then Sp
  else if Py.isspace c then Ws
  else if c =? ch_lparen then Lp
  else Ot.

Global Instance cclass_eq_dec : EqDecision cclass.
Proof. solve_decision. Defined.

(** The report alphabet: ASCII and the Greek and Coptic block. *)
Definition in_alphabet (c : N) : bool :=
  (c <? 0x80) || ((0x370 <=? c) && (c <=? 0x3FF)).

(** A character of the alphabet that the accent table leaves alone. *)
Definition plain (c : N) : bool :=
  in_alphabet c && (Py.translate_char _DEACCENT_TABLE c =? c).

Definition upper1 (c : N) : N :=
  match Py.upper_char c with
  | u :: _ => u
  | [] => c
  end.

Definition ci_classes : list (N -> bool) :=
  [Re.ci_latin_K; Re.ci_latin_O; Re.ci_latin_A; Re.ci_greek_K; Re.ci_greek_O; Re.ci_greek_A;
   N.eqb ch_rparen].

Definition alphabet : list N :=
  map N.of_nat (seq 0 128) ++ map N.of_nat (seq 0x370 0x90).

Inductive tstate := TStart | TLead | TSpace | TBody.

(** The strings the spacing steps produce: single spaces only, none at
    the end, one before every opening parenthesis, and at the start only
    before a parenthesis. *)
Fixpoint tidy_from (st : tstate) (s : str) : bool :=
  match s with
  | [] => match st with TStart | TBody => true | _ => false end
  | c :: r =>
    match cls c, st with
    | Sp, TStart => tidy_from TLead r
    | Sp, TBody => tidy_from TSpace r
    | Lp, (TLead | TSpace) => tidy_from TBody r
    | Ot, (TStart | TSpace | TBody) => tidy_from TBody r
    | _, _ => false
    end
  end.

(** After [strip] and the collapse of the runs, before the parentheses. *)
Inductive cstate := CStart | CSpace | CBody.

Fixpoint clean_from (st : cstate) (s : str) : bool :=
  match s with
  | [] => match st with CSpace => false | _ => true end
  | c :: r =>
    match cls c, st with
    | Sp, CBody => clean_from CSpace r
    | Sp, _ => false
    | Ws, _ => false
    | _, _ => clean_from CBody r
    end
  end.

Definition ends_plain (s : str) : Prop :=
  match last s with
  | Some c => Py.isspace c = false
  | None => True
  end.

Definition pending_of (st : tstate) : str :=
  match st with
  | TLead | TSpace => [ch_space]
  | _ => []
  end.

(** A window of four characters is literal for a test when, wherever the
    test accepts it, it is the given text. *)
Definition literal (test : N -> N -> N -> N -> bool) (w : str) (s : str) : Prop :=
  forall p a b c d q,
    s = p ++ a :: b :: c :: d :: q -> test a b c d = true -> [a; b; c; d] = w.

Definition test_KO := hit Re.pair_KO.
Definition test_KA := hit Re.pair_KA.

(** What the steps before the case change establish, and what the case
    change keeps: the normal form of a name. *)
Definition normal_name (t : str) : Prop :=
  Forall (fun c => plain c = true) t
  /\ tidy_from TStart t = true
  /\ literal test_KO lit_KO t
  /\ literal test_KA lit_KA t
  /\ map upper1 t = t.

(** * Notions used by the further properties *)

(** ** Cells and blocks *)

(** What a cell holds after [ws.cell(..., value=v)], from what it held:
    [None] creates the cell and stores nothing. *)
Definition stored (v : cell_value) (old : option cell_value) : option cell_value :=
  match v with
  | VNone => Some (default VNone old)
  | _ => Some v
  end.

(** The cell of column [c], in the row of the date, after the turn of
    [fill_row] for the company [comp] anchored at [a]. *)
Definition block_cell (trades : gmap str group) (date_obj : date) (comp : str)
    (a c : positive) (old : option cell_value) : option cell_value :=
  if decide (c = a) then Some (midnight date_obj)
  else match trades !! comp with
       | None => old
       | Some g =>
         if decide (c = (a + 1)%positive) then stored (volume_formula (volumes g)) old
         else if decide (c = (a + 2)%positive)
              then Some (VInt (Z.of_nat (length (volumes g))))
         else if decide (c = (a + 3)%positive)
              then Some (VStr (price_list_greek (prices g)))
         else old
       end.

Global Instance in_block_dec (a c : positive) : Decision (in_block a c).
Proof. unfold in_block. apply _. Defined.

(** The entries of a header map whose block holds the cell [k]. *)
Definition owners (row_idx : positive) (hp : list (str * (positive * str)))
    (k : positive * positive) : list (str * (positive * str)) :=
  filter (fun e => fst k = row_idx /\ in_block (fst (snd e)) (snd k)) hp.

Global Instance stride_column_dec (ws : worksheet) (c : positive) :
  Decision (stride_column ws c).
Proof. unfold stride_column. apply _. Defined.

(** ** Samples *)

(** A reading of cell values that knows the date-times only. *)
Definition read_back (v : cell_value) : option date :=
  match v with
  | VDateTime d _ => Some d
  | _ => None
  end.

(** A ledger sheet with its two header rows and one company. *)
Definition sample_sheet : worksheet :=
  {[ (1%positive, 1%positive) := VStr (utf8 "Block Trades");
     (2%positive, 2%positive) := VStr (utf8 "ΟΤΕ") ]}.

(** ** Rows of text *)

(** A word of [str.split()]: not empty, without white space. *)
Definition token (t : str) : Prop :=
  t <> [] /\ Forall (fun c => Py.isspace c = false) t.

(** The text of a clock: three pairs of digits with colons between. *)
Definition clock_text (t : str) : Prop :=
  exists h1 h2 m1 m2 s1 s2,
    t = [h1; h2; ch_colon; m1; m2; ch_colon; s1; s2]
    /\ Forall (fun c => Py.isdigit c = true) [h1; h2; m1; m2; s1; s2].

(** The 64-bit signed integers. *)
Definition int64 (z : Z) : Prop := (- 2 ^ 63 <= z < 2 ^ 63)%Z.

(** ** Report dates *)

(** The number of a month name: the table of the names first, then the
    table of the names without their accents. *)
Definition month_number (month_name : str) : option Z :=
  match dict_get GREEK_MONTHS month_name with
  | Some m => Some m
  | None => dict_get fallback_months (Py.translate _DEACCENT_TABLE month_name)
  end.

(** A page that gives no report date: the pattern is not in it, or the
    month of its first match is unknown. *)
Definition undated (text : str) : Prop :=
  match DATE_RE.search text with
  | Some (_, month_name, _) => month_number month_name = None
  | None => True
  end.

Definition valid_date (d : date) : Prop :=
  (1 <= year d <= 9999 /\ 1 <= month d <= 12
   /\ 1 <= day d <= days_in_month (year d) (month d))%Z.

Definition dated_line : str := utf8 "Τρίτη, 5 Μαρτίου, 2024".
Definition other_dated_line : str := utf8 "Δευτέρα, 1 Ιανουαρίου, 2024".
Definition dated_page : str := dated_line ++ [0x0A] ++ undated_page.
Definition page_greek_numbers : str := scenario_header ++ [0x0A] ++ scenario_line_greek.

(** ** The audit sheet *)


(** A ledger file with the sample sheet as its only sheet. *)
Definition sample_workbook : workbook := [(master, sample_sheet)].

Definition impossible_date_line : str := utf8 "Παρασκευή, 31 Φεβρουαρίου, 2024".

(** ** Letters that differ in case only *)

(** Two characters that [norm_name] cannot tell apart once the accents
    are gone: the same upper-case form, the same standing for the spacing
    steps and for the letters of the two suffixes. *)
Definition same_letter (x y : N) : bool :=
  plain x && plain y && (upper1 x =? upper1 y) && bool_decide (cls x = cls y)
  && forallb (fun p : N -> bool => Bool.eqb (p x) (p y)) ci_classes.

(** The characters of the report alphabet whose upper-case form is one
    character: all but the two small letters with dialytika and tonos. *)
Definition one_upper (c : N) : bool :=
  in_alphabet c && negb (c =? 0x390) && negb (c =? 0x3B0).

(** * Properties *)

(** ** Lines of a page *)

Section Splitlines.

Lemma splitlines_acc_plain (h cur rest : str) :
  Forall (fun c => Py.islinebreak c = false) h ->
  Py.splitlines_acc cur (h ++ rest) = Py.splitlines_acc (cur ++ h) rest.
Proof.
  intros Hh. revert cur.
  induction Hh as [|c h Hc _ IH]; intros cur; simpl.
  - by rewrite app_nil_r.
  - rewrite Hc, IH. by rewrite <- app_assoc.
Qed.

Lemma no_linebreak_check (l : str) :
  forallb (fun c => negb (Py.islinebreak c)) l = true ->
  Forall (fun c => Py.islinebreak c = false) l.
Proof.
  induction l as [|c l IH]; simpl; [constructor|].
  intros [Hc Hl]%andb_prop. constructor; [by apply negb_true_iff | auto].
Qed.

Lemma splitlines_acc_single (l : str) :
  Forall (fun c => Py.islinebreak c = false) l -> l <> [] ->
  Py.splitlines_acc [] l = [l].
Proof.
  intros Hl Hne.
  pose proof (splitlines_acc_plain l [] [] Hl) as E.
  rewrite app_nil_r in E. rewrite E. simpl. by destruct l.
Qed.

(** A text made of two lines separated by a line feed. *)
Lemma splitlines_two (h l : str) :
  Forall (fun c => Py.islinebreak c = false) h ->
  Forall (fun c => Py.islinebreak c = false) l ->
  l <> [] ->
  Py.splitlines (h ++ [0x0A] ++ l) = [h; l].
Proof.
  intros Hh Hl Hne. unfold Py.splitlines.
  rewrite splitlines_acc_plain by done.
  destruct l as [|c l]; [done|].
  change (Py.splitlines_acc ([] ++ h) ([0x0A] ++ c :: l))
    with (h :: Py.splitlines_acc [] (c :: l)).
  by rewrite splitlines_acc_single.
Qed.

End Splitlines.

(** ** The scenario row of the table parser *)

Lemma parse_two_lines (h l : str) :
  is_header_line h = true ->
  Forall (fun c => Py.islinebreak c = false) h ->
  Forall (fun c => Py.islinebreak c = false) l ->
  l <> [] ->
  parse_block_table_from_page (h ++ [0x0A] ++ l) =
  match scan_rows [l] with
  | [] => Ok []
  | rows => convert_columns rows
  end.
Proof.
  intros Hh Hbh Hbl Hne.
  unfold parse_block_table_from_page, table_rows.
  rewrite splitlines_two by done.
  simpl find_start. rewrite Hh. reflexivity.
Qed.

(** C1, as the code has it: after a header line, the scenario row written
    with commas between the groups of thousands and a point before the
    decimals parses to exactly one record: company "ΕΛΛΑΚΤΩΡ ΑΕ", volume
    1000, price 2.5, value 2500.0, approval time "12:30:15"; the note is
    kept as the text "1". *)
Theorem parse_scenario_row_grouped (h : str) :
  is_header_line h = true ->
  Forall (fun c => Py.islinebreak c = false) h ->
  parse_block_table_from_page (h ++ [0x0A] ++ scenario_line_grouped) = Ok [scenario_record].
Proof.
  intros Hh Hb.
  rewrite parse_two_lines; [| done | done | | done].
  - vm_compute. reflexivity.
  - apply no_linebreak_check. vm_compute. reflexivity.
Qed.

Lemma parse_scenario_row_grouped_witness :
  parse_block_table_from_page (scenario_header ++ [0x0A] ++ scenario_line_grouped)
  = Ok [scenario_record].
Proof.
  apply parse_scenario_row_grouped.
  - vm_compute. reflexivity.
  - apply no_linebreak_check. vm_compute. reflexivity.
Defined.

(** C1, as the claim words it: on the row written with points between the
    thousands and a decimal comma, the conversion of the volume "1.000"
    raises, so the page yields no record at all. *)
Lemma parse_scenario_row_greek_raises :
  parse_block_table_from_page (scenario_header ++ [0x0A] ++ scenario_line_greek)
  = Raise ValueError
  /\ parse_block_table_from_page (scenario_header ++ [0x0A] ++ scenario_line_greek)
     <> Ok [scenario_record].
Proof.
  assert (H : parse_block_table_from_page
                (scenario_header ++ [0x0A] ++ scenario_line_greek) = Raise ValueError)
    by (vm_compute; reflexivity).
  split; [exact H | rewrite H; discriminate].
Qed.

(** ** Decimal numerals *)

Section Numerals.







End Numerals.

(** ** The price list *)

Section PriceList.







End PriceList.


(** ** Cells of a worksheet *)

Section Cells.

Implicit Types (ws : worksheet) (r c : positive) (v : cell_value).

Lemma get_cell_lookup_ne ws r c k :
  k <> (r, c) -> fst (get_cell ws r c) !! k = ws !! k.
Proof.
  intros Hk. unfold get_cell. destruct (ws !! (r, c)); simpl; [done|].
  by rewrite lookup_insert_ne.
Qed.

Lemma get_cell_value ws r c : snd (get_cell ws r c) = value_at ws r c.
Proof. unfold get_cell, value_at. by destruct (ws !! (r, c)). Qed.

Lemma value_at_get_cell ws r c r' c' :
  value_at (fst (get_cell ws r c)) r' c' = value_at ws r' c'.
Proof.
  unfold value_at. destruct (decide ((r', c') = (r, c))) as [->|Hne].
  - unfold get_cell. destruct (ws !! (r, c)) eqn:E; simpl; [by rewrite E|].
    by rewrite lookup_insert_eq.
  - by rewrite get_cell_lookup_ne.
Qed.

Lemma set_cell_lookup_ne ws r c v k :
  k <> (r, c) -> set_cell ws r c v !! k = ws !! k.
Proof.
  intros Hk. destruct v; simpl;
    [by apply get_cell_lookup_ne | by rewrite lookup_insert_ne ..].
Qed.



End Cells.

(** ** The row of a date: what [fill_row] writes and what it leaves *)

Section FillRow.

Variables (row_idx : positive) (trades : gmap str group) (date_obj : date).

Implicit Types (ws : worksheet) (hp : list (str * (positive * str))).

Local Abbreviation step := (fill_company row_idx trades date_obj).

(** A turn of the loop touches only the block of its company, in the row
    of the date. *)
Lemma fill_company_frame ws comp a hdr k :
  (fst k = row_idx -> ~ in_block a (snd k)) ->
  step ws (comp, (a, hdr)) !! k = ws !! k.
Proof.
  intros Hk. unfold fill_company, in_block in *.
  assert (H0 : k <> (row_idx, a)) by (intros ->; apply Hk; simpl; [done | lia]).
  assert (H1 : k <> (row_idx, (a + 1)%positive)) by (intros ->; apply Hk; simpl; [done | lia]).
  assert (H2 : k <> (row_idx, (a + 2)%positive)) by (intros ->; apply Hk; simpl; [done | lia]).
  assert (H3 : k <> (row_idx, (a + 3)%positive)) by (intros ->; apply Hk; simpl; [done | lia]).
  destruct (trades !! comp).
  - by rewrite !set_cell_lookup_ne.
  - by rewrite set_cell_lookup_ne.
Qed.

Lemma fill_row_frame_cell hp ws k :
  (forall e, e ∈ hp -> fst k = row_idx -> ~ in_block (fst (snd e)) (snd k)) ->
  fill_row ws row_idx hp trades date_obj !! k = ws !! k.
Proof.
  unfold fill_row. revert ws.
  induction hp as [|[comp [a hdr]] hp IH]; intros ws Hk; cbn [fold_left]; [done|].
  rewrite IH.
  - apply fill_company_frame. intros Hr. apply (Hk (comp, (a, hdr))); [left | done].
  - intros e He. apply Hk. by right.
Qed.




(** Two anchors of a header map are at least four columns apart. *)
Lemma anchors_apart (a b : positive) :
  (Z.pos a mod 4 = 2)%Z -> (Z.pos b mod 4 = 2)%Z -> a <> b ->
  forall c, in_block a c -> ~ in_block b c.
Proof.
  unfold in_block. intros Ha Hb Hab c Hc Hc'.
  assert (Z.pos a <> Z.pos b) by congruence.
  Z.div_mod_to_equations. lia.
Qed.

(** The loop seen from one entry of a header map: the cells of its block
    are those its own turn leaves, computed from the sheet at the start. *)
Lemma fill_row_entry hp ws comp a hdr c :
  ledger_header_map hp -> (comp, (a, hdr)) ∈ hp -> in_block a c ->
  exists ws1,
    (forall c', in_block a c' -> ws1 !! (row_idx, c') = ws !! (row_idx, c'))
    /\ fill_row ws row_idx hp trades date_obj !! (row_idx, c)
       = step ws1 (comp, (a, hdr)) !! (row_idx, c).
Proof.
  intros (Hkeys & Hanch & Hmod) Hin Hc.
  apply list_elem_of_split in Hin as (pre & post & ->).
  rewrite fmap_app in Hanch. simpl in Hanch.
  apply NoDup_app in Hanch as (_ & Hpre & Hpost).
  apply NoDup_cons in Hpost as (Hpost & _).
  apply Forall_app in Hmod as (Mpre & Mpost).
  apply Forall_cons in Mpost as (Ma & Mpost). simpl in Ma.
  exists (fill_row ws row_idx pre trades date_obj). split.
  - intros c' Hc'. apply fill_row_frame_cell. intros e He _. simpl.
    apply (anchors_apart a); [done | | | done].
    + by apply (proj1 (Forall_forall _ _) Mpre).
    + intros Heq. apply (Hpre a); [|left].
      rewrite Heq. by apply (list_elem_of_fmap_2 (fun e => fst (snd e))).
  - unfold fill_row. rewrite fold_left_app. cbn [fold_left].
    apply (fill_row_frame_cell post). intros e He _. simpl.
    apply (anchors_apart a); [done | | | done].
    + by apply (proj1 (Forall_forall _ _) Mpost).
    + intros Heq. apply Hpost.
      rewrite Heq. by apply (list_elem_of_fmap_2 (fun e => fst (snd e))).
Qed.

End FillRow.

(** ** Sum formulas *)

Section SumFormula.






End SumFormula.

(** ** The claims about [fill_row] *)

Lemma sample_header_map_ok : ledger_header_map sample_header_map.
Proof.
  unfold ledger_header_map. apply (bool_decide_unpack _). vm_compute. exact I.
Qed.

(** The groups keep the order of the rows: the group of a name holds the
    volumes and the prices of the rows of that name, as they come. *)
Lemma group_trades_lookup (df : list trade_row) (k : str) :
  group_trades_for_formulas df !! k =
  match filter (fun r => norm_name (Company r) = k) df with
  | [] => None
  | rs => Some {| volumes := map Volume rs; prices := map Price rs |}
  end.
Proof.
  unfold group_trades_for_formulas.
  induction df as [|r df IH] using rev_ind; [done|].
  rewrite fold_left_app, filter_app. cbn [fold_left]. unfold add_trade at 1.
  destruct (decide (norm_name (Company r) = k)) as [E|E].
  - rewrite E, lookup_insert_eq, IH.
    rewrite (filter_cons_True _ r []) by done. rewrite filter_nil.
    destruct (filter _ df) as [|r0 rs]; simpl; [done|].
    by rewrite !map_app.
  - rewrite lookup_insert_ne, IH by done.
    rewrite (filter_cons_False _ r []) by done. rewrite filter_nil.
    by rewrite app_nil_r.
Qed.






(** ** Dictionaries *)

Section DictFacts.

Context {V : Type}.
Implicit Types (d : list (str * V)) (k : str) (v : V).

Lemma dict_get_set d k v k' :
  dict_get (dict_set d k v) k' = if decide (k = k') then Some v else dict_get d k'.
Proof.
  induction d as [|[k0 v0] d IH]; simpl; unfold str_eqb.
  - case_bool_decide; case_decide; congruence.
  - case_bool_decide as E0; simpl; unfold str_eqb.
    + subst k0. case_bool_decide; case_decide; congruence.
    + rewrite IH. case_bool_decide; case_decide; congruence.
Qed.

Lemma dict_set_keys d k v :
  map fst (dict_set d k v) = if decide (k ∈ map fst d) then map fst d else map fst d ++ [k].
Proof.
  induction d as [|[k0 v0] d IH].
  - rewrite decide_False; [done | apply not_elem_of_nil].
  - cbn [dict_set]. unfold str_eqb. case_bool_decide as E0.
    + subst k0. rewrite decide_True; [done | left].
    + cbn [map fst]. rewrite IH. destruct (decide (k ∈ map fst d)) as [Hin|Hin].
      * rewrite decide_True; [done | by right].
      * rewrite decide_False; [done|].
        intros [?|?]%elem_of_cons; congruence.
Qed.

Lemma dict_set_NoDup d k v : NoDup (map fst d) -> NoDup (map fst (dict_set d k v)).
Proof.
  intros Hd. rewrite dict_set_keys. case_decide as E; [done|].
  apply NoDup_app. split; [done|]. split; [|apply NoDup_singleton].
  intros x Hx ->%list_elem_of_singleton. done.
Qed.

Lemma dict_get_elem d k v :
  NoDup (map fst d) -> (k, v) ∈ d -> dict_get d k = Some v.
Proof.
  induction d as [|[k0 v0] d IH]; simpl; intros Hd Hin; [by apply elem_of_nil in Hin|].
  apply NoDup_cons in Hd as [Hk0 Hd]. unfold str_eqb.
  apply elem_of_cons in Hin as [[= -> ->]|Hin].
  - by rewrite bool_decide_eq_true_2.
  - case_bool_decide as E; [|by apply IH].
    subst k0. exfalso. apply Hk0. by apply (list_elem_of_fmap_2 fst) in Hin.
Qed.

Lemma dict_get_Some_elem d k v : dict_get d k = Some v -> (k, v) ∈ d.
Proof.
  induction d as [|[k0 v0] d IH]; simpl; [done|]. unfold str_eqb.
  case_bool_decide as E.
  - intros [= ->]. subst. left.
  - intros H. right. by apply IH.
Qed.

End DictFacts.

(** ** The header row *)

Section HeaderMap.

Variable str_other : cell_value -> str.

Implicit Types (ws : worksheet) (c : positive) (hp : list (str * (positive * str))).

Local Abbreviation header_entry := (header_entry str_other).
Local Abbreviation header_inv := (header_inv str_other).

Lemma header_loop_fold (ws0 : worksheet) fuel max_col c ws hp :
  (forall c', value_at ws 2 c' = value_at ws0 2 c') ->
  snd (header_loop str_other fuel max_col c ws hp)
  = fold_left (fun acc c => add_entry acc (header_entry ws0 c)) (cols_from fuel max_col c) hp.
Proof.
  revert c ws hp. induction fuel as [|fuel IH]; intros c ws hp Hws; simpl; [done|].
  destruct (c <=? max_col)%positive; [|done].
  destruct (get_cell ws 2 c) as [ws1 header] eqn:G.
  assert (Hh : header = value_at ws0 2 c).
  { rewrite <- Hws, <- get_cell_value. by rewrite G. }
  assert (Hws1 : forall c', value_at ws1 2 c' = value_at ws0 2 c').
  { intros c'. rewrite <- Hws. replace ws1 with (fst (get_cell ws 2 c)) by (by rewrite G).
    apply value_at_get_cell. }
  rewrite IH by done. cbn [fold_left]. f_equal.
  unfold add_entry, header_entry. rewrite <- Hh.
  by destruct (truthy header && negb (str_eqb (Py.strip (py_str str_other header)) [])).
Qed.

(** The reads of the loop create cells but change no value, and touch row
    2 only. *)
Lemma header_loop_sheet fuel max_col c ws hp r' c' :
  value_at (fst (header_loop str_other fuel max_col c ws hp)) r' c' = value_at ws r' c'
  /\ (r' <> 2%positive ->
      fst (header_loop str_other fuel max_col c ws hp) !! (r', c') = ws !! (r', c')).
Proof.
  revert c ws hp. induction fuel as [|fuel IH]; intros c ws hp; simpl; [done|].
  destruct (c <=? max_col)%positive; [|done].
  destruct (get_cell ws 2 c) as [ws1 header] eqn:G.
  replace ws1 with (fst (get_cell ws 2 c)) by (by rewrite G).
  destruct (IH (c + 4)%positive (fst (get_cell ws 2 c))
    (if truthy header && negb (str_eqb (Py.strip (py_str str_other header)) [])
     then dict_set hp (norm_name (Py.strip (py_str str_other header)))
            (c, Py.strip (py_str str_other header))
     else hp)) as [E1 E2].
  split.
  - rewrite E1. apply value_at_get_cell.
  - intros Hr. rewrite E2 by done. apply get_cell_lookup_ne. congruence.
Qed.

(** The loop stops by its own test: more fuel changes nothing. *)
Lemma header_loop_fuel fuel max_col c ws hp :
  (Pos.to_nat max_col < Pos.to_nat c + 4 * fuel)%nat ->
  header_loop str_other (S fuel) max_col c ws hp
  = header_loop str_other fuel max_col c ws hp.
Proof.
  revert c ws hp. induction fuel as [|fuel IH]; intros c ws hp Hlt.
  - simpl. destruct (Pos.leb_spec c max_col); [lia | done].
  - cbn [header_loop]. destruct (c <=? max_col)%positive; [|done].
    destruct (get_cell ws 2 c) as [ws1 header].
    apply IH. lia.
Qed.

Lemma cols_from_spec fuel max_col c c0 :
  c0 ∈ cols_from fuel max_col c <->
  exists j : nat, (j < fuel)%nat /\ Pos.to_nat c0 = (Pos.to_nat c + 4 * j)%nat
                  /\ (c0 <= max_col)%positive.
Proof.
  revert c. induction fuel as [|fuel IH]; intros c; simpl.
  - split; [by intros ?%elem_of_nil | intros (j & ? & _); lia].
  - destruct (Pos.leb_spec c max_col) as [Hle|Hgt].
    + rewrite elem_of_cons, IH. split.
      * intros [->|(j & Hj & E & Hc0)]; [exists 0%nat; lia | exists (S j); lia].
      * intros (j & Hj & E & Hc0). destruct j as [|j]; [left; lia|].
        right. exists j. lia.
    + split; [by intros ?%elem_of_nil|]. intros (j & _ & E & Hc0). lia.
Qed.

Lemma stride_column_visited ws c :
  stride_column ws c <->
  c ∈ cols_from (Pos.to_nat (max_column ws)) (max_column ws) 2.
Proof.
  rewrite cols_from_spec. unfold stride_column. split.
  - intros [Hm Hle]. exists (Z.to_nat ((Z.pos c - 2) / 4)).
    Z.div_mod_to_equations. lia.
  - intros (j & Hj & E & Hle). split; [|done].
    replace (Z.pos c) with (2 + Z.of_nat j * 4)%Z by lia.
    by rewrite Z_mod_plus_full.
Qed.

Lemma header_entry_column ws c k c1 txt :
  header_entry ws c = Some (k, (c1, txt)) -> c1 = c /\ k = norm_name txt.
Proof.
  unfold header_entry.
  destruct (truthy _ && negb _); [|done]. by intros [= <- <- <-].
Qed.

Lemma header_inv_step ws seen hp c :
  header_inv ws seen hp -> (forall c', c' ∈ seen -> (c' < c)%positive) ->
  header_inv ws (seen ++ [c]) (add_entry hp (header_entry ws c)).
Proof.
  intros (Hnd & Hget & Hall) Hnew.
  destruct (header_entry ws c) as [[k [c1 txt]]|] eqn:E; simpl.
  - destruct (header_entry_column _ _ _ _ _ E) as [-> _].
    split; [by apply dict_set_NoDup|]. split.
    + intros k' c' txt'. rewrite dict_get_set. case_decide as Ek.
      * intros [= <- <-]. subst k'. split; [apply elem_of_app; right; left|].
        split; [done|]. intros c' e' [Hc'| ->%list_elem_of_singleton]%elem_of_app _; [|lia].
        apply Hnew in Hc'. lia.
      * intros Hk'. destruct (Hget _ _ _ Hk') as (Hs & He & Hmax).
        split; [apply elem_of_app; by left|]. split; [done|].
        intros c'' e'' [Hc''| ->%list_elem_of_singleton]%elem_of_app He''.
        -- by eapply Hmax.
        -- congruence.
    + intros c' k' e' [Hc'| ->%list_elem_of_singleton]%elem_of_app He'.
      * rewrite dict_get_set. case_decide; [done|]. by eapply Hall.
      * rewrite dict_get_set. rewrite E in He'. injection He' as <- <-.
        by rewrite decide_True.
  - split; [done|]. split.
    + intros k c' txt Hk. destruct (Hget _ _ _ Hk) as (Hs & He & Hmax).
      split; [apply elem_of_app; by left|]. split; [done|].
      intros c'' e'' [Hc''| ->%list_elem_of_singleton]%elem_of_app He''.
      * by eapply Hmax.
      * congruence.
    + intros c' k e' [Hc'| ->%list_elem_of_singleton]%elem_of_app He'.
      * by eapply Hall.
      * congruence.
Qed.

Lemma header_inv_fold ws cols : forall seen hp,
  header_inv ws seen hp ->
  (forall c c', c ∈ cols -> c' ∈ seen -> (c' < c)%positive) ->
  StronglySorted Pos.lt cols ->
  header_inv ws (seen ++ cols)
    (fold_left (fun acc c => add_entry acc (header_entry ws c)) cols hp).
Proof.
  induction cols as [|c cols IH]; intros seen hp Hinv Hlt Hs; cbn [fold_left].
  - by rewrite app_nil_r.
  - apply StronglySorted_inv in Hs as [Hs Hc].
    replace (seen ++ c :: cols) with ((seen ++ [c]) ++ cols) by (by rewrite <- app_assoc).
    apply IH; [| |done].
    + apply header_inv_step; [done|]. intros c' Hc'. apply Hlt; [left | done].
    + intros c1 c' Hc1 [Hc'| ->%list_elem_of_singleton]%elem_of_app.
      * apply Hlt; [by right | done].
      * by apply (proj1 (Forall_forall _ _) Hc).
Qed.

Lemma cols_from_sorted fuel max_col c : StronglySorted Pos.lt (cols_from fuel max_col c).
Proof.
  revert c. induction fuel as [|fuel IH]; intros c; simpl; [constructor|].
  destruct (c <=? max_col)%positive; [|constructor].
  constructor; [apply IH|]. apply Forall_forall. intros c0 (j & _ & E & _)%cols_from_spec.
  lia.
Qed.

(** The map the function returns, characterised from the sheet it read. *)
Lemma header_positions_inv ws :
  header_inv ws (cols_from (Pos.to_nat (max_column ws)) (max_column ws) 2)
    (snd (read_company_header_positions str_other ws)).
Proof.
  unfold read_company_header_positions.
  rewrite (header_loop_fold ws) by done.
  apply (header_inv_fold ws _ [] []).
  - split; [constructor|]. split; [done|]. by intros c' k e' ?%elem_of_nil.
  - by intros c c' _ ?%elem_of_nil.
  - apply cols_from_sorted.
Qed.

Lemma header_positions_wf ws :
  ledger_header_map (snd (read_company_header_positions str_other ws)).
Proof.
  destruct (header_positions_inv ws) as (Hnd & Hget & _).
  set (hp := snd (read_company_header_positions str_other ws)) in *.
  split; [done|]. split.
  - apply NoDup_fmap_2_strong; [|by apply NoDup_fmap_1 in Hnd].
    intros [k1 [c1 t1]] [k2 [c2 t2]] H1 H2. simpl. intros <-.
    apply dict_get_elem in H1, H2; try done.
    destruct (Hget _ _ _ H1) as (_ & E1 & _). destruct (Hget _ _ _ H2) as (_ & E2 & _).
    congruence.
  - apply Forall_forall. intros [k [c t]] Hin. simpl.
    apply dict_get_elem in Hin; [|done].
    destruct (Hget _ _ _ Hin) as (Hc & _). by apply stride_column_visited in Hc as [? _].
Qed.

End HeaderMap.


(** ** The driver without a report date *)

Section Driver.

Variables (to_date : cell_value -> option date) (str_other : cell_value -> str).

Lemma parse_pages_dates (rd : option date) (pages : list str) (rows : list dated_row) :
  parse_pages rd pages = Ok rows -> Forall (fun x => fst x = rd) rows.
Proof.
  revert rows. induction pages as [|text pages IH]; intros rows; simpl.
  - intros [= <-]. constructor.
  - destruct (parse_block_table_from_page text) as [df|e]; simpl; [|done].
    destruct (parse_pages rd pages) as [more|e]; simpl; [|done].
    intros [= <-]. apply Forall_app. split; [|by apply IH].
    apply Forall_forall. by intros x (r & -> & _)%list_elem_of_fmap.
Qed.

(** C9: when no page gives a report date and the pages give rows, the run
    ends with an exception ([strftime] on the absent date) before the
    ledger file is opened: no row is located or created, no cell written,
    nothing saved. *)
Theorem main_without_report_date (pages : list str) (wb : list (str * worksheet))
    (rows : list dated_row) :
  extract_report_date pages = Ok None ->
  extract_block_trades pages = Ok rows ->
  rows <> [] ->
  main to_date str_other (Some pages) (Some wb) = ([], Uncaught AttributeError).
Proof.
  intros Hd Hrows Hne. unfold main. rewrite Hrows.
  destruct rows as [|[rd r] rows]; [done|].
  unfold extract_block_trades in Hrows. rewrite Hd in Hrows. simpl in Hrows.
  apply parse_pages_dates in Hrows. apply Forall_cons in Hrows as [Hrd _].
  simpl in Hrd. by subst rd.
Qed.

(** A report date that cannot be built (the 31st of a short month, the
    year 0) raises as well, before anything is read from the ledger. *)
Lemma main_report_date_raises (pages : list str) (wb : list (str * worksheet)) (e : exn) :
  extract_report_date pages = Raise e ->
  main to_date str_other (Some pages) (Some wb) = ([], Uncaught e).
Proof.
  intros Hd. unfold main, extract_block_trades. by rewrite Hd.
Qed.

End Driver.

Lemma main_without_report_date_witness :
  main (fun _ => None) (fun _ => []) (Some [undated_page]) (Some [])
  = ([], Uncaught AttributeError).
Proof.
  apply (main_without_report_date (fun _ => None) (fun _ => []) [undated_page] []
           [(None, scenario_record)]).
  - vm_compute. reflexivity.
  - vm_compute. reflexivity.
  - discriminate.
Defined.

(** ** The scan of the table body *)

Section Scan.

Lemma find_start_first (pre : list str) (h : str) (body : list str) (i : nat) :
  Forall (fun ln => is_header_line ln = false) pre ->
  is_header_line h = true ->
  find_start i (pre ++ h :: body) = Some (S (i + length pre)).
Proof.
  intros Hpre Hh. revert i.
  induction Hpre as [|ln pre Hln _ IH]; intros i; simpl.
  - rewrite Hh. f_equal. lia.
  - rewrite Hln, IH. f_equal. lia.
Qed.

Lemma scan_rows_span (span rest : list str) :
  Forall (fun ln => ends_table (Py.strip ln) = false) span ->
  match rest with
  | [] => True
  | stop :: _ => ends_table (Py.strip stop) = true
  end ->
  scan_rows (span ++ rest) = omap (fun ln => row_of_line (Py.strip ln)) span.
Proof.
  intros Hspan Hrest. induction Hspan as [|ln span Hln _ IH]; simpl.
  - destruct rest as [|stop rest]; simpl; [done | by rewrite Hrest].
  - rewrite Hln, IH. by destruct (row_of_line (Py.strip ln)).
Qed.

End Scan.

(** C3, as the code has it: after the first header line the scan runs to
    the first line that is blank once stripped, or that contains the
    marker, or to the end of the text.  In that span each line gives the
    row [row_of_line] finds in it; a line without the trailing
    clock-and-count pattern gives none and does not stop the scan, so the
    rows of the lines after it are still there. *)
Theorem table_rows_span (text : str) (pre : list str) (h : str) (span rest : list str) :
  Py.splitlines text = pre ++ h :: span ++ rest ->
  Forall (fun ln => is_header_line ln = false) pre ->
  is_header_line h = true ->
  Forall (fun ln => ends_table (Py.strip ln) = false) span ->
  match rest with
  | [] => True
  | stop :: _ => ends_table (Py.strip stop) = true
  end ->
  table_rows text = omap (fun ln => row_of_line (Py.strip ln)) span
  /\ (forall ln, TIME_RE.search (Py.strip ln) = None -> row_of_line (Py.strip ln) = None)
  /\ (forall before ln after,
        span = before ++ ln :: after -> TIME_RE.search (Py.strip ln) = None ->
        table_rows text = omap (fun ln => row_of_line (Py.strip ln)) before
                          ++ omap (fun ln => row_of_line (Py.strip ln)) after)
  /\ parse_block_table_from_page text =
     match omap (fun ln => row_of_line (Py.strip ln)) span with
     | [] => Ok []
     | rows => convert_columns rows
     end.
Proof.
  intros Hlines Hpre Hh Hspan Hrest.
  assert (Hrows : table_rows text = omap (fun ln => row_of_line (Py.strip ln)) span).
  { unfold table_rows. rewrite Hlines, find_start_first by done.
    replace (drop (S (0 + length pre)) (pre ++ h :: span ++ rest)) with (span ++ rest).
    - by apply scan_rows_span.
    - rewrite drop_app_ge by lia.
      by replace (S (0 + length pre) - length pre)%nat with 1%nat by lia. }
  assert (Hnone : forall ln, TIME_RE.search (Py.strip ln) = None ->
                             row_of_line (Py.strip ln) = None).
  { intros ln Hs. unfold row_of_line. by rewrite Hs. }
  split; [done|]. split; [done|]. split.
  - intros before ln after -> Hs. rewrite Hrows, omap_app. simpl.
    by rewrite (Hnone ln Hs).
  - unfold parse_block_table_from_page. by rewrite Hrows.
Qed.

Lemma table_rows_span_witness :
  table_rows page_with_noise
    = omap (fun ln => row_of_line (Py.strip ln)) [noise_line; scenario_line_grouped]
  /\ (forall ln, TIME_RE.search (Py.strip ln) = None -> row_of_line (Py.strip ln) = None)
  /\ (forall before ln after,
        [noise_line; scenario_line_grouped] = before ++ ln :: after ->
        TIME_RE.search (Py.strip ln) = None ->
        table_rows page_with_noise
          = omap (fun ln => row_of_line (Py.strip ln)) before
            ++ omap (fun ln => row_of_line (Py.strip ln)) after)
  /\ parse_block_table_from_page page_with_noise =
     match omap (fun ln => row_of_line (Py.strip ln)) [noise_line; scenario_line_grouped] with
     | [] => Ok []
     | rows => convert_columns rows
     end.
Proof.
  apply (table_rows_span page_with_noise [] scenario_header
           [noise_line; scenario_line_grouped] [notes_line; scenario_line_grouped]).
  - vm_compute. reflexivity.
  - constructor.
  - vm_compute. reflexivity.
  - repeat constructor.
  - vm_compute. reflexivity.
Defined.

(** C3, as the claim words it: a blank line lacks the trailing pattern,
    yet it ends the scan, and the row of the line after it is not in the
    output (without the blank line it is). *)
Lemma blank_line_ends_scan :
  TIME_RE.search (Py.strip []) = None
  /\ parse_block_table_from_page
       (scenario_header ++ [0x0A] ++ [0x0A] ++ scenario_line_grouped) = Ok []
  /\ parse_block_table_from_page
       (scenario_header ++ [0x0A] ++ scenario_line_grouped) = Ok [scenario_record].
Proof. repeat split; vm_compute; reflexivity. Qed.

(** ** The conversion of the columns *)

Section Convert.

Lemma map_result_Ok {A B : Type} (f : A -> result B) (l : list A) (bs : list B) :
  map_result f l = Ok bs -> Forall2 (fun a b => f a = Ok b) l bs.
Proof.
  revert bs. induction l as [|a l IH]; intros bs; simpl.
  - intros [= <-]. constructor.
  - unfold mbind, result_bind, mret, result_ret.
    destruct (f a) as [b|e] eqn:E; [|done].
    destruct (map_result f l) as [bs'|e]; [|done].
    intros [= <-]. constructor; [done | by apply IH].
Qed.

Lemma convert_columns_Ok (rows : list raw_row) (out : list trade_row) :
  convert_columns rows = Ok out -> Forall2 converted rows out.
Proof.
  unfold convert_columns. unfold mbind at 1 3 4. unfold result_bind at 1 3 4.
  destruct (map_result _ rows) as [vols|e] eqn:Ev; [|done].
  destruct (map_result (fun r => Num.float (strip_commas (raw_price r))) rows)
    as [prs|e] eqn:Ep; [|done].
  destruct (map_result (fun r => Num.float (strip_commas (raw_value r))) rows)
    as [vals|e] eqn:Ex; [|done].
  intros [= <-].
  apply map_result_Ok in Ev, Ep, Ex.
  revert prs vals Ep Ex. induction Ev as [|r v rows vols Hv _ IH]; intros prs vals Ep Ex.
  - constructor.
  - inversion Ep as [|? p ? prs' Hp Ep']; subst.
    inversion Ex as [|? x ? vals' Hx Ex']; subst.
    simpl. constructor; [|by apply IH].
    unfold converted. simpl. done.
Qed.

End Convert.

(** C2, as the code has it: a conversion that fails on a token of a row
    makes the whole page raise; and when the page returns a table, every
    row of text has its row in it, in order, with the numbers [int] and
    [float] read from the tokens once their commas are deleted (never a
    default value, never a dropped row). *)
Theorem parse_conversions_strict (text : str) :
  (forall raw, raw ∈ table_rows text -> conversion_fails raw ->
     exists e, parse_block_table_from_page text = Raise e)
  /\ (forall out, parse_block_table_from_page text = Ok out ->
        Forall2 converted (table_rows text) out).
Proof.
  assert (H2 : forall out, parse_block_table_from_page text = Ok out ->
                           Forall2 converted (table_rows text) out).
  { intros out. unfold parse_block_table_from_page.
    destruct (table_rows text) as [|r rows] eqn:E.
    - intros [= <-]. constructor.
    - apply convert_columns_Ok. }
  split; [|done].
  intros raw Hin Hfail.
  destruct (parse_block_table_from_page text) as [out|e] eqn:E; [|by exists e].
  exfalso. specialize (H2 out eq_refl).
  apply list_elem_of_lookup in Hin as [i Hi].
  destruct (Forall2_lookup_l _ _ _ i raw H2 Hi) as (row & _ & Hc).
  destruct Hc as (_ & _ & _ & Hv & Hp & Hx).
  destruct Hfail as [[e He]|[[e He]|[e He]]]; congruence.
Qed.

(** C2, as the claim words it: the price token "2,50", which the scenario
    reads as 2.50, is emitted as 250.0, a hundred times as much, without
    any failure. *)
Lemma decimal_comma_coerced :
  parse_block_table_from_page (scenario_header ++ [0x0A] ++ decimal_comma_line)
  = Ok [ {| Company := utf8 "ΕΛΛΑΚΤΩΡ ΑΕ"; Volume := 1000; Price := 250; Value := 2500;
            ApprovalTime := utf8 "12:30:15"; Note := utf8 "1" |} ]
  /\ scenario_reading (utf8 "2,50") = Ok 2.5%float
  /\ (250 = 100 * 2.5)%float.
Proof. repeat split; vm_compute; reflexivity. Qed.

(** ** The last row of a sheet *)

Section MaxRow.

Implicit Types (ws : worksheet) (r c : positive) (v : cell_value).

Lemma max_row_spec ws :
  (forall r c, is_Some (ws !! (r, c)) -> (r <= max_row ws)%positive)
  /\ (max_row ws = 1%positive \/ exists c, is_Some (ws !! (max_row ws, c))).
Proof.
  unfold max_row.
  apply (map_fold_weak_ind
    (fun (m : positive) (ws : worksheet) =>
       (forall r c, is_Some (ws !! (r, c)) -> (r <= m)%positive)
       /\ (m = 1%positive \/ exists c, is_Some (ws !! (m, c))))).
  - split; [|by left]. intros r c [v Hv]. by rewrite lookup_empty in Hv.
  - intros [r0 c0] x m acc Hnone [Hub Hatt]. simpl. split.
    + intros r c. destruct (decide ((r0, c0) = (r, c))) as [[= -> ->]|Hne].
      * intros _. lia.
      * rewrite lookup_insert_ne by done. intros H%Hub. lia.
    + destruct (Pos.max_spec r0 acc) as [[Hlt ->]|[Hle ->]].
      * destruct Hatt as [->|[c Hc]]; [lia|]. right. exists c.
        rewrite lookup_insert_ne; [done|]. intros [= -> ->]. lia.
      * right. exists c0. rewrite lookup_insert_eq. by eexists.
Qed.

Lemma max_row_insert ws r c v :
  max_row (<[(r, c) := v]> ws) = Pos.max r (max_row ws).
Proof.
  destruct (max_row_spec ws) as [Hub Hatt].
  destruct (max_row_spec (<[(r, c) := v]> ws)) as [Hub' Hatt'].
  assert (H1 : (r <= max_row (<[(r, c) := v]> ws))%positive).
  { apply (Hub' r c). rewrite lookup_insert_eq. by eexists. }
  assert (H2 : (max_row ws <= max_row (<[(r, c) := v]> ws))%positive).
  { destruct Hatt as [->|[c1 Hc1]]; [lia|]. apply (Hub' _ c1).
    destruct (decide ((r, c) = (max_row ws, c1))) as [<-|Hne].
    - rewrite lookup_insert_eq. by eexists.
    - by rewrite lookup_insert_ne. }
  assert (H3 : (max_row (<[(r, c) := v]> ws) <= Pos.max r (max_row ws))%positive).
  { destruct Hatt' as [->|[c1 Hc1]]; [lia|].
    destruct (decide ((r, c) = (max_row (<[(r, c) := v]> ws), c1))) as [[= E _]|Hne].
    - lia.
    - rewrite lookup_insert_ne in Hc1 by done. apply Hub in Hc1. lia. }
  lia.
Qed.

Lemma max_row_get_cell ws r c :
  (r <= max_row ws)%positive -> max_row (fst (get_cell ws r c)) = max_row ws.
Proof.
  intros Hr. unfold get_cell. destruct (ws !! (r, c)); simpl; [done|].
  rewrite max_row_insert. lia.
Qed.

End MaxRow.

(** ** Locating the row of a date *)

Section LocateRow.

Variable to_date : cell_value -> option date.

Implicit Types (ws : worksheet) (r c : positive) (rows : list positive).

Local Abbreviation date_matches := (date_matches to_date).
Local Abbreviation first_match := (first_match to_date).

Lemma first_match_ext ws1 ws2 rows t :
  (forall r, r ∈ rows -> value_at ws1 r 1 = value_at ws2 r 1) ->
  first_match ws1 rows t = first_match ws2 rows t.
Proof.
  unfold first_match. induction rows as [|r rows IH]; intros Hext; simpl; [done|].
  rewrite (Hext r) by left. rewrite IH; [done|]. intros r' Hr'. apply Hext. by right.
Qed.

Lemma first_match_app ws rows1 rows2 t :
  first_match ws (rows1 ++ rows2) t =
  match first_match ws rows1 t with
  | Some r => Some r
  | None => first_match ws rows2 t
  end.
Proof.
  unfold first_match. induction rows1 as [|r rows1 IH]; simpl; [done|].
  by destruct (date_matches _ _).
Qed.

(** The scan returns the first matching row; its reads keep the values
    and the last row of the sheet. *)
Lemma scan_date_rows_spec rows : forall ws t,
  (forall r, r ∈ rows -> (r <= max_row ws)%positive) ->
  snd (scan_date_rows to_date ws rows t) = first_match ws rows t
  /\ max_row (fst (scan_date_rows to_date ws rows t)) = max_row ws
  /\ forall r c, value_at (fst (scan_date_rows to_date ws rows t)) r c = value_at ws r c.
Proof.
  induction rows as [|r0 rows IH]; intros ws t Hrows; [done|].
  cbn [scan_date_rows].
  destruct (get_cell ws r0 1) as [ws1 val] eqn:G.
  assert (Hval : val = value_at ws r0 1) by (by rewrite <- get_cell_value, G).
  assert (Hws1 : ws1 = fst (get_cell ws r0 1)) by (by rewrite G).
  assert (Hmax : max_row ws1 = max_row ws).
  { rewrite Hws1. apply max_row_get_cell. apply Hrows. left. }
  assert (Hvals : forall r c, value_at ws1 r c = value_at ws r c).
  { intros r c. rewrite Hws1. apply value_at_get_cell. }
  destruct (IH ws1 t) as (Hf & Hm & Hv).
  { intros r Hr. rewrite Hmax. apply Hrows. by right. }
  assert (Hcont : snd (scan_date_rows to_date ws1 rows t) = first_match ws rows t
                  /\ max_row (fst (scan_date_rows to_date ws1 rows t)) = max_row ws
                  /\ forall r c, value_at (fst (scan_date_rows to_date ws1 rows t)) r c
                                 = value_at ws r c).
  { split; [|split].
    - rewrite Hf. apply first_match_ext. intros r _. apply Hvals.
    - by rewrite Hm.
    - intros r c. by rewrite Hv. }
  unfold first_match. cbn [List.find]. fold (first_match ws rows t).
  rewrite <- Hval. unfold date_matches.
  destruct val; try done;
    (destruct (to_date _) as [dd|]; [|done];
     case_bool_decide; [|done]; simpl; by rewrite Hmax).
Qed.

Lemma row_range_elem lo hi r :
  r ∈ row_range lo hi <-> (lo <= r <= hi)%positive.
Proof.
  unfold row_range. rewrite list_elem_of_fmap. split.
  - intros (n & -> & Hn%list_elem_of_In%in_seq). lia.
  - intros Hr. exists (Pos.to_nat r). split; [by rewrite Pos2Nat.id|].
    apply list_elem_of_In, in_seq. lia.
Qed.

Lemma row_range_snoc hi :
  (2 <= hi)%positive -> row_range 3 (hi + 1) = row_range 3 hi ++ [(hi + 1)%positive].
Proof.
  intros Hhi. unfold row_range.
  replace (Pos.to_nat (hi + 1) + 1 - Pos.to_nat 3)%nat
    with (S (Pos.to_nat hi + 1 - Pos.to_nat 3)) by lia.
  rewrite seq_S, map_app. simpl. do 2 f_equal. lia.
Qed.

(** One call, from the sheet it starts on. *)
Lemma find_or_create_spec ws (target_date : date) :
  match first_match ws (row_range 3 (max_row ws)) target_date with
  | Some r =>
    snd (find_or_create_date_row to_date ws target_date) = r
    /\ max_row (fst (find_or_create_date_row to_date ws target_date)) = max_row ws
    /\ forall r' c, value_at (fst (find_or_create_date_row to_date ws target_date)) r' c
                    = value_at ws r' c
  | None =>
    snd (find_or_create_date_row to_date ws target_date) = (max_row ws + 1)%positive
    /\ max_row (fst (find_or_create_date_row to_date ws target_date))
       = (max_row ws + 1)%positive
    /\ value_at (fst (find_or_create_date_row to_date ws target_date)) (max_row ws + 1) 1
       = midnight target_date
    /\ forall r' c, r' <> (max_row ws + 1)%positive ->
         value_at (fst (find_or_create_date_row to_date ws target_date)) r' c
         = value_at ws r' c
  end.
Proof.
  unfold find_or_create_date_row.
  destruct (scan_date_rows_spec (row_range 3 (max_row ws)) ws target_date)
    as (Hf & Hm & Hv).
  { by intros r [_ ?]%row_range_elem. }
  destruct (scan_date_rows to_date ws (row_range 3 (max_row ws)) target_date)
    as [ws1 res] eqn:S1; simpl in Hf, Hm, Hv.
  rewrite <- Hf. destruct res as [r|]; simpl; [done|].
  split; [done|]. split; [rewrite max_row_insert; lia|]. split.
  - unfold value_at. by rewrite lookup_insert_eq.
  - intros r' c Hr'. unfold value_at. rewrite lookup_insert_ne by congruence. apply Hv.
Qed.

(** X1: two calls on a sheet that has its header band.  With at least
    two rows in the sheet, and a date that pandas reads back from the
    cell written for it, the second call returns the row of the first
    and appends nothing; the two calls together append at most one
    row. *)
Lemma find_or_create_twice_with_header_band ws (target_date : date) :
  (2 <= max_row ws)%positive ->
  to_date (midnight target_date) = Some target_date ->
  let first := find_or_create_date_row to_date ws target_date in
  let second := find_or_create_date_row to_date (fst first) target_date in
  snd second = snd first
  /\ max_row (fst second) = max_row (fst first)
  /\ (max_row (fst first) <= max_row ws + 1)%positive
  /\ forall r c, value_at (fst second) r c = value_at (fst first) r c.
Proof.
  intros Hband Hback first second.
  pose proof (find_or_create_spec ws target_date) as H1. fold first in H1.
  pose proof (find_or_create_spec (fst first) target_date) as H2. fold second in H2.
  destruct (first_match ws (row_range 3 (max_row ws)) target_date) as [r1|] eqn:F1.
  - (* the date was there *)
    destruct H1 as (Hr1 & Hm1 & Hv1).
    rewrite Hm1, (first_match_ext (fst first) ws), F1 in H2 by (intros; apply Hv1).
    destruct H2 as (Hr2 & Hm2 & Hv2).
    split; [congruence|]. split; [congruence|]. split; [lia | done].
  - (* the date was appended *)
    destruct H1 as (Hr1 & Hm1 & Hd1 & Hv1).
    assert (Hfind : first_match (fst first) (row_range 3 (max_row (fst first))) target_date
                    = Some (max_row ws + 1)%positive).
    { rewrite Hm1, row_range_snoc by done. rewrite first_match_app.
      rewrite (first_match_ext (fst first) ws), F1.
      - unfold first_match. simpl. rewrite Hd1.
        unfold date_matches, midnight in *. rewrite Hback.
        by rewrite bool_decide_eq_true_2.
      - intros r' [_ Hr']%row_range_elem. apply Hv1. lia. }
    rewrite Hfind in H2. destruct H2 as (Hr2 & Hm2 & Hv2).
    split; [congruence|]. split; [congruence|]. split; [lia | done].
Qed.

(** C7 on a sheet without a second row: the first call appends the date
    at row 2, inside the header band; the scan of the second call starts
    at row 3, misses it, and appends the date again at row 3. *)
Theorem find_or_create_twice_short_sheet ws (target_date : date) :
  max_row ws = 1%positive ->
  let first := find_or_create_date_row to_date ws target_date in
  let second := find_or_create_date_row to_date (fst first) target_date in
  snd first = 2%positive /\ snd second = 3%positive
  /\ value_at (fst second) 2 1 = midnight target_date
  /\ value_at (fst second) 3 1 = midnight target_date.
Proof.
  intros Hmax first second.
  pose proof (find_or_create_spec ws target_date) as H1. fold first in H1.
  rewrite Hmax in H1. change (first_match ws (row_range 3 1) target_date) with (@None positive) in H1.
  destruct H1 as (Hr1 & Hm1 & Hd1 & Hv1).
  pose proof (find_or_create_spec (fst first) target_date) as H2. fold second in H2.
  rewrite Hm1 in H2.
  change (first_match (fst first) (row_range 3 (1 + 1)) target_date)
    with (@None positive) in H2.
  destruct H2 as (Hr2 & Hm2 & Hd2 & Hv2).
  split; [done|]. split; [done|]. split; [|done].
  rewrite Hv2 by done. exact Hd1.
Qed.

End LocateRow.

Lemma find_or_create_twice_short_sheet_witness :
  let first := find_or_create_date_row (fun _ => None) ∅ sample_date in
  let second := find_or_create_date_row (fun _ => None) (fst first) sample_date in
  snd first = 2%positive /\ snd second = 3%positive
  /\ value_at (fst second) 2 1 = midnight sample_date
  /\ value_at (fst second) 3 1 = midnight sample_date.
Proof.
  apply (find_or_create_twice_short_sheet (fun _ => None) ∅ sample_date).
  reflexivity.
Defined.

(** ** Normalised names: classes of characters *)

Lemma cls_cases (c : N) :
  (c = ch_space /\ cls c = Sp)
  \/ (cls c = Ws /\ Py.isspace c = true /\ c <> ch_space)
  \/ (c = ch_lparen /\ cls c = Lp)
  \/ (cls c = Ot /\ Py.isspace c = false /\ c <> ch_lparen /\ c <> ch_space).
Proof.
  unfold cls. destruct (N.eqb_spec c ch_space) as [->|Hs]; [by left|].
  destruct (Py.isspace c) eqn:E; [right; by left|].
  destruct (N.eqb_spec c ch_lparen) as [->|Hp]; [right; right; by left|].
  right; right; by right.
Qed.

Lemma cls_Ot (c : N) :
  cls c = Ot -> Py.isspace c = false /\ (c =? ch_lparen) = false /\ (c =? ch_space) = false.
Proof.
  destruct (cls_cases c) as [(-> & H)|[(H & _)|[(-> & H)|(_ & Hs & Hp & Hsp)]]];
    try (intros; congruence).
  intros _. by rewrite <- !N.eqb_neq in *.
Qed.

Lemma in_alphabet_elem (c : N) : in_alphabet c = true -> c ∈ alphabet.
Proof.
  unfold in_alphabet, alphabet. intros H. apply elem_of_app.
  apply orb_prop in H as [H|H].
  - left. apply N.ltb_lt in H. apply list_elem_of_fmap. exists (N.to_nat c).
    split; [by rewrite N2Nat.id|]. apply list_elem_of_In, in_seq. lia.
  - right. apply andb_prop in H as [H1%N.leb_le H2%N.leb_le].
    apply list_elem_of_fmap. exists (N.to_nat c).
    split; [by rewrite N2Nat.id|]. apply list_elem_of_In, in_seq. lia.
Qed.

(** A fact about the characters of the alphabet is checked on each of
    them. *)
Lemma alphabet_check (p : N -> bool) :
  forallb p alphabet = true -> forall c, in_alphabet c = true -> p c = true.
Proof.
  intros Hall c Hc. rewrite forallb_forall in Hall.
  apply Hall, list_elem_of_In, in_alphabet_elem, Hc.
Qed.

Lemma plain_alphabet (c : N) : plain c = true -> in_alphabet c = true.
Proof. unfold plain. by intros [? _]%andb_prop. Qed.

Lemma plain_check (p : N -> bool) :
  forallb (fun c => implb (plain c) (p c)) alphabet = true ->
  forall c, plain c = true -> p c = true.
Proof.
  intros Hall c Hc.
  pose proof (alphabet_check _ Hall c (plain_alphabet c Hc)) as H.
  simpl in H. by rewrite Hc in H.
Qed.

Lemma translate_plain (c : N) :
  in_alphabet c = true -> plain (Py.translate_char _DEACCENT_TABLE c) = true.
Proof.
  apply (alphabet_check (fun c => plain (Py.translate_char _DEACCENT_TABLE c))).
  vm_compute. reflexivity.
Qed.

(** The facts about a plain character and its upper-case form. *)
Lemma plain_upper_char (c : N) : plain c = true -> Py.upper_char c = [upper1 c].
Proof.
  intros Hc.
  assert (E : bool_decide (Py.upper_char c = [upper1 c]) = true).
  { revert c Hc. apply (plain_check (fun c => bool_decide (Py.upper_char c = [upper1 c]))).
    vm_compute. reflexivity. }
  by apply bool_decide_eq_true in E.
Qed.

Lemma plain_upper1 (c : N) : plain c = true -> plain (upper1 c) = true.
Proof.
  revert c. apply (plain_check (fun c => plain (upper1 c))).
  vm_compute. reflexivity.
Qed.

Lemma upper1_idem (c : N) : plain c = true -> upper1 (upper1 c) = upper1 c.
Proof.
  intros Hc. apply N.eqb_eq.
  revert c Hc. apply (plain_check (fun c => upper1 (upper1 c) =? upper1 c)).
  vm_compute. reflexivity.
Qed.

Lemma cls_upper1 (c : N) : plain c = true -> cls (upper1 c) = cls c.
Proof.
  intros Hc.
  assert (E : bool_decide (cls (upper1 c) = cls c) = true).
  { revert c Hc. apply (plain_check (fun c => bool_decide (cls (upper1 c) = cls c))).
    vm_compute. reflexivity. }
  by apply bool_decide_eq_true in E.
Qed.

Lemma ci_upper1 (c : N) :
  plain c = true ->
  Forall (fun p : N -> bool => p (upper1 c) = true -> p c = true) ci_classes.
Proof.
  intros Hc.
  assert (H : forallb (fun p : N -> bool => implb (p (upper1 c)) (p c)) ci_classes = true).
  { revert c Hc.
    apply (plain_check
             (fun c => forallb (fun p : N -> bool => implb (p (upper1 c)) (p c)) ci_classes)).
    vm_compute. reflexivity. }
  rewrite forallb_forall in H. apply Forall_forall. intros p Hin Hu.
  apply list_elem_of_In in Hin. specialize (H p Hin). by rewrite Hu in H.
Qed.

Lemma plain_fixed (c : N) : plain c = true -> Py.translate_char _DEACCENT_TABLE c = c.
Proof. unfold plain. intros [_ H]%andb_prop. by apply N.eqb_eq. Qed.

(** ** Normalised names: the shape of the spacing *)

Section Spacing.

Lemma lstrip_head (s : str) :
  match Py.lstrip s with
  | [] => True
  | c :: _ => Py.isspace c = false
  end.
Proof.
  induction s as [|c s IH]; simpl; [done|].
  destruct (Py.isspace c) eqn:E; [done | by rewrite E].
Qed.

Lemma rstrip_snoc (s : str) (c : N) :
  Py.rstrip (s ++ [c]) = if Py.isspace c then Py.rstrip s else s ++ [c].
Proof.
  unfold Py.rstrip. rewrite reverse_snoc. simpl.
  destruct (Py.isspace c); [done|]. by rewrite reverse_cons, reverse_involutive.
Qed.

Lemma rstrip_ends (s : str) : ends_plain (Py.rstrip s).
Proof.
  induction s as [|c s IH] using rev_ind; [done|].
  rewrite rstrip_snoc. destruct (Py.isspace c) eqn:E; [done|].
  unfold ends_plain. by rewrite last_snoc.
Qed.

Lemma rstrip_head (s : str) (c : N) :
  Py.isspace c = false -> exists r, Py.rstrip (c :: s) = c :: r.
Proof.
  intros Hc. induction s as [|d s IH] using rev_ind.
  - exists []. change [c] with ([] ++ [c]). by rewrite rstrip_snoc, Hc.
  - rewrite app_comm_cons, rstrip_snoc. destruct (Py.isspace d); [done|].
    by exists (s ++ [d]).
Qed.

Lemma rstrip_id (s : str) : ends_plain s -> Py.rstrip s = s.
Proof.
  destruct s as [|c s] using rev_ind; [done|].
  unfold ends_plain. rewrite last_snoc. intros H. by rewrite rstrip_snoc, H.
Qed.

Lemma ends_plain_cons (c : N) (s : str) :
  ends_plain (c :: s) -> s <> [] -> ends_plain s.
Proof.
  unfold ends_plain. intros H Hne. destruct s as [|d s]; [done|].
  by rewrite last_cons_cons in H.
Qed.

(** The collapse of the runs, on a string without white space at its
    ends. *)
Lemma sub_spaces_clean (s : str) : forall (b : bool) (st : cstate),
  ends_plain s ->
  (b = true -> s <> [] /\ st = CSpace) ->
  (b = false -> st = CBody \/ (st = CStart /\ match s with
                                              | [] => True
                                              | c :: _ => Py.isspace c = false
                                              end)) ->
  clean_from st (Re.sub_spaces b s) = true.
Proof.
  induction s as [|c s IH]; intros b st Hend Hb Hnb.
  - simpl. destruct b.
    + by destruct (Hb eq_refl).
    + by destruct (Hnb eq_refl) as [->|[-> _]].
  - cbn [Re.sub_spaces].
    assert (Htail : s <> [] -> ends_plain s) by (exact (ends_plain_cons c s Hend)).
    assert (Hbody : clean_from CBody (Re.sub_spaces false s) = true -> Py.isspace c = false ->
                    forall st', clean_from st' (c :: Re.sub_spaces false s) = true).
    { intros Hcl Hs st'. cbn [clean_from].
      destruct (cls_cases c) as [(-> & Hc)|[(Hc & Hs' & _)|[(-> & Hc)|(Hc & _)]]];
        [by vm_compute in Hs | congruence | rewrite Hc; by destruct st' ..]. }
    destruct (Py.isspace c) eqn:Hs.
    + (* white space *)
      assert (Hne : s <> []).
      { intros ->. unfold ends_plain in Hend. simpl in Hend. congruence. }
      destruct b.
      * destruct (Hb eq_refl) as [_ ->]. apply IH; [by apply Htail | done | done].
      * destruct (Hnb eq_refl) as [->|[-> Hh]]; [|congruence].
        cbn [clean_from]. replace (cls ch_space) with Sp by reflexivity.
        apply IH; [by apply Htail | done | done].
    + apply Hbody; [|done]. apply IH; [|done | by left].
      destruct s; [done | by apply Htail].
Qed.

Lemma strip_collapse_clean (s : str) :
  clean_from CStart (Re.sub_spaces false (Py.strip s)) = true.
Proof.
  apply sub_spaces_clean; [apply rstrip_ends | done |].
  intros _. right. split; [done|]. unfold Py.strip.
  pose proof (lstrip_head s) as Hh. destruct (Py.lstrip s) as [|c r]; [done|].
  destruct (rstrip_head r c Hh) as [r' ->]. done.
Qed.

(** The spacing of the parentheses, on a clean string. *)
Lemma sub_paren_tidy (s : str) :
  (clean_from CStart s = true -> tidy_from TStart (Re.sub_paren [] s) = true)
  /\ (clean_from CBody s = true -> tidy_from TBody (Re.sub_paren [] s) = true)
  /\ (clean_from CSpace s = true -> tidy_from TBody (Re.sub_paren [ch_space] s) = true).
Proof.
  induction s as [|c s (IHa & IHb & IHc)]; [done|].
  cbn [Re.sub_paren clean_from].
  destruct (cls_cases c) as [(-> & Hc)|[(Hc & Hs & _)|[(-> & Hc)|(Hc & Hs & Hp & Hsp)]]].
  - replace (Py.isspace ch_space) with true by reflexivity. rewrite Hc.
    split; [done|]. split; [|done]. exact IHc.
  - rewrite Hc. done.
  - replace (Py.isspace ch_lparen) with false by reflexivity.
    replace (ch_lparen =? ch_lparen) with true by reflexivity. rewrite Hc.
    cbn [tidy_from]. replace (cls ch_space) with Sp by reflexivity.
    rewrite Hc. done.
  - rewrite Hs, Hc. apply N.eqb_neq in Hp. rewrite Hp.
    cbn [app tidy_from]. replace (cls ch_space) with Sp by reflexivity.
    rewrite Hc. done.
Qed.

Lemma spacing_tidy (s : str) :
  tidy_from TStart
    (Re.sub_paren [] (Re.sub_spaces false (Py.strip s))) = true.
Proof. apply sub_paren_tidy, strip_collapse_clean. Qed.

(** A tidy string is a fixed point of the three spacing steps. *)
Lemma tidy_ends (s : str) : forall st, tidy_from st s = true -> s <> [] -> ends_plain s.
Proof.
  induction s as [|c s IH]; intros st Ht Hne; [done|].
  cbn [tidy_from] in Ht. destruct s as [|d s].
  - unfold ends_plain. simpl.
    destruct (cls_cases c) as [(-> & Hc)|[(Hc & Hs & _)|[(-> & Hc)|(Hc & Hs & _ & _)]]];
      rewrite Hc in Ht; try done; by destruct st.
  - unfold ends_plain. rewrite last_cons_cons.
    destruct (cls c), st; try done; by eapply (IH _ Ht).
Qed.

Lemma tidy_sub_spaces (s : str) : forall st b,
  tidy_from st s = true -> (b = true -> st = TLead \/ st = TSpace) ->
  Re.sub_spaces b s = s.
Proof.
  induction s as [|c s IH]; intros st b Ht Hb; [done|].
  cbn [tidy_from] in Ht. cbn [Re.sub_spaces].
  destruct (cls_cases c) as [(-> & Hc)|[(Hc & Hs & _)|[(-> & Hc)|(Hc & Hs & _ & _)]]];
    rewrite Hc in Ht.
  - replace (Py.isspace ch_space) with true by reflexivity.
    destruct st; try done; (destruct b; [by destruct Hb|]); f_equal;
      eapply IH; eauto.
  - by destruct st.
  - replace (Py.isspace ch_lparen) with false by reflexivity. f_equal.
    destruct st; try done; eapply IH; eauto; done.
  - rewrite Hs. f_equal. destruct st; try done; eapply IH; eauto; done.
Qed.

Lemma tidy_sub_paren (s : str) : forall st,
  tidy_from st s = true -> Re.sub_paren (pending_of st) s = pending_of st ++ s.
Proof.
  induction s as [|c s IH]; intros st Ht.
  - destruct st; try done.
  - cbn [tidy_from] in Ht. cbn [Re.sub_paren].
    pose proof (IH TBody) as IHb. simpl in IHb.
    destruct (cls_cases c) as [(-> & Hc)|[(Hc & Hs & _)|[(-> & Hc)|(Hc & Hs & Hp & _)]]];
      rewrite Hc in Ht.
    + replace (Py.isspace ch_space) with true by reflexivity.
      destruct st; try done.
      * exact (IH TLead Ht).
      * exact (IH TSpace Ht).
    + by destruct st.
    + replace (Py.isspace ch_lparen) with false by reflexivity.
      replace (ch_lparen =? ch_lparen) with true by reflexivity.
      destruct st; try done; simpl; by rewrite (IHb Ht).
    + rewrite Hs. apply N.eqb_neq in Hp. rewrite Hp.
      destruct st; try done; by rewrite (IHb Ht).
Qed.

Lemma tidy_fixed (s : str) :
  tidy_from TStart s = true ->
  Re.sub_paren [] (Re.sub_spaces false (Py.strip s)) = s.
Proof.
  intros Ht. destruct s as [|c s]; [done|].
  pose proof (tidy_ends _ _ Ht ltac:(done)) as Hend.
  cbn [tidy_from] in Ht.
  destruct (cls_cases c) as [(-> & Hc)|[(Hc & Hs & _)|[(-> & Hc)|(Hc & Hs & Hp & _)]]];
    rewrite Hc in Ht; try done.
  - (* a leading space, then a parenthesis *)
    destruct s as [|d s]; [done|]. cbn [tidy_from] in Ht.
    destruct (cls_cases d) as [(-> & Hd)|[(Hd & _)|[(-> & Hd)|(Hd & _)]]];
      rewrite Hd in Ht; try done.
    unfold Py.strip.
    replace (Py.lstrip (ch_space :: ch_lparen :: s)) with (ch_lparen :: s) by reflexivity.
    rewrite rstrip_id by (eapply ends_plain_cons; [exact Hend | done]).
    rewrite (tidy_sub_spaces (ch_lparen :: s) TLead false); [|by cbn [tidy_from]; rewrite Hd | done].
    cbn [Re.sub_paren].
    replace (Py.isspace ch_lparen) with false by reflexivity.
    replace (ch_lparen =? ch_lparen) with true by reflexivity.
    pose proof (tidy_sub_paren s TBody Ht) as E. simpl in E. by rewrite E.
  - unfold Py.strip. cbn [Py.lstrip]. rewrite Hs. rewrite rstrip_id by done.
    assert (Ht' : tidy_from TStart (c :: s) = true) by (cbn [tidy_from]; by rewrite Hc).
    rewrite (tidy_sub_spaces (c :: s) TStart false Ht') by done.
    apply (tidy_sub_paren (c :: s) TStart Ht').
Qed.

(** The shape depends on the classes of the characters only. *)
Lemma tidy_same_classes (s s' : str) : forall st,
  Forall2 (fun a b => cls a = cls b) s s' -> tidy_from st s' = tidy_from st s.
Proof.
  intros st H. revert st. induction H as [|a b s s' Hab _ IH]; intros st; [done|].
  cbn [tidy_from]. rewrite Hab. destruct (cls b), st; try done; apply IH.
Qed.

End Spacing.

(** ** Normalised names: the parenthesised suffixes *)

Lemma str_length_ind (Q : str -> Prop) :
  (forall s, (forall s', (length s' < length s)%nat -> Q s') -> Q s) -> forall s, Q s.
Proof.
  intros Hind s. remember (length s) as n eqn:Hn.
  revert s Hn. induction n as [n IH] using lt_wf_ind.
  intros s ->. apply Hind. intros s' Hlt. by apply (IH (length s')).
Qed.

Lemma literal_app (test : N -> N -> N -> N -> bool) (w l s : str) :
  literal test w (l ++ s) -> literal test w s.
Proof.
  intros H p a b c d q -> Ht. apply (H (l ++ p) a b c d q); [|done].
  by rewrite <- app_assoc.
Qed.

Lemma literal_cons (test : N -> N -> N -> N -> bool) (w : str) (x : N) (s : str) :
  literal test w (x :: s) -> literal test w s.
Proof. apply (literal_app test w [x]). Qed.

Section SubGroup.

Variables (pair : N -> N -> bool) (k1 k2 : N).

Hypothesis pair_letters : forall b c, pair b c = true -> cls b = Ot /\ cls c = Ot.
Hypothesis pair_repl : pair k1 k2 = true.

Local Abbreviation repl := [ch_lparen; k1; k2; ch_rparen].
Local Abbreviation sub := (Re.sub_group pair repl).
Local Abbreviation hit := (hit pair).

Lemma hit_shape a b c d :
  hit a b c d = true -> a = ch_lparen /\ cls b = Ot /\ cls c = Ot /\ d = ch_rparen.
Proof.
  unfold hit. intros [[Ha%N.eqb_eq Hp]%andb_prop Hd%N.eqb_eq]%andb_prop.
  destruct (pair_letters _ _ Hp). done.
Qed.

Lemma sub_hit a b c d r :
  hit a b c d = true -> sub (a :: b :: c :: d :: r) = repl ++ sub r.
Proof. intros H. cbn [Re.sub_group]. fold (hit a b c d). by rewrite H. Qed.

Lemma sub_miss a b c d r :
  hit a b c d = false -> sub (a :: b :: c :: d :: r) = a :: sub (b :: c :: d :: r).
Proof. intros H. cbn [Re.sub_group]. fold (hit a b c d). by rewrite H. Qed.

Lemma sub_short a r : (length r < 3)%nat -> sub (a :: r) = a :: sub r.
Proof.
  intros Hlen. destruct r as [|b [|c [|d r]]]; try reflexivity. simpl in Hlen. lia.
Qed.

(** The three ways the function takes a step. *)
Lemma sub_cases (s : str) :
  s = []
  \/ (exists a b c d r, s = a :: b :: c :: d :: r /\ hit a b c d = true
                        /\ sub s = repl ++ sub r)
  \/ (exists a r, s = a :: r /\ sub s = a :: sub r
                  /\ forall b c d r', r = b :: c :: d :: r' -> hit a b c d = false).
Proof.
  destruct s as [|a r]; [by left|]. right.
  destruct r as [|b [|c [|d r]]].
  - right. exists a, []. split; [done|]. split; [done|]. by intros ???? [=].
  - right. exists a, [b]. split; [done|]. split; [done|]. by intros ???? [=].
  - right. exists a, [b; c]. split; [done|]. split; [done|]. by intros ???? [=].
  - destruct (hit a b c d) eqn:H.
    + left. exists a, b, c, d, r. split; [done|]. split; [done|]. by apply sub_hit.
    + right. exists a, (b :: c :: d :: r). split; [done|]. split; [by apply sub_miss|].
      by intros ???? [= <- <- <- <-].
Qed.

Lemma sub_classes : forall s, Forall2 (fun a b => cls a = cls b) s (sub s).
Proof.
  apply str_length_ind. intros s IH.
  destruct (sub_cases s) as [->|[(a & b & c & d & r & -> & H & ->)|(a & r & -> & -> & _)]].
  - constructor.
  - destruct (hit_shape _ _ _ _ H) as (-> & Hb & Hc & ->).
    destruct (pair_letters _ _ pair_repl) as [Hk1 Hk2].
    repeat (constructor; [congruence|]). apply IH. simpl. lia.
  - constructor; [done|]. apply IH. simpl. lia.
Qed.

Lemma sub_Forall (P : N -> Prop) :
  Forall P repl -> forall s, Forall P s -> Forall P (sub s).
Proof.
  intros Hrepl. apply (str_length_ind (fun s => Forall P s -> Forall P (sub s))).
  intros s IH Hs.
  destruct (sub_cases s) as [->|[(a & b & c & d & r & -> & H & ->)|(a & r & -> & -> & _)]].
  - constructor.
  - apply Forall_app. split; [done|]. apply IH; [simpl; lia|].
    by do 4 apply Forall_cons in Hs as [_ Hs].
  - apply Forall_cons in Hs as [Ha Hs]. constructor; [done|]. apply IH; [simpl; lia | done].
Qed.

(** The head of the result, when it is not a parenthesis, is the head of
    the argument. *)
Lemma sub_head (s : str) (y : N) (t : str) :
  sub s = y :: t -> y <> ch_lparen -> exists r, s = y :: r /\ t = sub r.
Proof.
  intros E Hy.
  destruct (sub_cases s) as [->|[(a & b & c & d & r & -> & H & Es)|(a & r & -> & Es & _)]].
  - done.
  - rewrite Es in E. injection E as <- _. done.
  - rewrite Es in E. injection E as <- <-. by exists r.
Qed.

(** A window of the result that has the shape of a group is the
    replacement text, or a window of the argument that is no match. *)
Lemma sub_windows : forall s p a b c d q,
  sub s = p ++ a :: b :: c :: d :: q ->
  a = ch_lparen -> cls b = Ot -> cls c = Ot -> d = ch_rparen ->
  [a; b; c; d] = repl
  \/ (exists p' q', s = p' ++ a :: b :: c :: d :: q' /\ hit a b c d = false).
Proof.
  apply (str_length_ind (fun s => forall p a b c d q,
    sub s = p ++ a :: b :: c :: d :: q ->
    a = ch_lparen -> cls b = Ot -> cls c = Ot -> d = ch_rparen ->
    [a; b; c; d] = repl
    \/ (exists p' q', s = p' ++ a :: b :: c :: d :: q' /\ hit a b c d = false))).
  intros s IH p a b c d q E Ha Hb Hc Hd.
  assert (Hnb : b <> ch_lparen) by (intros ->; by vm_compute in Hb).
  assert (Hnc : c <> ch_lparen) by (intros ->; by vm_compute in Hc).
  assert (Hnd : d <> ch_lparen) by (by subst d).
  destruct (pair_letters _ _ pair_repl) as [Hk1 Hk2].
  destruct (sub_cases s)
    as [->|[(a0 & b0 & c0 & d0 & r & -> & H & Es)|(a0 & r & -> & Es & Hmiss)]].
  - by destruct p.
  - rewrite Es in E.
    destruct p as [|x0 [|x1 [|x2 [|x3 p]]]]; simpl in E.
    + left. by injection E as <- <- <- <- _.
    + injection E as _ E1 _ _ _. rewrite E1, Ha in Hk1. by vm_compute in Hk1.
    + injection E as _ _ E2 _ _. rewrite E2, Ha in Hk2. by vm_compute in Hk2.
    + injection E as _ _ _ E3 _. congruence.
    + injection E as _ _ _ _ E.
      destruct (IH r ltac:(simpl; lia) p a b c d q E Ha Hb Hc Hd)
        as [?|(p' & q' & -> & Hh)]; [by left|].
      right. exists (a0 :: b0 :: c0 :: d0 :: p'), q'. done.
  - rewrite Es in E. destruct p as [|x p]; simpl in E.
    + injection E as <- E.
      destruct (sub_head _ _ _ E Hnb) as (r1 & -> & E1).
      symmetry in E1. destruct (sub_head _ _ _ E1 Hnc) as (r2 & -> & E2).
      symmetry in E2. destruct (sub_head _ _ _ E2 Hnd) as (r3 & -> & _).
      right. exists [], r3. split; [done|]. by eapply Hmiss.
    + injection E as <- E.
      destruct (IH r ltac:(simpl; lia) p a b c d q E Ha Hb Hc Hd)
        as [?|(p' & q' & -> & Hh)]; [by left|].
      right. exists (a0 :: p'), q'. done.
Qed.

(** After the substitution every match is the replacement text. *)
Lemma sub_literal (s : str) : literal hit repl (sub s).
Proof.
  intros p a b c d q E H.
  destruct (hit_shape _ _ _ _ H) as (Ha & Hb & Hc & Hd).
  destruct (sub_windows s p a b c d q E Ha Hb Hc Hd) as [?|(_ & _ & _ & Hf)]; [done|].
  congruence.
Qed.

(** The substitution keeps the literal windows of another test whose
    matches have the shape of a group and which rejects the replacement
    text. *)
Lemma sub_keeps_literal (test : N -> N -> N -> N -> bool) (w s : str) :
  (forall a b c d, test a b c d = true ->
     a = ch_lparen /\ cls b = Ot /\ cls c = Ot /\ d = ch_rparen) ->
  test ch_lparen k1 k2 ch_rparen = false ->
  literal test w s -> literal test w (sub s).
Proof.
  intros Hshape Hrej Hlit p a b c d q E H.
  destruct (Hshape _ _ _ _ H) as (Ha & Hb & Hc & Hd).
  destruct (sub_windows s p a b c d q E Ha Hb Hc Hd) as [[= -> -> -> ->]|(p' & q' & Es & _)].
  - congruence.
  - by eapply Hlit.
Qed.

(** Where every match is the replacement text already, nothing changes. *)
Lemma sub_fixed : forall s, literal hit repl s -> sub s = s.
Proof.
  apply (str_length_ind (fun s => literal hit repl s -> sub s = s)).
  intros s IH Hlit.
  destruct (sub_cases s) as [->|[(a & b & c & d & r & -> & H & ->)|(a & r & -> & -> & _)]].
  - done.
  - pose proof (Hlit [] a b c d r eq_refl H) as [= -> -> -> ->].
    simpl. do 4 f_equal. apply IH; [simpl; lia|].
    by apply (literal_app hit repl repl).
  - f_equal. apply IH; [simpl; lia|]. by eapply literal_cons.
Qed.

(** Literal windows under a map that reflects the matches. *)
Lemma literal_map (g : N -> N) (P : N -> Prop) (s : str) :
  (forall a b c d, P a -> P b -> P c -> P d ->
     hit (g a) (g b) (g c) (g d) = true -> hit a b c d = true) ->
  map g repl = repl ->
  Forall P s -> literal hit repl s -> literal hit repl (map g s).
Proof.
  intros Hrefl Hrepl HP Hlit p a b c d q E H.
  apply fmap_app_inv in E as (p0 & t0 & -> & E & ->).
  symmetry in E. apply fmap_cons_inv in E as (a0 & t1 & -> & E & ->).
  symmetry in E. apply fmap_cons_inv in E as (b0 & t2 & -> & E & ->).
  symmetry in E. apply fmap_cons_inv in E as (c0 & t3 & -> & E & ->).
  symmetry in E. apply fmap_cons_inv in E as (d0 & q0 & -> & E & ->).
  apply Forall_app in HP as [_ HP].
  apply Forall_cons in HP as [Pa HP]. apply Forall_cons in HP as [Pb HP].
  apply Forall_cons in HP as [Pc HP]. apply Forall_cons in HP as [Pd _].
  pose proof (Hlit p0 a0 b0 c0 d0 q0 eq_refl (Hrefl _ _ _ _ Pa Pb Pc Pd H)) as E4.
  change [g a0; g b0; g c0; g d0] with (map g [a0; b0; c0; d0]).
  by rewrite E4.
Qed.

End SubGroup.

(** ** Normalised names: idempotence on the report alphabet *)

Section NormName.

Local Abbreviation plain_str := (Forall (fun c => plain c = true)).

Lemma ci_letters (p : N -> bool) (c : N) :
  p ∈ [Re.ci_latin_K; Re.ci_latin_O; Re.ci_latin_A; Re.ci_greek_K; Re.ci_greek_O; Re.ci_greek_A] ->
  p c = true -> cls c = Ot.
Proof.
  intros Hp Hc. repeat (apply elem_of_cons in Hp as [->|Hp]);
    [| | | | | | by apply elem_of_nil in Hp];
    unfold Re.ci_latin_K, Re.ci_latin_O, Re.ci_latin_A,
           Re.ci_greek_K, Re.ci_greek_O, Re.ci_greek_A in Hc;
    repeat (apply orb_prop in Hc as [Hc|Hc]); apply N.eqb_eq in Hc; by subst c.
Qed.

Lemma pair_KO_letters b c : Re.pair_KO b c = true -> cls b = Ot /\ cls c = Ot.
Proof.
  unfold Re.pair_KO. intros H.
  apply orb_prop in H as [H|H]; apply andb_prop in H as [Hb Hc];
    split; (eapply ci_letters; [|eassumption]); set_solver.
Qed.

Lemma pair_KA_letters b c : Re.pair_KA b c = true -> cls b = Ot /\ cls c = Ot.
Proof.
  unfold Re.pair_KA. intros H.
  apply orb_prop in H as [H|H]; apply andb_prop in H as [Hb Hc];
    split; (eapply ci_letters; [|eassumption]); set_solver.
Qed.

(** Upper-casing a plain character cannot create a letter of a suffix. *)
Lemma ci_reflect (p : N -> bool) (c : N) :
  p ∈ ci_classes -> plain c = true -> p (upper1 c) = true -> p c = true.
Proof.
  intros Hp Hc. by apply (proj1 (Forall_forall _ _) (ci_upper1 c Hc)).
Qed.

Lemma lparen_reflect (c : N) : plain c = true -> upper1 c = ch_lparen -> c = ch_lparen.
Proof.
  intros Hc E. pose proof (cls_upper1 c Hc) as H. rewrite E in H.
  destruct (cls_cases c) as [(-> & Hk)|[(Hk & _)|[(-> & Hk)|(Hk & _)]]];
    [| |done|]; rewrite Hk in H; by vm_compute in H.
Qed.

Lemma hit_reflect (pair : N -> N -> bool) :
  (forall b c, plain b = true -> plain c = true ->
     pair (upper1 b) (upper1 c) = true -> pair b c = true) ->
  forall a b c d, plain a = true -> plain b = true -> plain c = true -> plain d = true ->
    hit pair (upper1 a) (upper1 b) (upper1 c) (upper1 d) = true -> hit pair a b c d = true.
Proof.
  intros Hpair a b c d Pa Pb Pc Pd. unfold hit.
  intros [[Ha%N.eqb_eq Hp]%andb_prop Hd]%andb_prop.
  rewrite (lparen_reflect a Pa Ha), (Hpair b c Pb Pc Hp). simpl.
  rewrite N.eqb_sym. apply (ci_reflect (N.eqb ch_rparen) d); [set_solver | done |].
  by rewrite N.eqb_sym.
Qed.

Lemma pair_KO_reflect b c :
  plain b = true -> plain c = true ->
  Re.pair_KO (upper1 b) (upper1 c) = true -> Re.pair_KO b c = true.
Proof.
  intros Pb Pc. unfold Re.pair_KO. intros H.
  apply orb_prop in H as [H|H]; apply andb_prop in H as [Hb Hc].
  - apply (ci_reflect Re.ci_greek_K b) in Hb; [|set_solver | done].
    apply (ci_reflect Re.ci_greek_O c) in Hc; [|set_solver | done].
    by rewrite Hb, Hc.
  - apply (ci_reflect Re.ci_latin_K b) in Hb; [|set_solver | done].
    apply (ci_reflect Re.ci_latin_O c) in Hc; [|set_solver | done].
    rewrite Hb, Hc. by rewrite orb_true_r.
Qed.

Lemma pair_KA_reflect b c :
  plain b = true -> plain c = true ->
  Re.pair_KA (upper1 b) (upper1 c) = true -> Re.pair_KA b c = true.
Proof.
  intros Pb Pc. unfold Re.pair_KA. intros H.
  apply orb_prop in H as [H|H]; apply andb_prop in H as [Hb Hc].
  - apply (ci_reflect Re.ci_greek_K b) in Hb; [|set_solver | done].
    apply (ci_reflect Re.ci_greek_A c) in Hc; [|set_solver | done].
    by rewrite Hb, Hc.
  - apply (ci_reflect Re.ci_latin_K b) in Hb; [|set_solver | done].
    apply (ci_reflect Re.ci_latin_A c) in Hc; [|set_solver | done].
    rewrite Hb, Hc. by rewrite orb_true_r.
Qed.

(** The steps keep the characters plain. *)
Lemma translate_plain_str (s : str) :
  Forall (fun c => in_alphabet c = true) s -> plain_str (Py.translate _DEACCENT_TABLE s).
Proof.
  intros H. unfold Py.translate. apply Forall_fmap.
  eapply Forall_impl; [exact H|]. intros c Hc. by apply translate_plain.
Qed.

Lemma translate_fixed (s : str) : plain_str s -> Py.translate _DEACCENT_TABLE s = s.
Proof.
  induction 1 as [|c s Hc _ IH]; [done|].
  unfold Py.translate in *. simpl. by rewrite IH, plain_fixed.
Qed.

Lemma lstrip_Forall (P : N -> Prop) (s : str) : Forall P s -> Forall P (Py.lstrip s).
Proof.
  induction 1 as [|c s Hc Hs IH]; simpl; [constructor|].
  destruct (Py.isspace c); [done | by constructor].
Qed.

Lemma strip_Forall (P : N -> Prop) (s : str) : Forall P s -> Forall P (Py.strip s).
Proof.
  intros H. unfold Py.strip, Py.rstrip.
  apply Forall_reverse, lstrip_Forall, Forall_reverse, lstrip_Forall, H.
Qed.

Lemma sub_spaces_Forall (P : N -> Prop) (s : str) (b : bool) :
  P ch_space -> Forall P s -> Forall P (Re.sub_spaces b s).
Proof.
  intros Hsp H. revert b. induction H as [|c s Hc Hs IH]; intros b; simpl; [constructor|].
  destruct (Py.isspace c); [destruct b|]; try constructor; auto.
Qed.

Lemma sub_paren_Forall (P : N -> Prop) (s pending : str) :
  P ch_space -> P ch_lparen -> Forall P pending -> Forall P s ->
  Forall P (Re.sub_paren pending s).
Proof.
  intros Hsp Hlp Hpend H. revert pending Hpend.
  induction H as [|c s Hc Hs IH]; intros pending Hpend; simpl; [done|].
  destruct (Py.isspace c).
  - apply IH. apply Forall_app. split; [done | by constructor].
  - destruct (c =? ch_lparen).
    + constructor; [done|]. constructor; [done|]. by apply IH.
    + apply Forall_app. split; [done|]. constructor; [done|]. by apply IH.
Qed.

Lemma upper_plain (s : str) :
  plain_str s -> Py.upper s = map upper1 s /\ plain_str (map upper1 s)
                 /\ map upper1 (map upper1 s) = map upper1 s
                 /\ Forall2 (fun a b => cls a = cls b) s (map upper1 s).
Proof.
  induction 1 as [|c s Hc _ (IH1 & IH2 & IH3 & IH4)]; [by repeat split; constructor|].
  unfold Py.upper in *. simpl. rewrite IH1, (plain_upper_char c Hc). simpl.
  split; [done|]. split; [constructor; [by apply plain_upper1 | done]|].
  split; [by rewrite IH3, upper1_idem|].
  constructor; [by rewrite cls_upper1 | done].
Qed.

Lemma norm_name_normal (s : str) :
  Forall (fun c => in_alphabet c = true) s -> normal_name (norm_name s).
Proof.
  intros Hs. unfold norm_name.
  set (s1 := Py.translate _DEACCENT_TABLE s).
  set (s3 := Re.sub_paren [] (Re.sub_spaces false (Py.strip s1))).
  set (s4 := Re.sub_group Re.pair_KO lit_KO s3).
  set (s5 := Re.sub_group Re.pair_KA lit_KA s4).
  assert (P1 : plain_str s1) by (by apply translate_plain_str).
  assert (P3 : plain_str s3).
  { apply sub_paren_Forall; [done | done | constructor|].
    by apply sub_spaces_Forall, strip_Forall. }
  assert (T3 : tidy_from TStart s3 = true) by apply spacing_tidy.
  assert (P4 : plain_str s4).
  { apply sub_Forall; [by repeat constructor | done]. }
  assert (T4 : tidy_from TStart s4 = true).
  { rewrite (tidy_same_classes s3 s4); [done|].
    apply sub_classes; [apply pair_KO_letters | done]. }
  assert (L4 : literal test_KO lit_KO s4).
  { apply sub_literal; [apply pair_KO_letters | done]. }
  assert (P5 : plain_str s5).
  { apply sub_Forall; [by repeat constructor | done]. }
  assert (T5 : tidy_from TStart s5 = true).
  { rewrite (tidy_same_classes s4 s5); [done|].
    apply sub_classes; [apply pair_KA_letters | done]. }
  assert (L5 : literal test_KA lit_KA s5).
  { apply sub_literal; [apply pair_KA_letters | done]. }
  assert (L5' : literal test_KO lit_KO s5).
  { apply sub_keeps_literal; [apply pair_KA_letters | done | | done | done].
    intros a b c d. apply hit_shape, pair_KO_letters. }
  destruct (upper_plain s5 P5) as (-> & PU & IU & CU).
  split; [done|]. split; [by rewrite (tidy_same_classes s5 _)|].
  split; [|split; [|done]].
  - apply (literal_map Re.pair_KO 0x4B 0x4F upper1 (fun c => plain c = true)); try done.
    apply hit_reflect, pair_KO_reflect.
  - apply (literal_map Re.pair_KA 0x4B 0x41 upper1 (fun c => plain c = true)); try done.
    apply hit_reflect, pair_KA_reflect.
Qed.

Lemma normal_name_fixed (t : str) : normal_name t -> norm_name t = t.
Proof.
  intros (Pt & Tt & Lo & La & Ut). unfold norm_name.
  rewrite (translate_fixed t Pt), (tidy_fixed t Tt).
  rewrite (sub_fixed Re.pair_KO 0x4B 0x4F) by done.
  rewrite (sub_fixed Re.pair_KA 0x4B 0x41) by done.
  destruct (upper_plain t Pt) as (-> & _). done.
Qed.

End NormName.

(** C4, as the code has it: on the strings of the report alphabet (ASCII
    and the Greek and Coptic block, which holds the monotonic Greek
    letters of the accent table) [norm_name] is idempotent. *)
Theorem norm_name_idempotent (s : str) :
  Forall (fun c => in_alphabet c = true) s ->
  norm_name (norm_name s) = norm_name s.
Proof. intros Hs. apply normal_name_fixed, norm_name_normal, Hs. Qed.

Lemma in_alphabet_check (s : str) :
  forallb in_alphabet s = true -> Forall (fun c => in_alphabet c = true) s.
Proof. intros H. apply Forall_forall. intros c Hc%list_elem_of_In. by eapply forallb_forall in H. Qed.

Lemma norm_name_idempotent_witness :
  norm_name (norm_name (utf8 "Ελλάκτωρ  Α.Ε.(Κο)")) = norm_name (utf8 "Ελλάκτωρ  Α.Ε.(Κο)").
Proof.
  apply norm_name_idempotent. apply in_alphabet_check. vm_compute. reflexivity.
Defined.

(** C4, as the claim words it: the polytonic letter U+1FB4 is outside
    the accent table; upper-casing turns it into an accented capital
    alpha and an iota, and the second pass removes the accent. *)
Lemma norm_name_not_idempotent :
  norm_name (utf8 "ᾴ") = utf8 "ΆΙ"
  /\ norm_name (norm_name (utf8 "ᾴ")) = utf8 "ΑΙ"
  /\ norm_name (norm_name (utf8 "ᾴ")) <> norm_name (utf8 "ᾴ").
Proof.
  assert (H1 : norm_name (utf8 "ᾴ") = utf8 "ΆΙ") by (vm_compute; reflexivity).
  assert (H2 : norm_name (norm_name (utf8 "ᾴ")) = utf8 "ΑΙ") by (vm_compute; reflexivity).
  split; [done|]. split; [done|]. rewrite H2, H1. by vm_compute.
Qed.

(** * Further properties of the ledger writer *)

(** ** [fill_row], cell by cell *)

Section FillRowCells.

Variables (row_idx : positive) (trades : gmap str group) (date_obj : date).

Implicit Types (ws : worksheet) (hp : list (str * (positive * str))).

Lemma set_cell_lookup ws r c v : set_cell ws r c v !! (r, c) = stored v (ws !! (r, c)).
Proof.
  unfold set_cell, stored, get_cell.
  destruct v; try by rewrite lookup_insert_eq.
  destruct (ws !! (r, c)) eqn:E; simpl; [by rewrite E | by rewrite lookup_insert_eq].
Qed.

Lemma stored_idem v old : stored v (stored v old) = stored v old.
Proof. by destruct v, old. Qed.

(** A turn of the loop, read at one column of the row. *)
Lemma fill_company_lookup ws comp a hdr c :
  fill_company row_idx trades date_obj ws (comp, (a, hdr)) !! (row_idx, c)
  = block_cell trades date_obj comp a c (ws !! (row_idx, c)).
Proof.
  unfold fill_company, block_cell.
  destruct (decide (c = a)) as [->|Ha].
  - destruct (trades !! comp).
    + rewrite !set_cell_lookup_ne by (intros [=]; lia). by rewrite set_cell_lookup.
    + by rewrite set_cell_lookup.
  - destruct (trades !! comp) as [g|]; [|by rewrite set_cell_lookup_ne by congruence].
    destruct (decide (c = (a + 1)%positive)) as [->|H1].
    { rewrite !set_cell_lookup_ne by (intros [=]; lia).
      rewrite set_cell_lookup. by rewrite set_cell_lookup_ne by (intros [=]; lia). }
    destruct (decide (c = (a + 2)%positive)) as [->|H2].
    { rewrite set_cell_lookup_ne by (intros [=]; lia). by rewrite set_cell_lookup. }
    destruct (decide (c = (a + 3)%positive)) as [->|H3].
    { by rewrite set_cell_lookup. }
    by rewrite !set_cell_lookup_ne by congruence.
Qed.

Lemma block_cell_idem comp a c old :
  block_cell trades date_obj comp a c (block_cell trades date_obj comp a c old)
  = block_cell trades date_obj comp a c old.
Proof.
  unfold block_cell. destruct (decide (c = a)); [done|].
  destruct (trades !! comp); [|done].
  repeat case_decide; try done. apply stored_idem.
Qed.

(** In a header map the blocks do not meet, so each block is filled as if
    its company were alone on the sheet. *)
Lemma fill_row_block hp ws comp a hdr c :
  ledger_header_map hp -> (comp, (a, hdr)) ∈ hp -> in_block a c ->
  fill_row ws row_idx hp trades date_obj !! (row_idx, c)
  = block_cell trades date_obj comp a c (ws !! (row_idx, c)).
Proof.
  intros Hwf Hin Hc.
  destruct (fill_row_entry row_idx trades date_obj hp ws comp a hdr c Hwf Hin Hc)
    as (ws1 & Hsame & ->).
  rewrite fill_company_lookup. by rewrite Hsame.
Qed.

(** A cell is in the block of an entry of the map, or in none. *)
Lemma block_or_frame hp (k : positive * positive) :
  (exists comp a hdr, (comp, (a, hdr)) ∈ hp /\ fst k = row_idx /\ in_block a (snd k))
  \/ (forall e, e ∈ hp -> fst k = row_idx -> ~ in_block (fst (snd e)) (snd k)).
Proof.
  induction hp as [|[comp [a hdr]] hp IH].
  - right. intros e He. by apply elem_of_nil in He.
  - destruct (decide (fst k = row_idx /\ in_block a (snd k))) as [[Hr Hb]|Hn].
    + left. exists comp, a, hdr. split; [left | done].
    + destruct IH as [(comp' & a' & hdr' & Hin & Hk)|Hfr].
      * left. exists comp', a', hdr'. split; [by right | done].
      * right. intros e He Hr. apply elem_of_cons in He as [->|He]; [|by apply Hfr].
        simpl. intros Hb. apply Hn. done.
Qed.

End FillRowCells.



(** X3: filling the row of a date a second time, with the same header
    map, trades and date, changes nothing: the sheet after the second
    pass is the sheet after the first. *)
Theorem fill_row_twice (ws : worksheet) (row_idx : positive)
    (hp : list (str * (positive * str))) (trades : gmap str group) (date_obj : date) :
  ledger_header_map hp ->
  fill_row (fill_row ws row_idx hp trades date_obj) row_idx hp trades date_obj
  = fill_row ws row_idx hp trades date_obj.
Proof.
  intros Hwf. apply map_eq. intros k.
  destruct (block_or_frame row_idx hp k) as [(comp & a & hdr & Hin & Hr & Hb)|Hfr].
  - destruct k as [r c]. simpl in Hr, Hb. subst r.
    rewrite !(fill_row_block _ _ _ _ _ comp a hdr) by done.
    apply block_cell_idem.
  - by rewrite (fill_row_frame_cell _ _ _ hp) by done.
Qed.

Lemma fill_row_twice_witness :
  fill_row (fill_row ∅ 3 sample_header_map sample_trades sample_date)
    3 sample_header_map sample_trades sample_date
  = fill_row ∅ 3 sample_header_map sample_trades sample_date.
Proof. apply (fill_row_twice ∅ 3 sample_header_map). exact sample_header_map_ok. Defined.

(** X4: the order of the entries of a header map does not matter: two
    maps with the same entries give the same sheet. *)
Theorem fill_row_any_order (ws : worksheet) (row_idx : positive)
    (hp hp' : list (str * (positive * str))) (trades : gmap str group) (date_obj : date) :
  ledger_header_map hp ->
  hp ≡ₚ hp' ->
  fill_row ws row_idx hp trades date_obj = fill_row ws row_idx hp' trades date_obj.
Proof.
  intros Hwf Hp.
  assert (Hwf' : ledger_header_map hp').
  { destruct Hwf as (H1 & H2 & H3). repeat split.
    - by rewrite <- Hp.
    - by rewrite <- Hp.
    - by rewrite <- Hp. }
  apply map_eq. intros k.
  destruct (block_or_frame row_idx hp k) as [(comp & a & hdr & Hin & Hr & Hb)|Hfr].
  - destruct k as [r c]. simpl in Hr, Hb. subst r.
    rewrite (fill_row_block _ _ _ hp _ comp a hdr) by done.
    rewrite (fill_row_block _ _ _ hp' _ comp a hdr); [done | done | by rewrite <- Hp | done].
  - rewrite (fill_row_frame_cell _ _ _ hp) by done.
    rewrite (fill_row_frame_cell _ _ _ hp'); [done|].
    intros e He. apply Hfr. by rewrite Hp.
Qed.

Lemma fill_row_any_order_witness :
  fill_row ∅ 3 sample_header_map sample_trades sample_date
  = fill_row ∅ 3 (reverse sample_header_map) sample_trades sample_date.
Proof.
  apply (fill_row_any_order ∅ 3 sample_header_map (reverse sample_header_map)).
  - exact sample_header_map_ok.
  - symmetry. apply reverse_Permutation.
Defined.

(** ** The row of a date, located or appended *)

Section DateRow.

Variable to_date : cell_value -> option date.

Local Abbreviation date_matches := (date_matches to_date).
Local Abbreviation first_match := (first_match to_date).

Lemma find_first {A : Type} (p : A -> bool) (l : list A) (x : A) :
  List.find p l = Some x ->
  exists pre post, l = pre ++ x :: post /\ p x = true /\ Forall (fun y => p y = false) pre.
Proof.
  induction l as [|a l IH]; simpl; [done|].
  destruct (p a) eqn:Ea.
  - intros [= ->]. by exists [], l.
  - intros (pre & post & -> & Hx & Hpre)%IH.
    exists (a :: pre), post. repeat split; [done|]. by constructor.
Qed.

Lemma find_nothing {A : Type} (p : A -> bool) (l : list A) :
  List.find p l = None -> Forall (fun y => p y = false) l.
Proof.
  induction l as [|a l IH]; simpl; [constructor|].
  destruct (p a) eqn:Ea; [done|]. intros H. constructor; [done | by apply IH].
Qed.

Lemma row_range_sorted lo hi : StronglySorted Pos.lt (row_range lo hi).
Proof.
  unfold row_range.
  assert (G : forall n a, (1 <= a)%nat -> StronglySorted Pos.lt (map Pos.of_nat (seq a n))).
  { induction n as [|n IH]; intros a Ha; simpl; constructor.
    - apply IH. lia.
    - apply Forall_forall. intros x (m & -> & Hm%list_elem_of_In%in_seq)%list_elem_of_fmap.
      lia. }
  apply G. lia.
Qed.

(** X5: one call of [find_or_create_date_row].  Either it returns the
    first row, from row 3 down to the last row of the sheet, whose first
    cell reads as the target date, and changes no value; or no such row
    exists and it returns the row after the last one, which lies below
    every cell of the sheet, with the date at midnight in its first cell
    and every other value unchanged. *)
Theorem find_or_create_date_row_result (ws : worksheet) (target_date : date) :
  let res := find_or_create_date_row to_date ws target_date in
  ((3 <= snd res <= max_row ws)%positive
   /\ date_matches (value_at ws (snd res) 1) target_date = true
   /\ (forall r, (3 <= r < snd res)%positive ->
         date_matches (value_at ws r 1) target_date = false)
   /\ (forall r c, value_at (fst res) r c = value_at ws r c))
  \/ (snd res = (max_row ws + 1)%positive
      /\ (forall r, (3 <= r <= max_row ws)%positive ->
            date_matches (value_at ws r 1) target_date = false)
      /\ value_at (fst res) (snd res) 1 = midnight target_date
      /\ (forall r c, r <> snd res -> value_at (fst res) r c = value_at ws r c)
      /\ (forall r c, is_Some (ws !! (r, c)) -> (r < snd res)%positive)).
Proof.
  intros res. subst res.
  pose proof (find_or_create_spec to_date ws target_date) as S.
  destruct (first_match ws (row_range 3 (max_row ws)) target_date) as [r0|] eqn:F.
  - left. destruct S as (-> & _ & Hv).
    apply find_first in F as (pre & post & Hl & Hm & Hpre).
    assert (Hin : r0 ∈ row_range 3 (max_row ws)).
    { rewrite Hl. apply elem_of_app. right. left. }
    apply row_range_elem in Hin.
    split; [done|]. split; [done|]. split; [|done].
    intros r Hr.
    assert (Hr' : r ∈ row_range 3 (max_row ws)) by (apply row_range_elem; lia).
    pose proof (row_range_sorted 3 (max_row ws)) as Hs.
    rewrite Hl in Hr', Hs.
    apply elem_of_app in Hr' as [Hr'|Hr'].
    + by apply (proj1 (Forall_forall _ _) Hpre).
    + apply StronglySorted_app_1_r in Hs.
      apply StronglySorted_inv in Hs as (_ & Hlt).
      apply elem_of_cons in Hr' as [->|Hr']; [lia|].
      apply (proj1 (Forall_forall _ _) Hlt) in Hr'. lia.
  - right. destruct S as (-> & _ & Hd & Hv).
    apply find_nothing in F.
    split; [done|]. split.
    { intros r Hr. apply (proj1 (Forall_forall _ _) F). by apply row_range_elem. }
    split; [done|]. split; [done|].
    intros r c Hc. apply (proj1 (max_row_spec ws)) in Hc. lia.
Qed.

End DateRow.

Lemma find_or_create_twice_with_header_band_witness :
  let first := find_or_create_date_row read_back sample_sheet sample_date in
  let second := find_or_create_date_row read_back (fst first) sample_date in
  snd second = snd first
  /\ max_row (fst second) = max_row (fst first)
  /\ (max_row (fst first) <= max_row sample_sheet + 1)%positive
  /\ forall r c, value_at (fst second) r c = value_at (fst first) r c.
Proof.
  apply (find_or_create_twice_with_header_band read_back sample_sheet sample_date).
  - by vm_compute.
  - reflexivity.
Defined.

(** ** The header row, read *)

Section HeaderRead.

Variable str_other : cell_value -> str.

Lemma header_loop_cells fuel max_col c ws hp (k : positive * positive) :
  fst (header_loop str_other fuel max_col c ws hp) !! k
  = if decide (fst k = 2%positive /\ snd k ∈ cols_from fuel max_col c)
    then Some (value_at ws 2 (snd k))
    else ws !! k.
Proof.
  revert c ws hp. induction fuel as [|fuel IH]; intros c ws hp; simpl.
  { rewrite decide_False; [done|]. intros [_ H]. by apply elem_of_nil in H. }
  destruct (c <=? max_col)%positive.
  2:{ rewrite decide_False; [done|]. intros [_ H]. by apply elem_of_nil in H. }
  destruct (get_cell ws 2 c) as [ws1 header] eqn:G.
  replace ws1 with (fst (get_cell ws 2 c)) by (by rewrite G).
  rewrite IH. destruct k as [r c0]. simpl.
  destruct (decide (r = 2%positive /\ c0 ∈ cols_from fuel max_col (c + 4))) as [[-> Hin]|Hn].
  - rewrite decide_True by (split; [done | by right]).
    by rewrite value_at_get_cell.
  - destruct (decide ((r, c0) = (2%positive, c))) as [[= -> ->]|Hne].
    + rewrite decide_True by (split; [done | left]).
      unfold get_cell, value_at.
      destruct (ws !! (2%positive, c)) eqn:E; simpl; [by rewrite E | by rewrite lookup_insert_eq].
    + rewrite decide_False.
      * by apply get_cell_lookup_ne.
      * intros [-> [->|Hin]%elem_of_cons]; [done | by apply Hn].
Qed.

(** X6: what reading the header row does to the sheet: the cells of the
    stride-4 columns of row 2, from column 2 to the last column, exist
    afterwards (the missing ones are created empty), every other cell is
    as it was, and no value changes. *)
Theorem header_positions_reads_only (ws : worksheet) :
  let ws1 := fst (read_company_header_positions str_other ws) in
  (forall r c,
     ws1 !! (r, c) = if decide (r = 2%positive /\ stride_column ws c)
                     then Some (value_at ws 2 c)
                     else ws !! (r, c))
  /\ forall r c, value_at ws1 r c = value_at ws r c.
Proof.
  intros ws1. subst ws1. unfold read_company_header_positions. split.
  - intros r c. rewrite header_loop_cells. simpl.
    destruct (decide (r = 2%positive /\ stride_column ws c)) as [[-> Hs]|Hn].
    + rewrite decide_True; [done|]. split; [done | by apply stride_column_visited].
    + rewrite decide_False; [done|]. intros [-> Hs]. apply Hn. split; [done|].
      by apply stride_column_visited.
  - intros r c. apply header_loop_sheet.
Qed.

(** X7: the loop over the header columns ends by its own test: with any
    number of turns allowed beyond the number of columns of the sheet,
    the sheet and the map returned are the same. *)
Theorem header_loop_enough_fuel (ws : worksheet) (extra : nat) :
  header_loop str_other (Pos.to_nat (max_column ws) + extra) (max_column ws) 2 ws []
  = read_company_header_positions str_other ws.
Proof.
  unfold read_company_header_positions.
  induction extra as [|extra IH].
  - by rewrite Nat.add_0_r.
  - rewrite Nat.add_succ_r, header_loop_fuel; [done | lia].
Qed.

Lemma NoDup_fmap_same {A B : Type} (f : A -> B) (l : list A) (x y : A) :
  NoDup (f <$> l) -> x ∈ l -> y ∈ l -> f x = f y -> x = y.
Proof.
  induction l as [|a l IH]; [by intros _ ?%elem_of_nil|].
  rewrite fmap_cons. intros [Ha Hl]%NoDup_cons Hx Hy E.
  apply elem_of_cons in Hx as [->|Hx]; apply elem_of_cons in Hy as [->|Hy].
  - done.
  - exfalso. apply Ha. rewrite E. by apply list_elem_of_fmap_2.
  - exfalso. apply Ha. rewrite <- E. by apply list_elem_of_fmap_2.
  - by apply IH.
Qed.

(** X8: the map read from a sheet is a header map: its keys are
    distinct, its anchors are distinct columns among 2, 6, 10, ... up to
    the last column of the sheet, and the four-column blocks of two
    different entries have no column in common. *)
Theorem header_positions_blocks_apart (ws : worksheet) :
  let hp := snd (read_company_header_positions str_other ws) in
  ledger_header_map hp
  /\ (forall e, e ∈ hp -> stride_column ws (fst (snd e)))
  /\ (forall e1 e2 c, e1 ∈ hp -> e2 ∈ hp -> e1 <> e2 ->
        in_block (fst (snd e1)) c -> ~ in_block (fst (snd e2)) c).
Proof.
  intros hp. subst hp.
  pose proof (header_positions_wf str_other ws) as Hwf.
  destruct (header_positions_inv str_other ws) as (Hnd & Hget & _).
  set (hp := snd (read_company_header_positions str_other ws)) in *.
  split; [done|]. split.
  - intros [k [c t]] Hin. simpl.
    apply dict_get_elem in Hin; [|done].
    destruct (Hget _ _ _ Hin) as (Hc & _). by apply stride_column_visited.
  - intros e1 e2 c H1 H2 Hne. destruct Hwf as (_ & Hanch & Hmod).
    apply anchors_apart.
    + by apply (proj1 (Forall_forall _ _) Hmod).
    + by apply (proj1 (Forall_forall _ _) Hmod).
    + intros E. apply Hne. by apply (NoDup_fmap_same (fun e => fst (snd e)) hp).
Qed.

End HeaderRead.

(** * Further properties of the parser *)

(** ** The rows of text *)

Section Rows.

Lemma forallb_holds {A : Type} (p : A -> bool) (l : list A) :
  forallb p l = true -> Forall (fun c => p c = true) l.
Proof.
  induction l as [|a l IH]; simpl; [constructor|].
  intros [Ha Hl]%andb_prop. constructor; auto.
Qed.

Lemma span_spec (p : N -> bool) (s a b : str) :
  TIME_RE.span p s = (a, b) -> s = a ++ b /\ Forall (fun c => p c = true) a.
Proof.
  revert a b. induction s as [|c s IH]; intros a b; simpl.
  - intros [= <- <-]. by split.
  - destruct (p c) eqn:Ec.
    + destruct (TIME_RE.span p s) as [a' b'] eqn:E. intros [= <- <-].
      destruct (IH a' b' eq_refl) as [-> Ha]. split; [done | by constructor].
    + intros [= <- <-]. by split.
Qed.

Lemma match_here_spec (s t n : str) :
  TIME_RE.match_here s = Some (t, n) ->
  clock_text t /\ n <> [] /\ Forall (fun c => Py.isdigit c = true) n
  /\ exists gap tail,
       s = t ++ gap ++ n ++ tail /\ gap <> []
       /\ Forall (fun c => Py.isspace c = true) gap
       /\ (tail = [] \/ tail = [0x0A]).
Proof.
  unfold TIME_RE.match_here.
  destruct s as [|h1 [|h2 [|c1 [|m1 [|m2 [|c2 [|s1 [|s2 rest]]]]]]]]; try done.
  destruct (forallb Py.isdigit [h1; h2; m1; m2; s1; s2] && (c1 =? ch_colon)
            && (c2 =? ch_colon)) eqn:E; [|done].
  apply andb_prop in E as [[Hd Hc1]%andb_prop Hc2].
  apply N.eqb_eq in Hc1, Hc2. subst c1 c2.
  destruct (TIME_RE.span Py.isspace rest) as [ws r1] eqn:E1.
  destruct (TIME_RE.span Py.isdigit r1) as [ds r2] eqn:E2.
  destruct ws as [|w ws]; [done|]. destruct ds as [|d ds]; [done|].
  destruct (str_eqb r2 [] || str_eqb r2 [0x0A]) eqn:E3; [|done].
  intros [= <- <-].
  apply span_spec in E1 as [-> Hws]. apply span_spec in E2 as [-> Hds].
  split.
  { exists h1, h2, m1, m2, s1, s2. split; [done|]. by apply forallb_holds. }
  split; [done|]. split; [done|].
  exists (w :: ws), r2. split; [done|]. split; [done|]. split; [done|].
  apply orb_prop in E3 as [E3|E3]; apply bool_decide_eq_true in E3; auto.
Qed.

Lemma search_from_spec (s : str) : forall i j t n,
  TIME_RE.search_from i s = Some (j, t, n) ->
  exists k, j = (i + k)%nat /\ (k <= length s)%nat
            /\ TIME_RE.match_here (drop k s) = Some (t, n).
Proof.
  induction s as [|c s IH]; intros i j t n.
  - intros H. by simpl in H.
  - cbn [TIME_RE.search_from].
    destruct (TIME_RE.match_here (c :: s)) as [[t' n']|] eqn:M.
    + intros [= <- <- <-]. exists 0%nat.
      split; [lia|]. split; [simpl; lia|]. by rewrite drop_0.
    + intros (k & -> & Hk & Hm)%IH. exists (S k). simpl. repeat split; [lia | lia | done].
Qed.

Lemma split_acc_tokens (s : str) : forall cur,
  Forall (fun c => Py.isspace c = false) cur -> Forall token (Py.split_acc cur s).
Proof.
  induction s as [|c s IH]; intros cur Hcur; simpl.
  - destruct cur; constructor; [by split | constructor].
  - destruct (Py.isspace c) eqn:Ec.
    + destruct cur.
      * by apply IH.
      * constructor; [by split | by apply IH].
    + apply IH. apply Forall_app. split; [done | by repeat constructor].
Qed.

End Rows.

(** X9: the shape of a row of the table.  Its line ends with the clock,
    white space, the digits of the note and at most one line feed; the
    words before the clock are those of the company, then the volume,
    the price and the value; the company is its words (at least one)
    joined by single spaces, whatever white space stood between them;
    the time is a clock of eight characters, the note is a run of
    digits, and the three number tokens are words. *)
Theorem row_of_line_shape (ln : str) (r : raw_row) :
  row_of_line ln = Some r ->
  clock_text (raw_time r)
  /\ raw_note r <> [] /\ Forall (fun c => Py.isdigit c = true) (raw_note r)
  /\ token (raw_volume r) /\ token (raw_price r) /\ token (raw_value r)
  /\ exists (words : list str) (i : nat) (gap tail : str),
       words <> [] /\ Forall token words
       /\ raw_company r = Py.join [ch_space] words
       /\ Py.split (Py.strip (take i ln))
          = words ++ [raw_volume r; raw_price r; raw_value r]
       /\ ln = take i ln ++ raw_time r ++ gap ++ raw_note r ++ tail
       /\ gap <> [] /\ Forall (fun c => Py.isspace c = true) gap
       /\ (tail = [] \/ tail = [0x0A]).
Proof.
  unfold row_of_line, TIME_RE.search.
  destruct (TIME_RE.search_from 0 ln) as [[[i time] note]|] eqn:S; [|done].
  apply search_from_spec in S as (k & -> & Hk & M). simpl in *.
  apply match_here_spec in M as (Hclock & Hn & Hdig & gap & tail & Hln & Hgap & Hsp & Htail).
  pose proof (split_acc_tokens (Py.strip (take k ln)) [] ltac:(constructor)) as Htok.
  fold (Py.split (Py.strip (take k ln))) in Htok.
  destruct (reverse (Py.split (Py.strip (take k ln))))
    as [|value_str [|price_str [|volume_str [|w company_rev]]]] eqn:R; try done.
  intros [= <-]. simpl.
  assert (P : Py.split (Py.strip (take k ln))
              = reverse (w :: company_rev) ++ [volume_str; price_str; value_str]).
  { rewrite <- (reverse_involutive (Py.split (Py.strip (take k ln)))), R.
    rewrite (reverse_cons _ value_str), (reverse_cons _ price_str),
      (reverse_cons _ volume_str).
    by rewrite <- !app_assoc. }
  rewrite P in Htok. apply Forall_app in Htok as [Hwords Hnum].
  apply Forall_cons in Hnum as [Hvol Hnum].
  apply Forall_cons in Hnum as [Hprice Hnum].
  apply Forall_cons in Hnum as [Hvalue _].
  repeat (split; [done|]).
  exists (reverse (w :: company_rev)), k, gap, tail.
  split.
  { intros E. apply (f_equal length) in E. rewrite length_reverse in E. done. }
  split; [done|]. split; [done|]. split; [done|]. split; [|done].
  by rewrite <- Hln, take_drop.
Qed.

Lemma row_of_line_shape_witness :
  clock_text (utf8 "12:30:15")
  /\ utf8 "1" <> [] /\ Forall (fun c => Py.isdigit c = true) (utf8 "1")
  /\ token (utf8 "1,000") /\ token (utf8 "2.50") /\ token (utf8 "2,500.00")
  /\ exists (words : list str) (i : nat) (gap tail : str),
       words <> [] /\ Forall token words
       /\ utf8 "ΕΛΛΑΚΤΩΡ ΑΕ" = Py.join [ch_space] words
       /\ Py.split (Py.strip (take i scenario_line_grouped))
          = words ++ [utf8 "1,000"; utf8 "2.50"; utf8 "2,500.00"]
       /\ scenario_line_grouped
          = take i scenario_line_grouped ++ utf8 "12:30:15" ++ gap ++ utf8 "1" ++ tail
       /\ gap <> [] /\ Forall (fun c => Py.isspace c = true) gap
       /\ (tail = [] \/ tail = [0x0A]).
Proof.
  apply (row_of_line_shape scenario_line_grouped
           {| raw_company := utf8 "ΕΛΛΑΚΤΩΡ ΑΕ"; raw_volume := utf8 "1,000";
              raw_price := utf8 "2.50"; raw_value := utf8 "2,500.00";
              raw_time := utf8 "12:30:15"; raw_note := utf8 "1" |}).
  by vm_compute.
Defined.

(** ** Pages without a table, and the range of the volumes *)

Lemma find_start_none (lines : list str) (i : nat) :
  Forall (fun ln => is_header_line ln = false) lines -> find_start i lines = None.
Proof.
  intros H. revert i. induction H as [|ln lines Hln _ IH]; intros i; simpl; [done|].
  by rewrite Hln.
Qed.

(** X10: a page none of whose lines has the three header fragments
    gives the empty table, whatever its lines look like. *)
Theorem parse_without_header (text : str) :
  Forall (fun ln => is_header_line ln = false) (Py.splitlines text) ->
  table_rows text = [] /\ parse_block_table_from_page text = Ok [].
Proof.
  intros H. unfold parse_block_table_from_page, table_rows.
  by rewrite find_start_none.
Qed.

Lemma parse_without_header_witness :
  table_rows scenario_line_grouped = []
  /\ parse_block_table_from_page scenario_line_grouped = Ok [].
Proof.
  apply (parse_without_header scenario_line_grouped).
  vm_compute. repeat (constructor; [by vm_compute|]). constructor.
Defined.

(** X11: when a page returns a table, it has one row for each row of
    text and every volume fits a 64-bit signed integer. *)
Theorem parsed_volumes_int64 (text : str) (out : list trade_row) :
  parse_block_table_from_page text = Ok out ->
  length out = length (table_rows text) /\ Forall (fun r => int64 (Volume r)) out.
Proof.
  intros H.
  assert (F : Forall2 converted (table_rows text) out).
  { revert H. unfold parse_block_table_from_page.
    destruct (table_rows text) as [|r rows] eqn:E.
    - intros [= <-]. constructor.
    - apply convert_columns_Ok. }
  split; [symmetry; by eapply Forall2_length|].
  clear H. revert F. generalize (table_rows text). intros raws0 F.
  induction F as [|raw row raws rows Hc _ IH]; [constructor|].
  constructor; [|done].
  destruct Hc as (_ & _ & _ & Hv & _).
  unfold mbind, result_bind in Hv.
  destruct (Num.int (strip_commas (raw_volume raw))) as [z|e]; [|done].
  unfold Num.to_int64 in Hv.
  destruct ((- 2 ^ 63 <=? z) && (z <? 2 ^ 63))%Z eqn:B; [|done].
  injection Hv as <-. unfold int64. lia.
Qed.

Lemma parsed_volumes_int64_witness :
  length [scenario_record] = length (table_rows undated_page)
  /\ Forall (fun r => int64 (Volume r)) [scenario_record].
Proof.
  apply (parsed_volumes_int64 undated_page [scenario_record]).
  by vm_compute.
Defined.

(** ** The report date *)

Section ReportDate.

Lemma range_check (p : N -> bool) (b : N) :
  forallb p (map N.of_nat (seq 0 (N.to_nat b))) = true ->
  forall c, c < b -> p c = true.
Proof.
  intros H c Hc.
  assert (Hin : In c (map N.of_nat (seq 0 (N.to_nat b)))).
  { apply in_map_iff. exists (N.to_nat c). split; [lia|]. apply in_seq. lia. }
  by apply (proj1 (forallb_forall _ _) H).
Qed.

Lemma digit_not_space (c : N) : Py.isdigit c = true -> Py.isspace c = false.
Proof.
  intros Hd. destruct (Py.isspace c) eqn:Hs; [|done].
  assert (Hc : c < 0x3001).
  { unfold Py.isspace in Hs.
    repeat (apply orb_prop in Hs as [Hs|Hs]);
      repeat (apply andb_prop in Hs as [? Hs]);
      repeat match goal with
             | H : (_ <=? _) = true |- _ => apply N.leb_le in H
             | H : (_ =? _) = true |- _ => apply N.eqb_eq in H
             end; lia. }
  pose proof (range_check (fun c => negb (Py.isspace c && Py.isdigit c)) 0x3001
                ltac:(by vm_compute) c Hc) as H.
  simpl in H. by rewrite Hs, Hd in H.
Qed.

Lemma strip_words (s : str) : Forall (fun c => Py.isspace c = false) s -> Py.strip s = s.
Proof.
  intros H. unfold Py.strip.
  assert (L : Py.lstrip s = s).
  { destruct H as [|c s Hc _]; simpl; [done | by rewrite Hc]. }
  rewrite L. apply rstrip_id. unfold ends_plain.
  destruct (last s) as [c|] eqn:E; [|done].
  apply last_Some in E as (s' & ->). apply Forall_app in H as [_ H].
  by apply Forall_cons in H as [H _].
Qed.

Lemma digit_tail_digits (s : str) :
  Forall (fun c => Py.isdigit c = true) s -> is_Some (Num.digit_tail false s).
Proof.
  induction 1 as [|c s Hc _ IH]; simpl; [by eexists|].
  destruct (N.eqb_spec c ch_underscore) as [->|_]; [by vm_compute in Hc|].
  unfold Py.isdigit in Hc. destruct (Py.digit_value c); [|done].
  destruct IH as [ds ->]. by eexists.
Qed.

(** [int] reads every run of digits. *)
Lemma int_digits (s : str) :
  s <> [] -> Forall (fun c => Py.isdigit c = true) s -> exists z, Num.int s = Ok z.
Proof.
  intros Hne Hd. unfold Num.int.
  rewrite strip_words by (eapply Forall_impl; [exact Hd | apply digit_not_space]).
  destruct Hd as [|c s Hc Hs]; [done|].
  unfold Num.split_sign.
  destruct (N.eqb_spec c ch_dash) as [->|_]; [by vm_compute in Hc|].
  destruct (N.eqb_spec c ch_plus) as [->|_]; [by vm_compute in Hc|].
  unfold Num.digit_part.
  unfold Py.isdigit in Hc. destruct (Py.digit_value c); [|done].
  destruct (digit_tail_digits s Hs) as [ds ->]. simpl. by eexists.
Qed.

Lemma date_match_here_digits (s day_s name year_s : str) :
  DATE_RE.match_here s = Some (day_s, name, year_s) ->
  day_s <> [] /\ Forall (fun c => Py.isdigit c = true) day_s
  /\ year_s <> [] /\ Forall (fun c => Py.isdigit c = true) year_s.
Proof.
  unfold DATE_RE.match_here.
  destruct (DATE_RE.after_dow s) as [r0|]; [|done]. simpl.
  destruct (TIME_RE.span Py.isspace _) as [[|w ws] [|g1 r2]]; try done.
  destruct (Py.isdigit g1) eqn:G1; [|done].
  assert (T : forall (dd r3 : str),
            dd <> [] -> Forall (fun c => Py.isdigit c = true) dd ->
            ('(name, r4) ← DATE_RE.month_group r3;
             match r4 with
             | c :: r5 =>
               if c =? ch_comma then
                 match TIME_RE.span Py.isspace r5 with
                 | (_ :: _, y1 :: y2 :: y3 :: y4 :: _) =>
                   if forallb Py.isdigit [y1; y2; y3; y4]
                   then Some (dd, name, [y1; y2; y3; y4])
                   else None
                 | _ => None
                 end
               else None
             | [] => None
             end) = Some (day_s, name, year_s) ->
            day_s <> [] /\ Forall (fun c => Py.isdigit c = true) day_s
            /\ year_s <> [] /\ Forall (fun c => Py.isdigit c = true) year_s).
  { intros dd r3 Hne Hdd.
    destruct (DATE_RE.month_group r3) as [[name' r4]|]; simpl; [|done].
    destruct r4 as [|c r5]; [done|].
    destruct (c =? ch_comma); [|done].
    destruct (TIME_RE.span Py.isspace r5)
      as [[|w' ws'] [|y1 [|y2 [|y3 [|y4 r6]]]]]; try done.
    match goal with
    | |- (if ?b then _ else _) = _ -> _ => destruct b eqn:Y; [|done]
    end.
    change (forallb Py.isdigit [y1; y2; y3; y4] = true) in Y.
    intros [= <- <- <-]. repeat split; try done.
    by apply forallb_holds. }
  destruct r2 as [|g2 r].
  - apply T; [done | by repeat constructor].
  - destruct (Py.isdigit g2) eqn:G2.
    + apply T; [done | by repeat constructor].
    + apply T; [done | by repeat constructor].
Qed.

Lemma date_search_digits (text day_s name year_s : str) :
  DATE_RE.search text = Some (day_s, name, year_s) ->
  (exists d, Num.int day_s = Ok d) /\ (exists y, Num.int year_s = Ok y).
Proof.
  induction text as [|c text IH].
  - intros H. by vm_compute in H.
  - cbn [DATE_RE.search].
    destruct (DATE_RE.match_here (c :: text)) as [[[? ?] ?]|] eqn:M; [|done].
    intros [= -> -> ->]. apply date_match_here_digits in M as (? & ? & ? & ?).
    split; by apply int_digits.
Qed.

Lemma int_raises (s : str) (e : exn) : Num.int s = Raise e -> e = ValueError.
Proof.
  unfold Num.int. destruct (Num.split_sign (Py.strip s)) as [neg body].
  destruct (Num.digit_part body); [done | by intros [= <-]].
Qed.

Lemma make_date_Ok (y m d : Z) (dt : date) : make_date y m d = Ok dt -> valid_date dt.
Proof.
  unfold make_date, valid_date.
  destruct ((1 <=? y) && (y <=? 9999) && (1 <=? m) && (m <=? 12) && (1 <=? d)
            && (d <=? days_in_month y m))%Z eqn:B; [|done].
  intros [= <-]. simpl. lia.
Qed.

Lemma make_date_raises (y m d : Z) (e : exn) : make_date y m d = Raise e -> e = ValueError.
Proof. unfold make_date. case_match; [done | by intros [= <-]]. Qed.

(** One turn of the loop over the pages. *)
Lemma extract_report_date_cons (text : str) (rest : list str) :
  extract_report_date (text :: rest) =
  match DATE_RE.search text with
  | Some (day_s, month_name, year_s) =>
    d ← Num.int day_s;
    y ← Num.int year_s;
    match month_number month_name with
    | Some m => dt ← make_date y m d; Ok (Some dt)
    | None => extract_report_date rest
    end
  | None => extract_report_date rest
  end.
Proof. unfold month_number. cbn [extract_report_date]. reflexivity. Qed.

(** A page without a date is passed over. *)
Lemma extract_report_date_undated (text : str) (rest : list str) :
  undated text -> extract_report_date (text :: rest) = extract_report_date rest.
Proof.
  intros Ht. rewrite extract_report_date_cons. unfold undated in Ht.
  destruct (DATE_RE.search text) as [[[day_s month_name] year_s]|] eqn:S; [|done].
  destruct (date_search_digits _ _ _ _ S) as [[d ->] [y ->]].
  unfold mbind, result_bind. by rewrite Ht.
Qed.

End ReportDate.

(** X12: the three ways [extract_report_date] ends.  A date it returns
    is a date of the calendar (a year from 1 to 9999, a month from 1 to
    12, a day of that month); it returns no date exactly when every page
    is without a match of the pattern or has an unknown month in its
    first match; the only exception it raises is ValueError. *)
Theorem extract_report_date_outcomes (pages : list str) :
  match extract_report_date pages with
  | Ok (Some d) => valid_date d
  | Ok None => Forall undated pages
  | Raise e => e = ValueError
  end
  /\ (Forall undated pages -> extract_report_date pages = Ok None).
Proof.
  split.
  - induction pages as [|text rest IH]; [constructor|].
    rewrite extract_report_date_cons.
    assert (U : undated text ->
                match extract_report_date rest with
                | Ok (Some d) => valid_date d
                | Ok None => Forall undated (text :: rest)
                | Raise e => e = ValueError
                end).
    { intros E. destruct (extract_report_date rest) as [[d|]|e]; try done.
      by constructor. }
    destruct (DATE_RE.search text) as [[[day_s month_name] year_s]|] eqn:S.
    2:{ apply U. unfold undated. by rewrite S. }
    unfold mbind, result_bind.
    destruct (Num.int day_s) as [d|e] eqn:Ed; [|by apply int_raises in Ed].
    destruct (Num.int year_s) as [y|e] eqn:Ey; [|by apply int_raises in Ey].
    destruct (month_number month_name) as [m|] eqn:M.
    + destruct (make_date y m d) as [dt|e] eqn:D.
      * by apply make_date_Ok in D.
      * by apply make_date_raises in D.
    + apply U. unfold undated. by rewrite S.
  - induction 1 as [|text rest Ht _ IH]; [done|].
    by rewrite extract_report_date_undated.
Qed.

(** X13: the first page that gives a date decides: the pages before it
    that give none are passed over and the pages after it are never read,
    also when its date cannot be built and the call raises. *)
Theorem extract_report_date_first_dated (pre : list str) (p : str) (rest : list str) :
  Forall undated pre ->
  ~ undated p ->
  extract_report_date (pre ++ p :: rest) = extract_report_date [p].
Proof.
  intros Hpre Hp. induction Hpre as [|text pre Ht _ IH].
  - simpl app. rewrite !extract_report_date_cons.
    unfold undated in Hp.
    destruct (DATE_RE.search p) as [[[day_s month_name] year_s]|]; [|done].
    destruct (month_number month_name); [done|]. by destruct Hp.
  - simpl app. by rewrite extract_report_date_undated.
Qed.

Lemma extract_report_date_first_dated_witness :
  extract_report_date ([undated_page] ++ dated_line :: [other_dated_line])
  = extract_report_date [dated_line].
Proof.
  apply (extract_report_date_first_dated [undated_page] dated_line [other_dated_line]).
  - constructor; [by vm_compute | constructor].
  - intros H. by vm_compute in H.
Defined.

(** X14: the two tables of month names agree: a name of the first table
    has the same number, between 1 and 12, under its spelling without
    accents, which the second table resolves. *)
Theorem month_number_accents (name : str) (m : Z) :
  dict_get GREEK_MONTHS name = Some m ->
  month_number name = Some m
  /\ month_number (Py.translate _DEACCENT_TABLE name) = Some m
  /\ (1 <= m <= 12)%Z.
Proof.
  intros H. split; [unfold month_number; by rewrite H|].
  apply dict_get_Some_elem in H. unfold GREEK_MONTHS in H.
  repeat (apply elem_of_cons in H as [[= -> ->]|H]; [split; [by vm_compute | lia]|]).
  by apply elem_of_nil in H.
Qed.

Lemma month_number_accents_witness :
  month_number (utf8 "Μαΐου") = Some 5%Z
  /\ month_number (Py.translate _DEACCENT_TABLE (utf8 "Μαΐου")) = Some 5%Z
  /\ (1 <= 5 <= 12)%Z.
Proof. apply (month_number_accents (utf8 "Μαΐου") 5). reflexivity. Defined.

(** ** The pages of a document *)

Section Pages.

Lemma parse_pages_tables (rd : option date) (pages : list str) (rows : list dated_row) :
  parse_pages rd pages = Ok rows ->
  exists tables,
    Forall2 (fun text df => parse_block_table_from_page text = Ok df) pages tables
    /\ rows = map (fun r => (rd, r)) (concat tables).
Proof.
  revert rows. induction pages as [|text pages IH]; intros rows; simpl.
  - intros [= <-]. exists []. split; [constructor | done].
  - destruct (parse_block_table_from_page text) as [df|e] eqn:P; simpl; [|done].
    destruct (parse_pages rd pages) as [more|e]; simpl; [|done].
    intros [= <-]. destruct (IH more eq_refl) as (tables & HF & ->).
    exists (df :: tables). split; [by constructor|].
    simpl. by rewrite map_app.
Qed.

Lemma parse_pages_raises (rd : option date) (pages : list str) (text : str) (e : exn) :
  text ∈ pages -> parse_block_table_from_page text = Raise e ->
  exists e', parse_pages rd pages = Raise e'.
Proof.
  intros Hin Hr. induction pages as [|t pages IH]; [by apply elem_of_nil in Hin|].
  simpl. apply elem_of_cons in Hin as [<-|Hin].
  - rewrite Hr. by eexists.
  - destruct (parse_block_table_from_page t); simpl; [|by eexists].
    destruct (IH Hin) as [e' ->]. by eexists.
Qed.

Lemma parse_pages_empty (rd : option date) (pages : list str) :
  Forall (fun text => table_rows text = []) pages -> parse_pages rd pages = Ok [].
Proof.
  induction 1 as [|text pages Ht _ IH]; simpl; [done|].
  unfold parse_block_table_from_page. rewrite Ht. simpl. by rewrite IH.
Qed.

End Pages.

(** X15: the rows of a document are the tables of its located pages (the
    pages that hold one of the block keywords), in the order of the
    pages, and every row carries the one report date of the document. *)
Theorem extract_block_trades_rows (pages : list str) (rows : list dated_row) :
  extract_block_trades pages = Ok rows ->
  exists rd tables,
    extract_report_date pages = Ok rd
    /\ Forall2 (fun text df => parse_block_table_from_page text = Ok df)
         (filter (fun t => is_block_page t = true) pages) tables
    /\ rows = map (fun r => (rd, r)) (concat tables).
Proof.
  unfold extract_block_trades.
  destruct (extract_report_date pages) as [rd|e]; simpl; [|done].
  intros (tables & HF & ->)%parse_pages_tables. by exists rd, tables.
Qed.

Lemma extract_block_trades_rows_witness :
  exists rd tables,
    extract_report_date [noise_line; dated_page] = Ok rd
    /\ Forall2 (fun text df => parse_block_table_from_page text = Ok df)
         (filter (fun t => is_block_page t = true) [noise_line; dated_page]) tables
    /\ [(Some sample_date, scenario_record)] = map (fun r => (rd, r)) (concat tables).
Proof.
  apply (extract_block_trades_rows [noise_line; dated_page]
           [(Some sample_date, scenario_record)]).
  by vm_compute.
Defined.

(** ** Runs that leave the ledger alone *)

Section QuietRuns.

Variables (to_date : cell_value -> option date) (str_other : cell_value -> str).

(** X16: a located page whose conversion fails makes the whole run fail:
    [main] ends with an uncaught exception before the ledger file is
    opened, however many rows the other pages hold. *)
Theorem main_page_failure (pages : list str) (wb : workbook) (rd : option date)
    (text : str) (e : exn) :
  extract_report_date pages = Ok rd ->
  text ∈ pages ->
  is_block_page text = true ->
  parse_block_table_from_page text = Raise e ->
  exists e', main to_date str_other (Some pages) (Some wb) = ([], Uncaught e').
Proof.
  intros Hd Hin Hb Hr.
  assert (Hf : text ∈ filter (fun t => is_block_page t = true) pages)
    by (by apply list_elem_of_filter).
  destruct (parse_pages_raises rd _ _ _ Hf Hr) as [e' He'].
  exists e'. unfold main, extract_block_trades. rewrite Hd. simpl. by rewrite He'.
Qed.

(** X17: when no located page has a header line, and the report date
    does not raise, the run prints that it found no block trades and
    does nothing to the ledger. *)
Theorem main_without_tables (pages : list str) (wb : workbook) (rd : option date) :
  extract_report_date pages = Ok rd ->
  (forall text, text ∈ pages -> is_block_page text = true ->
     Forall (fun ln => is_header_line ln = false) (Py.splitlines text)) ->
  main to_date str_other (Some pages) (Some wb)
  = ([], Printed (utf8 "No block trades found in PDF.")).
Proof.
  intros Hd Hp. unfold main, extract_block_trades. rewrite Hd. simpl.
  rewrite parse_pages_empty; [done|].
  apply Forall_forall. intros text [Hb Hin]%list_elem_of_filter.
  unfold table_rows. by rewrite find_start_none by (by apply Hp).
Qed.

(** X18: a date that cannot be built is not passed over.  When the first
    page that gives a date names a day that does not exist (the 31st of
    a short month, the year 0), the run ends with ValueError before the
    ledger file is opened, also when a later page holds a date of the
    calendar. *)
Theorem main_impossible_date (pre : list str) (p : str) (rest : list str)
    (wb : workbook) (e : exn) :
  Forall undated pre ->
  extract_report_date [p] = Raise e ->
  main to_date str_other (Some (pre ++ p :: rest)) (Some wb) = ([], Uncaught ValueError).
Proof.
  intros Hpre Hp.
  assert (E : extract_report_date (pre ++ p :: rest) = Raise ValueError).
  { induction Hpre as [|text pre Ht _ IH]; simpl app;
      [|by rewrite extract_report_date_undated].
    revert Hp. rewrite !extract_report_date_cons.
    destruct (DATE_RE.search p) as [[[day_s month_name] year_s]|]; [|done].
    unfold mbind, result_bind.
    destruct (Num.int day_s) as [d|e1] eqn:Ed; [|by rewrite (int_raises _ _ Ed)].
    destruct (Num.int year_s) as [y|e1] eqn:Ey; [|by rewrite (int_raises _ _ Ey)].
    destruct (month_number month_name) as [m|]; [|done].
    destruct (make_date y m d) as [dt|e1] eqn:D; [done|].
    by rewrite (make_date_raises _ _ _ _ D). }
  by apply main_report_date_raises.
Qed.

End QuietRuns.

Lemma main_page_failure_witness :
  exists e', main read_back (fun _ => []) (Some [dated_line; page_greek_numbers]) (Some [])
             = ([], Uncaught e').
Proof.
  apply (main_page_failure read_back (fun _ => []) [dated_line; page_greek_numbers] []
           (Some sample_date) page_greek_numbers ValueError).
  - by vm_compute.
  - right. left.
  - by vm_compute.
  - by vm_compute.
Defined.

Lemma main_without_tables_witness :
  main read_back (fun _ => []) (Some [dated_line; utf8 "Στοιχεία Συναλλαγών Πακέτων"])
    (Some [])
  = ([], Printed (utf8 "No block trades found in PDF.")).
Proof.
  apply (main_without_tables read_back (fun _ => [])
           [dated_line; utf8 "Στοιχεία Συναλλαγών Πακέτων"] [] (Some sample_date)).
  - by vm_compute.
  - intros text Hin _.
    apply elem_of_cons in Hin as [->|Hin].
    { vm_compute. repeat (constructor; [by vm_compute|]). constructor. }
    apply elem_of_cons in Hin as [->|Hin]; [|by apply elem_of_nil in Hin].
    vm_compute. repeat (constructor; [by vm_compute|]). constructor.
Defined.

Lemma main_impossible_date_witness :
  main read_back (fun _ => [])
    (Some ([undated_page] ++ impossible_date_line :: [dated_page])) (Some sample_workbook)
  = ([], Uncaught ValueError).
Proof.
  apply (main_impossible_date read_back (fun _ => []) [undated_page] impossible_date_line
           [dated_page] sample_workbook ValueError).
  - constructor; [by vm_compute | constructor].
  - by vm_compute.
Defined.

(** * Further properties of the audit sheet and of the driver *)

(** ** Writing a run of cells *)

Section AuditSheet.

Implicit Types (ws : worksheet) (hp : list (str * (positive * str))).








End AuditSheet.



(** ** A run that saves *)

Section Saves.

Variables (to_date : cell_value -> option date) (str_other : cell_value -> str).



End Saves.


(** * Further properties of the name normaliser *)

Section NameForms.

Lemma translate_char_high (c : N) :
  0x400 <= c -> Py.translate_char _DEACCENT_TABLE c = c.
Proof.
  intros Hc. unfold Py.translate_char.
  destruct (List.find (fun p => fst p =? c) _DEACCENT_TABLE) as [p|] eqn:F; [|done].
  apply find_some in F as [Hin Hp]. apply N.eqb_eq in Hp.
  assert (B : forallb (fun p => fst p <? 0x400) _DEACCENT_TABLE = true) by (by vm_compute).
  apply (proj1 (forallb_forall _ _) B) in Hin. apply N.ltb_lt in Hin. lia.
Qed.

(** The accent table maps no character to one of its own keys, and never
    from or to white space. *)
Lemma translate_char_facts (c : N) :
  Py.translate_char _DEACCENT_TABLE (Py.translate_char _DEACCENT_TABLE c)
  = Py.translate_char _DEACCENT_TABLE c
  /\ Py.isspace (Py.translate_char _DEACCENT_TABLE c) = Py.isspace c.
Proof.
  destruct (N.lt_ge_cases c 0x400) as [Hc|Hc].
  - pose proof (range_check
      (fun c => (Py.translate_char _DEACCENT_TABLE (Py.translate_char _DEACCENT_TABLE c)
                 =? Py.translate_char _DEACCENT_TABLE c)
                && bool_decide (Py.isspace (Py.translate_char _DEACCENT_TABLE c)
                                = Py.isspace c))
      0x400 ltac:(by vm_compute) c Hc) as H.
    cbv beta in H. apply andb_prop in H as [H1%N.eqb_eq H2%bool_decide_eq_true]. done.
  - rewrite (translate_char_high c Hc). split; [by apply translate_char_high | done].
Qed.

Lemma lstrip_spaces (lead s : str) :
  Forall (fun c => Py.isspace c = true) lead -> Py.lstrip (lead ++ s) = Py.lstrip s.
Proof. induction 1 as [|c lead Hc _ IH]; simpl; [done | by rewrite Hc]. Qed.

Lemma rstrip_spaces (s trail : str) :
  Forall (fun c => Py.isspace c = true) trail -> Py.rstrip (s ++ trail) = Py.rstrip s.
Proof.
  intros H. unfold Py.rstrip. rewrite reverse_app.
  rewrite lstrip_spaces; [done | by apply Forall_reverse].
Qed.

Lemma strip_margins (lead s trail : str) :
  Forall (fun c => Py.isspace c = true) lead ->
  Forall (fun c => Py.isspace c = true) trail ->
  Py.strip (lead ++ s ++ trail) = Py.strip s.
Proof.
  intros Hl Ht. unfold Py.strip. rewrite lstrip_spaces by done.
  induction s as [|c s IH]; simpl.
  - rewrite <- (app_nil_r trail). by rewrite lstrip_spaces.
  - destruct (Py.isspace c); [done|].
    by rewrite app_comm_cons, rstrip_spaces.
Qed.

Lemma tidy_spaces (s : str) : forall st,
  tidy_from st s = true -> Forall (fun c => Py.isspace c = true -> c = ch_space) s.
Proof.
  induction s as [|c s IH]; intros st Ht; [constructor|].
  cbn [tidy_from] in Ht.
  destruct (cls_cases c) as [(-> & Hc)|[(Hc & Hs & _)|[(-> & Hc)|(Hc & Hs & _ & _)]]];
    rewrite Hc in Ht.
  - constructor; [done|]. destruct st; try done; by eapply IH.
  - done.
  - constructor; [by intros [=]|]. destruct st; try done; by eapply IH.
  - constructor; [by rewrite Hs|]. destruct st; try done; by eapply IH.
Qed.

End NameForms.

(** X22: [norm_name] does not see the accents of the table nor the white
    space around a name: a name with its accents already removed, with
    any white space before and after it, is normalised as the name
    itself, whatever its characters are. *)
Theorem norm_name_accents_and_margins (s lead trail : str) :
  Forall (fun c => Py.isspace c = true) lead ->
  Forall (fun c => Py.isspace c = true) trail ->
  norm_name (lead ++ Py.translate _DEACCENT_TABLE s ++ trail) = norm_name s.
Proof.
  intros Hl Ht. unfold norm_name.
  assert (E : Py.strip (Py.translate _DEACCENT_TABLE
                          (lead ++ Py.translate _DEACCENT_TABLE s ++ trail))
              = Py.strip (Py.translate _DEACCENT_TABLE s)).
  { unfold Py.translate. rewrite !map_app, map_map.
    rewrite (map_ext (fun c => Py.translate_char _DEACCENT_TABLE
                                 (Py.translate_char _DEACCENT_TABLE c))
               (Py.translate_char _DEACCENT_TABLE))
      by (intros c; apply translate_char_facts).
    apply strip_margins.
    - apply Forall_fmap. eapply Forall_impl; [exact Hl|].
      intros c Hc. simpl. by rewrite (proj2 (translate_char_facts c)).
    - apply Forall_fmap. eapply Forall_impl; [exact Ht|].
      intros c Hc. simpl. by rewrite (proj2 (translate_char_facts c)). }
  by rewrite E.
Qed.

Lemma norm_name_accents_and_margins_witness :
  norm_name ([ch_space; 0x09] ++ Py.translate _DEACCENT_TABLE (utf8 "Άλφα (κο)") ++ [0x0A])
  = norm_name (utf8 "Άλφα (κο)").
Proof.
  apply (norm_name_accents_and_margins (utf8 "Άλφα (κο)") [ch_space; 0x09] [0x0A]).
  - by repeat constructor.
  - by repeat constructor.
Defined.

(** X23: the form of a normalised name, for a name written in ASCII and
    the Greek and Coptic block.  Its only white space is the single
    space, never at the end, never doubled, and at the start only before
    a parenthesis, and every opening parenthesis has a space before it;
    it has no accent of the table left and no letter that the upper-case
    mapping changes. *)
Theorem norm_name_form (s : str) :
  Forall (fun c => in_alphabet c = true) s ->
  tidy_from TStart (norm_name s) = true
  /\ ends_plain (norm_name s)
  /\ Forall (fun c => Py.isspace c = true -> c = ch_space) (norm_name s)
  /\ Py.translate _DEACCENT_TABLE (norm_name s) = norm_name s
  /\ Py.upper (norm_name s) = norm_name s.
Proof.
  intros Hs. destruct (norm_name_normal s Hs) as (Pt & Tt & _ & _ & Ut).
  split; [done|]. split.
  { destruct (norm_name s) as [|c t] eqn:E; [done|]. by apply (tidy_ends _ TStart). }
  split; [by apply (tidy_spaces _ TStart)|].
  split; [by apply translate_fixed|].
  destruct (upper_plain _ Pt) as (-> & _). done.
Qed.

Lemma norm_name_form_witness :
  tidy_from TStart (norm_name (utf8 "Ελλάκτωρ  Α.Ε.(Κο)")) = true
  /\ ends_plain (norm_name (utf8 "Ελλάκτωρ  Α.Ε.(Κο)"))
  /\ Forall (fun c => Py.isspace c = true -> c = ch_space)
       (norm_name (utf8 "Ελλάκτωρ  Α.Ε.(Κο)"))
  /\ Py.translate _DEACCENT_TABLE (norm_name (utf8 "Ελλάκτωρ  Α.Ε.(Κο)"))
     = norm_name (utf8 "Ελλάκτωρ  Α.Ε.(Κο)")
  /\ Py.upper (norm_name (utf8 "Ελλάκτωρ  Α.Ε.(Κο)"))
     = norm_name (utf8 "Ελλάκτωρ  Α.Ε.(Κο)").
Proof.
  apply norm_name_form. apply in_alphabet_check. vm_compute. reflexivity.
Defined.

(** * From the rows of the document to the row of the ledger *)

(** X24: the groups of [group_trades_for_formulas].  A name has a group
    exactly when some row normalises to it; the group holds the volumes
    and the prices of those rows in the order of the table, so it is
    never empty and its two lists have the same length. *)
Theorem group_trades_for_formulas_spec (df : list trade_row) (k : str) :
  (group_trades_for_formulas df !! k = None <->
   Forall (fun r => norm_name (Company r) <> k) df)
  /\ forall g, group_trades_for_formulas df !! k = Some g ->
       volumes g = map Volume (filter (fun r => norm_name (Company r) = k) df)
       /\ prices g = map Price (filter (fun r => norm_name (Company r) = k) df)
       /\ volumes g <> []
       /\ length (volumes g) = length (prices g).
Proof.
  rewrite group_trades_lookup.
  destruct (filter (fun r => norm_name (Company r) = k) df) as [|r rs] eqn:F.
  - split; [|done]. split; [|done]. intros _.
    apply Forall_forall. intros r Hr E.
    assert (Hin : r ∈ filter (fun r => norm_name (Company r) = k) df)
      by (by apply list_elem_of_filter).
    rewrite F in Hin. by apply elem_of_nil in Hin.
  - split.
    + split; [done|]. intros Hall.
      assert (Hin : r ∈ filter (fun r => norm_name (Company r) = k) df)
        by (rewrite F; left).
      apply list_elem_of_filter in Hin as [E Hin].
      by apply (proj1 (Forall_forall _ _) Hall) in Hin.
    + intros g [= <-]. simpl. repeat split; try done.
      by rewrite !length_map.
Qed.



(** * The name normaliser and the case of a name *)

Section SameLetters.

Local Abbreviation same := (Forall2 (fun x y => same_letter x y = true)).

Lemma same_letter_facts (x y : N) :
  same_letter x y = true ->
  plain x = true /\ plain y = true /\ upper1 x = upper1 y /\ cls x = cls y
  /\ forall p, p ∈ ci_classes -> p x = p y.
Proof.
  unfold same_letter.
  intros [[[[Px Py]%andb_prop Hu%N.eqb_eq]%andb_prop Hc%bool_decide_eq_true]%andb_prop
            Hp]%andb_prop.
  repeat split; try done.
  intros p Hin. apply list_elem_of_In in Hin.
  apply (proj1 (forallb_forall _ _) Hp) in Hin. by apply Bool.eqb_prop.
Qed.

Lemma isspace_cls (c : N) :
  Py.isspace c = match cls c with Sp | Ws => true | _ => false end.
Proof.
  destruct (cls_cases c) as [(-> & Hc)|[(Hc & Hs & _)|[(-> & Hc)|(Hc & Hs & _ & _)]]];
    rewrite Hc; done.
Qed.

Lemma lparen_cls (c : N) : (c =? ch_lparen) = bool_decide (cls c = Lp).
Proof.
  destruct (cls_cases c) as [(-> & Hc)|[(Hc & Hs & Hn)|[(-> & Hc)|(Hc & Hs & Hn & _)]]];
    rewrite Hc; try done.
  - destruct (N.eqb_spec c ch_lparen) as [->|]; [by vm_compute in Hs | done].
  - by destruct (N.eqb_spec c ch_lparen).
Qed.

Lemma same_isspace (x y : N) : same_letter x y = true -> Py.isspace x = Py.isspace y.
Proof. intros (_ & _ & _ & Hc & _)%same_letter_facts. by rewrite !isspace_cls, Hc. Qed.

Lemma same_lparen (x y : N) :
  same_letter x y = true -> (x =? ch_lparen) = (y =? ch_lparen).
Proof. intros (_ & _ & _ & Hc & _)%same_letter_facts. by rewrite !lparen_cls, Hc. Qed.

Lemma same_rparen (x y : N) :
  same_letter x y = true -> (x =? ch_rparen) = (y =? ch_rparen).
Proof.
  intros (_ & _ & _ & _ & Hp)%same_letter_facts.
  rewrite (N.eqb_sym x), (N.eqb_sym y). apply (Hp (N.eqb ch_rparen)).
  unfold ci_classes. set_solver.
Qed.

Lemma same_lstrip (a b : str) : same a b -> same (Py.lstrip a) (Py.lstrip b).
Proof.
  induction 1 as [|x y a b Hxy Hab IH]; simpl; [constructor|].
  rewrite <- (same_isspace x y Hxy). destruct (Py.isspace x); [done | by constructor].
Qed.

Lemma same_strip (a b : str) : same a b -> same (Py.strip a) (Py.strip b).
Proof.
  intros H. unfold Py.strip, Py.rstrip.
  by apply Forall2_reverse, same_lstrip, Forall2_reverse, same_lstrip.
Qed.

Lemma same_sub_spaces (a b : str) : same a b ->
  forall in_run, same (Re.sub_spaces in_run a) (Re.sub_spaces in_run b).
Proof.
  induction 1 as [|x y a b Hxy Hab IH]; intros in_run; simpl; [constructor|].
  rewrite <- (same_isspace x y Hxy). destruct (Py.isspace x).
  - destruct in_run; [done|]. constructor; [by vm_compute | done].
  - by constructor.
Qed.

Lemma same_sub_paren (a b : str) : same a b ->
  forall p q, same p q -> same (Re.sub_paren p a) (Re.sub_paren q b).
Proof.
  induction 1 as [|x y a b Hxy Hab IH]; intros p q Hpq; simpl; [done|].
  rewrite <- (same_isspace x y Hxy), <- (same_lparen x y Hxy).
  destruct (Py.isspace x).
  - apply IH. apply Forall2_app; [done | by constructor].
  - destruct (x =? ch_lparen).
    + constructor; [by vm_compute|]. constructor; [by vm_compute|]. apply IH. constructor.
    + apply Forall2_app; [done|]. constructor; [done|]. apply IH. constructor.
Qed.

Lemma sub_group_step (pair : N -> N -> bool) (repl : str) (a b c d : N) (r : str) :
  Re.sub_group pair repl (a :: b :: c :: d :: r)
  = if (a =? ch_lparen) && pair b c && (d =? ch_rparen)
    then repl ++ Re.sub_group pair repl r
    else a :: Re.sub_group pair repl (b :: c :: d :: r).
Proof. reflexivity. Qed.

Lemma same_sub_group (pair : N -> N -> bool) (repl : str) :
  (forall b c b' c', same_letter b b' = true -> same_letter c c' = true ->
     pair b c = pair b' c') ->
  same repl repl ->
  forall a b, same a b -> same (Re.sub_group pair repl a) (Re.sub_group pair repl b).
Proof.
  intros Hpair Hrepl a. induction a as [a IH] using str_length_ind. intros b Hab.
  destruct Hab as [|x x' r r' Hx Hr]; [constructor|].
  destruct Hr as [|y y' r r' Hy Hr]; [by repeat constructor|].
  destruct Hr as [|z z' r r' Hz Hr]; [by repeat constructor|].
  destruct Hr as [|w w' r r' Hw Hr]; [by repeat constructor|].
  rewrite !sub_group_step.
  rewrite <- (same_lparen x x' Hx), <- (Hpair y z y' z' Hy Hz), <- (same_rparen w w' Hw).
  destruct ((x =? ch_lparen) && pair y z && (w =? ch_rparen)).
  - apply Forall2_app; [done|]. apply IH; [simpl; lia | done].
  - constructor; [done|]. apply IH; [simpl; lia|]. by repeat constructor.
Qed.

Lemma same_pair_KO (b c b' c' : N) :
  same_letter b b' = true -> same_letter c c' = true ->
  Re.pair_KO b c = Re.pair_KO b' c'.
Proof.
  intros (_ & _ & _ & _ & Hb)%same_letter_facts (_ & _ & _ & _ & Hc)%same_letter_facts.
  unfold Re.pair_KO.
  rewrite (Hb Re.ci_greek_K), (Hc Re.ci_greek_O), (Hb Re.ci_latin_K), (Hc Re.ci_latin_O);
    [done | unfold ci_classes; set_solver ..].
Qed.

Lemma same_pair_KA (b c b' c' : N) :
  same_letter b b' = true -> same_letter c c' = true ->
  Re.pair_KA b c = Re.pair_KA b' c'.
Proof.
  intros (_ & _ & _ & _ & Hb)%same_letter_facts (_ & _ & _ & _ & Hc)%same_letter_facts.
  unfold Re.pair_KA.
  rewrite (Hb Re.ci_greek_K), (Hc Re.ci_greek_A), (Hb Re.ci_latin_K), (Hc Re.ci_latin_A);
    [done | unfold ci_classes; set_solver ..].
Qed.

Lemma same_upper (a b : str) : same a b -> Py.upper a = Py.upper b.
Proof.
  induction 1 as [|x y a b Hxy Hab IH]; [done|].
  apply same_letter_facts in Hxy as (Px & Py & Hu & _).
  unfold Py.upper in *. simpl.
  by rewrite (plain_upper_char x Px), (plain_upper_char y Py), Hu, IH.
Qed.

(** Names that are the same letter by letter, once the accents are
    removed, have the same normal form. *)
Lemma norm_name_same_letters (s t : str) :
  same (Py.translate _DEACCENT_TABLE s) (Py.translate _DEACCENT_TABLE t) ->
  norm_name s = norm_name t.
Proof.
  intros H. unfold norm_name. apply same_upper.
  apply (same_sub_group Re.pair_KA lit_KA);
    [apply same_pair_KA | by repeat (constructor; [by vm_compute|]) |].
  apply (same_sub_group Re.pair_KO lit_KO);
    [apply same_pair_KO | by repeat (constructor; [by vm_compute|]) |].
  apply same_sub_paren; [|constructor].
  by apply same_sub_spaces, same_strip.
Qed.

Lemma one_upper_char (c : N) :
  one_upper c = true ->
  Py.upper_char c = [upper1 c]
  /\ same_letter (Py.translate_char _DEACCENT_TABLE (upper1 c))
       (Py.translate_char _DEACCENT_TABLE c) = true.
Proof.
  intros Hc.
  assert (Ha : in_alphabet c = true).
  { unfold one_upper in Hc. by apply andb_prop in Hc as [[? _]%andb_prop _]. }
  pose proof (alphabet_check
    (fun c => implb (one_upper c)
                (bool_decide (Py.upper_char c = [upper1 c])
                 && same_letter (Py.translate_char _DEACCENT_TABLE (upper1 c))
                      (Py.translate_char _DEACCENT_TABLE c)))
    ltac:(by vm_compute) c Ha) as H.
  cbv beta in H. rewrite Hc in H. simpl in H.
  by apply andb_prop in H as [H1%bool_decide_eq_true H2].
Qed.

End SameLetters.

(** X26: [norm_name] does not see the case of a name.  For a name written
    in ASCII and the Greek and Coptic block, without the two small
    letters with dialytika and tonos (U+0390, U+03B0, whose upper-case
    form is three characters), the upper-case name is normalised as the
    name itself. *)
Theorem norm_name_upper_case (s : str) :
  Forall (fun c => one_upper c = true) s ->
  norm_name (Py.upper s) = norm_name s.
Proof.
  intros Hs. apply norm_name_same_letters.
  induction Hs as [|c s Hc _ IH]; [constructor|].
  destruct (one_upper_char c Hc) as [Hu Hsame].
  unfold Py.upper, Py.translate in *. simpl. rewrite Hu. simpl.
  by constructor.
Qed.

Lemma norm_name_upper_case_witness :
  norm_name (Py.upper (utf8 "Ελλάκτωρ  Α.Ε.(κο)")) = norm_name (utf8 "Ελλάκτωρ  Α.Ε.(κο)").
Proof.
  apply norm_name_upper_case.
  apply Forall_forall. intros c Hc%list_elem_of_In.
  assert (H : forallb one_upper (utf8 "Ελλάκτωρ  Α.Ε.(κο)") = true) by (by vm_compute).
  by apply (proj1 (forallb_forall _ _) H).
Defined.
